(** * BumpSetCut logic sandbox: tracker, physics gate, rally decider, segment builder

    A shallow embedding of the Python modules under [logicsandbox/]
    ([processor_config.py], [segment_builder.py], [rally_decider.py],
    [ballistics_gate.py], [kalman_ball_tracker.py]) and the properties of
    them that the design document states.

    Numbers.  Python [float] values are idealised as exact rationals [Q]:
    every comparison, [min], [max], sum, product and quotient is the
    rational one, so rounding, infinities and NaN are outside the model.
    Python [int] counters are [Z]; list positions are [nat].

    Objects.  Every class instance is a record that is passed explicitly;
    a method that mutates [self] returns the new record.  A Python [dict]
    is an association list in insertion order.  A raised exception is the
    [Raise] result of a computation in the [result] monad. *)

From Stdlib Require Import List Bool ZArith QArith Qminmax Lia Lqa String.
From Stdlib Require Import Sorted.
Import ListNotations.

Set Implicit Arguments.

Local Open Scope Q_scope.

(* ===================================================================== *)
(** * Part I.  Definitions                                                *)
(* ===================================================================== *)

(** ** Python builtins used by the sources *)

Module Py.

(** [a < b] on floats. *)
Definition ltb (a b : Q) : bool := negb (Qle_bool b a).

(** [a <= b] on floats. *)
Definition leb (a b : Q) : bool := Qle_bool a b.

(** [max(a, b)]: the first argument is kept unless the second is strictly
    greater. *)
Definition max (a b : Q) : Q := if ltb a b then b else a.

(** [min(a, b)]: the first argument is kept unless the second is strictly
    smaller. *)
Definition min (a b : Q) : Q := if ltb b a then b else a.

(** [abs(a)]. *)
Definition abs (a : Q) : Q := if ltb a 0 then - a else a.

(** [sum(l)]. *)
Definition sum (l : list Q) : Q := fold_left Qplus l 0.

(** [len(l)] as a float operand. *)
Definition len {A} (l : list A) : Q := inject_Z (Z.of_nat (List.length l)).

(** [sorted(l, key=key)] / [l.sort(key=key)]: a stable sort that compares
    keys with [<].  Elements are inserted left to right, each one behind
    every element already placed whose key is not greater. *)
Fixpoint insert_by {A} (key : A -> Q) (x : A) (l : list A) : list A :=
  match l with
  | [] => [x]
  | y :: l' => if ltb (key x) (key y) then x :: y :: l'
               else y :: insert_by key x l'
  end.

Definition sorted {A} (key : A -> Q) (l : list A) : list A :=
  fold_left (fun acc x => insert_by key x acc) l [].

(** Exceptions the modelled code can raise. *)
Inductive exn : Type :=
| AttributeError (name : string)
| IndexError
| KeyError
| ValueError
| ZeroDivisionError.

Inductive result (A : Type) : Type :=
| Ok (a : A)
| Raise (e : exn).

Arguments Ok {A} a.
Arguments Raise {A} e.

Definition bind {A B} (m : result A) (k : A -> result B) : result B :=
  match m with
  | Ok a => k a
  | Raise e => Raise e
  end.

(** A [dict] in insertion order.  [dict_set] is [d[k] = v]: an existing
    key keeps its position, a new key goes to the end. *)
Section Dict.
Variables K V : Type.
Variable eqb : K -> K -> bool.

Fixpoint dict_get (k : K) (d : list (K * V)) : option V :=
  match d with
  | [] => None
  | (k', v) :: d' => if eqb k k' then Some v else dict_get k d'
  end.

Definition dict_mem (k : K) (d : list (K * V)) : bool :=
  existsb (fun kv => eqb k (fst kv)) d.

Fixpoint dict_set (k : K) (v : V) (d : list (K * V)) : list (K * V) :=
  match d with
  | [] => [(k, v)]
  | (k', v') :: d' =>
      if eqb k k' then (k, v) :: d' else (k', v') :: dict_set k v d'
  end.

End Dict.

(** [enumerate(l)]. *)
Definition enumerate {A} (l : list A) : list (nat * A) :=
  combine (seq 0 (List.length l)) l.

End Py.

Notation "x <- m ;; k" := (Py.bind m (fun x => k))
  (at level 61, m at next level, right associativity).

(** ** processor_config.py *)

Module Config.

(** The fields of the [ProcessorConfig] dataclass that the modelled
    components read, with the source's names. *)
Record ProcessorConfig : Type := mkConfig {
  confidence_threshold : Q;
  (* Kalman ball tracker *)
  process_noise_position : Q;
  process_noise_velocity : Q;
  measurement_noise : Q;
  association_gate_threshold : Q;
  max_missed_frames : Z;
  min_tracking_confidence : Q;
  confidence_decay_rate : Q;
  confidence_boost_on_detection : Q;
  (* ballistics gate *)
  enable_enhanced_physics : bool;
  min_points_for_fit : Z;
  max_trajectory_error : Q;
  gravity_acceleration : Q;
  max_horizontal_velocity : Q;
  max_vertical_velocity : Q;
  physics_score_weight : Q;
  smoothness_score_weight : Q;
  continuity_score_weight : Q;
  min_physics_score : Q;
  (* rally decider *)
  rally_start_threshold : Q;
  rally_end_threshold : Q;
  rally_hysteresis_time : Q;
  min_rally_duration : Q;
  max_gap_in_rally : Q;
  rally_cooldown_period : Q;
  min_contact_separation : Q;
  velocity_change_threshold : Q;
  (* segment builder *)
  rally_start_padding : Q;
  rally_end_padding : Q;
  min_segment_duration : Q;
  max_segment_gap : Q;
  segment_quality_threshold : Q
}.

(** [ProcessorConfig()] with the dataclass defaults. *)
Definition default : ProcessorConfig := {|
  confidence_threshold := 0.3;
  process_noise_position := 1;
  process_noise_velocity := 0.5;
  measurement_noise := 10;
  association_gate_threshold := 50;
  max_missed_frames := 15;
  min_tracking_confidence := 0.3;
  confidence_decay_rate := 0.95;
  confidence_boost_on_detection := 0.1;
  enable_enhanced_physics := true;
  min_points_for_fit := 5;
  max_trajectory_error := 50;
  gravity_acceleration := 9.81;
  max_horizontal_velocity := 30;
  max_vertical_velocity := 20;
  physics_score_weight := 0.4;
  smoothness_score_weight := 0.3;
  continuity_score_weight := 0.3;
  min_physics_score := 0.5;
  rally_start_threshold := 0.7;
  rally_end_threshold := 0.3;
  rally_hysteresis_time := 2;
  min_rally_duration := 1.5;
  max_gap_in_rally := 1;
  rally_cooldown_period := 0.5;
  min_contact_separation := 0.3;
  velocity_change_threshold := 15;
  rally_start_padding := 0.5;
  rally_end_padding := 0.3;
  min_segment_duration := 2;
  max_segment_gap := 1.5;
  segment_quality_threshold := 0.6
|}.

(** [ProcessorConfig.validate]: the conjunction of its assertions. *)
Definition validate (c : ProcessorConfig) : bool :=
  Py.leb 0 (confidence_threshold c) && Py.leb (confidence_threshold c) 1 &&
  Py.leb 0 (rally_start_threshold c) && Py.leb (rally_start_threshold c) 1 &&
  Py.leb 0 (rally_end_threshold c) && Py.leb (rally_end_threshold c) 1 &&
  Py.ltb (rally_end_threshold c) (rally_start_threshold c) &&
  Py.ltb 0 (min_rally_duration c) &&
  Py.ltb 0 (rally_hysteresis_time c) &&
  Py.leb 0 (rally_start_padding c) &&
  Py.leb 0 (rally_end_padding c) &&
  Py.ltb 0 (gravity_acceleration c) &&
  Py.ltb 0 (max_horizontal_velocity c) &&
  Py.ltb 0 (max_vertical_velocity c) &&
  Py.ltb 0 (process_noise_position c) &&
  Py.ltb 0 (process_noise_velocity c) &&
  Py.ltb 0 (measurement_noise c) &&
  (0 <? max_missed_frames c)%Z.

(** Attribute lookup by name, [getattr(config, name)], on the float
    fields: a name that the dataclass does not declare has no value, and
    reading it raises [AttributeError]. *)
Definition float_attr (c : ProcessorConfig) (name : string) : option Q :=
  if String.eqb name "confidence_threshold" then Some (confidence_threshold c)
  else if String.eqb name "process_noise_position" then Some (process_noise_position c)
  else if String.eqb name "process_noise_velocity" then Some (process_noise_velocity c)
  else if String.eqb name "measurement_noise" then Some (measurement_noise c)
  else if String.eqb name "association_gate_threshold" then Some (association_gate_threshold c)
  else if String.eqb name "min_tracking_confidence" then Some (min_tracking_confidence c)
  else if String.eqb name "confidence_decay_rate" then Some (confidence_decay_rate c)
  else if String.eqb name "confidence_boost_on_detection" then Some (confidence_boost_on_detection c)
  else if String.eqb name "max_trajectory_error" then Some (max_trajectory_error c)
  else if String.eqb name "gravity_acceleration" then Some (gravity_acceleration c)
  else if String.eqb name "max_horizontal_velocity" then Some (max_horizontal_velocity c)
  else if String.eqb name "max_vertical_velocity" then Some (max_vertical_velocity c)
  else if String.eqb name "physics_score_weight" then Some (physics_score_weight c)
  else if String.eqb name "smoothness_score_weight" then Some (smoothness_score_weight c)
  else if String.eqb name "continuity_score_weight" then Some (continuity_score_weight c)
  else if String.eqb name "min_physics_score" then Some (min_physics_score c)
  else if String.eqb name "rally_start_threshold" then Some (rally_start_threshold c)
  else if String.eqb name "rally_end_threshold" then Some (rally_end_threshold c)
  else if String.eqb name "rally_hysteresis_time" then Some (rally_hysteresis_time c)
  else if String.eqb name "min_rally_duration" then Some (min_rally_duration c)
  else if String.eqb name "max_gap_in_rally" then Some (max_gap_in_rally c)
  else if String.eqb name "rally_cooldown_period" then Some (rally_cooldown_period c)
  else if String.eqb name "min_contact_separation" then Some (min_contact_separation c)
  else if String.eqb name "velocity_change_threshold" then Some (velocity_change_threshold c)
  else if String.eqb name "rally_start_padding" then Some (rally_start_padding c)
  else if String.eqb name "rally_end_padding" then Some (rally_end_padding c)
  else if String.eqb name "min_segment_duration" then Some (min_segment_duration c)
  else if String.eqb name "max_segment_gap" then Some (max_segment_gap c)
  else if String.eqb name "segment_quality_threshold" then Some (segment_quality_threshold c)
  else None.

Definition getattr (c : ProcessorConfig) (name : string) : Py.result Q :=
  match float_attr c name with
  | Some v => Py.Ok v
  | None => Py.Raise (Py.AttributeError name)
  end.

(** [c.copy_with_overrides(max_segment_gap=v)]. *)
Definition set_max_segment_gap (v : Q) (c : ProcessorConfig) : ProcessorConfig :=
  {|
     confidence_threshold := confidence_threshold c;
     process_noise_position := process_noise_position c;
     process_noise_velocity := process_noise_velocity c;
     measurement_noise := measurement_noise c;
     association_gate_threshold := association_gate_threshold c;
     max_missed_frames := max_missed_frames c;
     min_tracking_confidence := min_tracking_confidence c;
     confidence_decay_rate := confidence_decay_rate c;
     confidence_boost_on_detection := confidence_boost_on_detection c;
     enable_enhanced_physics := enable_enhanced_physics c;
     min_points_for_fit := min_points_for_fit c;
     max_trajectory_error := max_trajectory_error c;
     gravity_acceleration := gravity_acceleration c;
     max_horizontal_velocity := max_horizontal_velocity c;
     max_vertical_velocity := max_vertical_velocity c;
     physics_score_weight := physics_score_weight c;
     smoothness_score_weight := smoothness_score_weight c;
     continuity_score_weight := continuity_score_weight c;
     min_physics_score := min_physics_score c;
     rally_start_threshold := rally_start_threshold c;
     rally_end_threshold := rally_end_threshold c;
     rally_hysteresis_time := rally_hysteresis_time c;
     min_rally_duration := min_rally_duration c;
     max_gap_in_rally := max_gap_in_rally c;
     rally_cooldown_period := rally_cooldown_period c;
     min_contact_separation := min_contact_separation c;
     velocity_change_threshold := velocity_change_threshold c;
     rally_start_padding := rally_start_padding c;
     rally_end_padding := rally_end_padding c;
     min_segment_duration := min_segment_duration c;
     max_segment_gap := v;
     segment_quality_threshold := segment_quality_threshold c |}.

(** [c.copy_with_overrides(rally_cooldown_period=v)]. *)
Definition set_rally_cooldown_period (v : Q) (c : ProcessorConfig) : ProcessorConfig :=
  {|
     confidence_threshold := confidence_threshold c;
     process_noise_position := process_noise_position c;
     process_noise_velocity := process_noise_velocity c;
     measurement_noise := measurement_noise c;
     association_gate_threshold := association_gate_threshold c;
     max_missed_frames := max_missed_frames c;
     min_tracking_confidence := min_tracking_confidence c;
     confidence_decay_rate := confidence_decay_rate c;
     confidence_boost_on_detection := confidence_boost_on_detection c;
     enable_enhanced_physics := enable_enhanced_physics c;
     min_points_for_fit := min_points_for_fit c;
     max_trajectory_error := max_trajectory_error c;
     gravity_acceleration := gravity_acceleration c;
     max_horizontal_velocity := max_horizontal_velocity c;
     max_vertical_velocity := max_vertical_velocity c;
     physics_score_weight := physics_score_weight c;
     smoothness_score_weight := smoothness_score_weight c;
     continuity_score_weight := continuity_score_weight c;
     min_physics_score := min_physics_score c;
     rally_start_threshold := rally_start_threshold c;
     rally_end_threshold := rally_end_threshold c;
     rally_hysteresis_time := rally_hysteresis_time c;
     min_rally_duration := min_rally_duration c;
     max_gap_in_rally := max_gap_in_rally c;
     rally_cooldown_period := v;
     min_contact_separation := min_contact_separation c;
     velocity_change_threshold := velocity_change_threshold c;
     rally_start_padding := rally_start_padding c;
     rally_end_padding := rally_end_padding c;
     min_segment_duration := min_segment_duration c;
     max_segment_gap := max_segment_gap c;
     segment_quality_threshold := segment_quality_threshold c |}.

End Config.

(** ** segment_builder.py *)

Module SegmentBuilder.
Import Config.

Record TimeRange : Type := mkTimeRange { tr_start : Q; tr_end : Q }.

(** [TimeRange.duration]. *)
Definition duration (r : TimeRange) : Q := tr_end r - tr_start r.

(** The mutable attributes of a [SegmentBuilder]; the configuration is
    passed beside it. *)
Record t : Type := mkBuilder {
  current_start : option Q;
  ranges : list TimeRange
}.

(** Set in [__init__] and never changed. *)
Definition short_segment_threshold : Q := 2.5.
Definition max_preroll_for_short : Q := 0.5.

(** [SegmentBuilder(config)]. *)
Definition init : t := {| current_start := None; ranges := [] |}.

Definition reset (sb : t) : t := {| current_start := None; ranges := [] |}.

Definition append_padded (s e : Q) (sb : t) : t :=
  {| current_start := current_start sb;
     ranges := ranges sb ++ [mkTimeRange s e] |}.

Definition _close_segment (cfg : ProcessorConfig) (s e : Q) (sb : t) : t :=
  let raw_duration := e - s in
  let effective_preroll :=
    if Py.ltb raw_duration short_segment_threshold
    then Py.min (rally_start_padding cfg) max_preroll_for_short
    else rally_start_padding cfg in
  let padded_start := Py.max 0 (s - effective_preroll) in
  let padded_end := e + rally_end_padding cfg in
  {| current_start := current_start sb;
     ranges := ranges sb ++ [mkTimeRange padded_start padded_end] |}.

Definition append_raw (cfg : ProcessorConfig) (s e : Q) (sb : t) : t :=
  _close_segment cfg s e sb.

Definition observe (cfg : ProcessorConfig) (is_active : bool) (time : Q)
  (sb : t) : t :=
  if is_active then
    match current_start sb with
    | None => {| current_start := Some time; ranges := ranges sb |}
    | Some _ => sb
    end
  else
    let sb' := match current_start sb with
               | Some s => _close_segment cfg s time sb
               | None => sb
               end in
    {| current_start := None; ranges := ranges sb' |}.

Definition _gap_between (range1 range2 : TimeRange) : Q :=
  Py.max 0 (tr_start range2 - tr_end range1).

(** The clamping loop of [finalize]. *)
Fixpoint clamp_ranges (video_duration : Q) (rs : list TimeRange)
  : list TimeRange :=
  match rs with
  | [] => []
  | r :: rs' =>
      let s := Py.max 0 (tr_start r) in
      let e := Py.min video_duration (tr_end r) in
      if Py.ltb s e
      then mkTimeRange s e :: clamp_ranges video_duration rs'
      else clamp_ranges video_duration rs'
  end.

(** One iteration of the merge loop.  [merged_ranges] is only read at
    [[-1]], popped and appended to, so it is kept here with its last
    element first. *)
Definition merge_step (cfg : ProcessorConfig) (merged : list TimeRange)
  (r : TimeRange) : list TimeRange :=
  match merged with
  | lst :: merged' =>
      if Py.leb (_gap_between lst r) (max_segment_gap cfg)
      then mkTimeRange (tr_start lst) (Py.max (tr_end lst) (tr_end r)) :: merged'
      else r :: merged
  | [] => [r]
  end.

Definition merge_ranges (cfg : ProcessorConfig) (rs : list TimeRange)
  : list TimeRange :=
  rev (fold_left (merge_step cfg) rs []).

(** [finalize(video_duration)]: the builder after the call and the list
    it returns. *)
Definition finalize (cfg : ProcessorConfig) (video_duration : Q) (sb : t)
  : t * list TimeRange :=
  let sb1 :=
    match current_start sb with
    | Some s =>
        {| current_start := None;
           ranges := ranges (_close_segment cfg s video_duration sb) |}
    | None => sb
    end in
  let clamped_ranges := clamp_ranges video_duration (ranges sb1) in
  let sorted_ranges := Py.sorted tr_start clamped_ranges in
  let merged_ranges := merge_ranges cfg sorted_ranges in
  let final_ranges :=
    filter (fun r => Py.leb (min_segment_duration cfg) (duration r))
           merged_ranges in
  (sb1, final_ranges).

(** The calls a client can make between construction and [finalize]. *)
Inductive call : Type :=
| Observe (is_active : bool) (time : Q)
| AppendPadded (s e : Q)
| AppendRaw (s e : Q)
| Reset.

Definition do_call (cfg : ProcessorConfig) (sb : t) (c : call) : t :=
  match c with
  | Observe a tm => observe cfg a tm sb
  | AppendPadded s e => append_padded s e sb
  | AppendRaw s e => append_raw cfg s e sb
  | Reset => reset sb
  end.

Definition run (cfg : ProcessorConfig) (cs : list call) (sb : t) : t :=
  fold_left (do_call cfg) cs sb.

(** Two ranges overlap when they share more than an end point. *)
Definition overlap (a b : TimeRange) : Prop :=
  tr_start a < tr_end b /\ tr_start b < tr_end a.

Definition sorted_by_start (l : list TimeRange) : Prop :=
  StronglySorted (fun a b => tr_start a <= tr_start b) l.

Definition non_overlapping (l : list TimeRange) : Prop :=
  ForallOrdPairs (fun a b => ~ overlap a b) l.

Definition within (video_duration : Q) (r : TimeRange) : Prop :=
  0 <= tr_start r /\ tr_end r <= video_duration.

(** What the clamping loop guarantees of each range it keeps. *)
Definition clamped (vd : Q) (r : TimeRange) : Prop :=
  0 <= tr_start r /\ tr_start r < tr_end r /\ tr_end r <= vd.

(** Consecutive entries of the stack that the merge loop builds are
    strictly separated, whatever the order of the input. *)
Definition separated (below above : TimeRange) : Prop :=
  tr_end below < tr_start above.

(** Strict separation, together with [start < end] of both ranges: this
    relation is transitive, so a list sorted by it is strongly sorted. *)
Definition strictly_before (a b : TimeRange) : Prop :=
  tr_start a < tr_end a /\ tr_end a < tr_start b /\ tr_start b < tr_end b.

End SegmentBuilder.

(** ** ballistics_gate.py *)

Module BallisticsGate.
Import Config.

Record TrajectoryPoint : Type := mkPoint {
  px : Q;
  py : Q;
  ptime : Q;
  pconfidence : Q
}.

Record QuadraticFit : Type := mkFit {
  fit_a : Q;
  fit_b : Q;
  fit_c : Q;
  r_squared : Q;
  residual_error : Q;
  point_count : Z;
  vertex_x : Q;
  vertex_y : Q;
  opens_downward : bool
}.

Record PhysicsValidation : Type := mkValidation {
  is_valid : bool;
  physics_score : Q;
  trajectory_score : Q;
  velocity_score : Q;
  gravity_score : Q;
  smoothness_score : Q;
  quadratic_fit : option QuadraticFit;
  max_velocity : Q;
  gravity_consistency : Q;
  trajectory_length : Q
}.

(** Consecutive samples [(points[i-1], points[i])] for [i] from 1. *)
Fixpoint pairs {A} (l : list A) : list (A * A) :=
  match l with
  | a :: (b :: _) as l' => (a, b) :: pairs l'
  | _ => []
  end.

(** [(points[i-1], points[i], points[i+1])] for [i] from 1 to [len - 2]. *)
Fixpoint triples {A} (l : list A) : list (A * A * A) :=
  match l with
  | a :: (b :: c :: _) as l' => (a, b, c) :: triples l'
  | _ => []
  end.

(** [np.mean] and [np.var] of a non-empty sample. *)
Definition mean (l : list Q) : Q := Py.sum l / Py.len l.

Definition var (l : list Q) : Q :=
  let m := mean l in mean (map (fun v => (v - m) * (v - m)) l).

Section Numerics.

(** The two numeric kernels that leave the rationals are parameters of the
    model: the square root ([math.sqrt], [np.sqrt]; only ever applied to a
    sum of squares or a mean of squares) and the least-squares fit
    [np.polyfit(x, y, 2)], whose failure ([LinAlgError], [ValueError]) is
    [None]. *)
Variable sqrt : Q -> Q.
Variable polyfit2 : list Q -> list Q -> option (Q * Q * Q).

Definition _fit_quadratic_trajectory (points : list TrajectoryPoint)
  : option QuadraticFit :=
  if (List.length points <? 3)%nat then None else
  let x_coords := map px points in
  let y_coords := map py points in
  match polyfit2 x_coords y_coords with
  | None => None
  | Some (a, b, c) =>
      let y_pred := map (fun x => (a * x + b) * x + c) x_coords in
      let sq_res := map (fun yy => (fst yy - snd yy) * (fst yy - snd yy))
                        (combine y_coords y_pred) in
      let ss_res := Py.sum sq_res in
      let y_mean := mean y_coords in
      let ss_tot := Py.sum (map (fun y => (y - y_mean) * (y - y_mean)) y_coords) in
      let r2 := if Py.ltb 0 ss_tot then 1 - ss_res / ss_tot else 0 in
      let residual := sqrt (mean sq_res) in
      let vx := if Qeq_bool a 0 then 0 else - b / (2 * a) in
      let vy := a * (vx * vx) + b * vx + c in
      Some {| fit_a := a; fit_b := b; fit_c := c;
              r_squared := r2; residual_error := residual;
              point_count := Z.of_nat (List.length points);
              vertex_x := vx; vertex_y := vy;
              opens_downward := Py.ltb a 0 |}
  end.

(** One iteration of the loop of [_validate_velocity_constraints]; the
    state is [(max_vel_pixels_per_frame, valid_velocities,
    total_velocities)].  Dividing by a zero [pixels_per_meter] raises. *)
Definition velocity_step (cfg : ProcessorConfig) (pixels_per_meter : Q)
  (st : Q * Z * Z) (pq : TrajectoryPoint * TrajectoryPoint)
  : Py.result (Q * Z * Z) :=
  let '(max_vel, valid, total) := st in
  let '(p0, p1) := pq in
  let dt := ptime p1 - ptime p0 in
  if Py.leb dt 0 then Py.Ok st else
  let dx := px p1 - px p0 in
  let dy := py p1 - py p0 in
  let vel_x_pps := dx / dt in
  let vel_y_pps := dy / dt in
  if Qeq_bool pixels_per_meter 0 then Py.Raise Py.ZeroDivisionError else
  let vel_x_mps := vel_x_pps / pixels_per_meter in
  let vel_y_mps := vel_y_pps / pixels_per_meter in
  let max_vel' :=
    Py.max max_vel (sqrt (vel_x_pps * vel_x_pps + vel_y_pps * vel_y_pps)) in
  let total' := (total + 1)%Z in
  if Py.leb (Py.abs vel_x_mps) (max_horizontal_velocity cfg) &&
     Py.leb (Py.abs vel_y_mps) (max_vertical_velocity cfg)
  then Py.Ok (max_vel', (valid + 1)%Z, total')
  else Py.Ok (max_vel', valid, total').

Fixpoint velocity_loop (cfg : ProcessorConfig) (pixels_per_meter : Q)
  (st : Q * Z * Z) (l : list (TrajectoryPoint * TrajectoryPoint))
  : Py.result (Q * Z * Z) :=
  match l with
  | [] => Py.Ok st
  | pq :: l' =>
      st' <- velocity_step cfg pixels_per_meter st pq ;;
      velocity_loop cfg pixels_per_meter st' l'
  end.

Definition _validate_velocity_constraints (cfg : ProcessorConfig)
  (points : list TrajectoryPoint) (pixels_per_meter : Q) : Py.result Q :=
  if (List.length points <? 2)%nat then Py.Ok 1 else
  st <- velocity_loop cfg pixels_per_meter (0, 0%Z, 0%Z) (pairs points) ;;
  let '(_, valid, total) := st in
  Py.Ok (if (0 <? total)%Z then inject_Z valid / inject_Z total else 1).

Definition _validate_gravity_consistency (cfg : ProcessorConfig)
  (points : list TrajectoryPoint) (quad_fit : option QuadraticFit)
  (pixels_per_meter : Q) : Q :=
  match quad_fit with
  | None => 0.5
  | Some fit =>
      if (List.length points <? 3)%nat then 0.5 else
      let direction_score := if Py.ltb (fit_a fit) 0 then 1 else 0 in
      let curvature_magnitude := Py.abs (fit_a fit) in
      let magnitude_score :=
        if Py.leb 0.0001 curvature_magnitude && Py.leb curvature_magnitude 0.01
        then 1
        else
          let m := if Py.ltb curvature_magnitude 0.0001
                   then curvature_magnitude / 0.0001
                   else 0.01 / curvature_magnitude in
          Py.max 0 (Py.min 1 m) in
      (direction_score + magnitude_score) / 2
  end.

(** The acceleration magnitude of one interior sample, when both time
    steps around it are positive. *)
Definition acceleration (t : TrajectoryPoint * TrajectoryPoint * TrajectoryPoint)
  : option Q :=
  let '(p0, p1, p2) := t in
  let dt1 := ptime p1 - ptime p0 in
  let dt2 := ptime p2 - ptime p1 in
  if Py.leb dt1 0 || Py.leb dt2 0 then None else
  let vel1_x := (px p1 - px p0) / dt1 in
  let vel1_y := (py p1 - py p0) / dt1 in
  let vel2_x := (px p2 - px p1) / dt2 in
  let vel2_y := (py p2 - py p1) / dt2 in
  let acc_x := (vel2_x - vel1_x) / ((dt1 + dt2) / 2) in
  let acc_y := (vel2_y - vel1_y) / ((dt1 + dt2) / 2) in
  Some (sqrt (acc_x * acc_x + acc_y * acc_y)).

Fixpoint filter_some {A} (l : list (option A)) : list A :=
  match l with
  | [] => []
  | Some a :: l' => a :: filter_some l'
  | None :: l' => filter_some l'
  end.

Definition _calculate_smoothness_score (points : list TrajectoryPoint) : Q :=
  if (List.length points <? 3)%nat then 1 else
  let accelerations := filter_some (map acceleration (triples points)) in
  match accelerations with
  | [] => 1
  | _ =>
      let acc_variance := var accelerations in
      let max_reasonable_variance := 10000 in
      let smoothness := Py.max 0 (1 - acc_variance / max_reasonable_variance) in
      Py.min 1 smoothness
  end.

(** [residual_error] is a numpy float: divided by a zero
    [max_trajectory_error] it gives an infinity or a NaN, from which
    [max(0.0, 1.0 - _)] keeps [0.0]. *)
Definition _evaluate_trajectory_fit (cfg : ProcessorConfig)
  (quad_fit : option QuadraticFit) : Q :=
  match quad_fit with
  | None => 0
  | Some fit =>
      let r_squared_score := Py.max 0 (r_squared fit) in
      let error_score :=
        if Qeq_bool (max_trajectory_error cfg) 0 then 0
        else Py.max 0 (1 - residual_error fit / max_trajectory_error cfg) in
      let min_points := min_points_for_fit cfg in
      let ideal_points := (min_points * 2)%Z in
      let point_score :=
        if (min_points <? ideal_points)%Z
        then Py.min 1 (inject_Z (point_count fit - min_points)
                       / inject_Z (ideal_points - min_points))
        else 1 in
      let score := r_squared_score * 0.5 + error_score * 0.3 + point_score * 0.2 in
      Py.max 0 (Py.min 1 score)
  end.

Definition _calculate_max_velocity (points : list TrajectoryPoint) : Q :=
  fold_left
    (fun max_vel (pq : TrajectoryPoint * TrajectoryPoint) =>
       let '(p0, p1) := pq in
       let dt := ptime p1 - ptime p0 in
       if Py.leb dt 0 then max_vel else
       let dx := px p1 - px p0 in
       let dy := py p1 - py p0 in
       Py.max max_vel (sqrt (dx * dx + dy * dy) / dt))
    (pairs points) 0.

Definition _calculate_trajectory_length (points : list TrajectoryPoint)
  (pixels_per_meter : Q) : Py.result Q :=
  match pairs points with
  | [] => Py.Ok 0
  | ps =>
      if Qeq_bool pixels_per_meter 0 then Py.Raise Py.ZeroDivisionError else
      Py.Ok (fold_left
               (fun total (pq : TrajectoryPoint * TrajectoryPoint) =>
                  let '(p0, p1) := pq in
                  let dx := px p1 - px p0 in
                  let dy := py p1 - py p0 in
                  total + sqrt (dx * dx + dy * dy) / pixels_per_meter)
               ps 0)
  end.

Definition _create_invalid_result : PhysicsValidation :=
  {| is_valid := false; physics_score := 0;
     trajectory_score := 0; velocity_score := 0;
     gravity_score := 0; smoothness_score := 0;
     quadratic_fit := None; max_velocity := 0;
     gravity_consistency := 0; trajectory_length := 0 |}.

(** [validate_trajectory(points, pixels_per_meter)].  The statements run
    in the source's order; the composite score reads three attributes of
    the configuration by name, the first of them
    [trajectory_score_weight]. *)
Definition validate_trajectory (cfg : ProcessorConfig)
  (points : list TrajectoryPoint) (pixels_per_meter : Q)
  : Py.result PhysicsValidation :=
  if negb (enable_enhanced_physics cfg) then
    Py.Ok {| is_valid := true; physics_score := 1;
             trajectory_score := 1; velocity_score := 1;
             gravity_score := 1; smoothness_score := 1;
             quadratic_fit := None; max_velocity := 0;
             gravity_consistency := 1; trajectory_length := 0 |}
  else if (Z.of_nat (List.length points) <? min_points_for_fit cfg)%Z then
    Py.Ok _create_invalid_result
  else
    let quad_fit := _fit_quadratic_trajectory points in
    velocity_score <- _validate_velocity_constraints cfg points pixels_per_meter ;;
    let gravity_score :=
      _validate_gravity_consistency cfg points quad_fit pixels_per_meter in
    let smoothness_score := _calculate_smoothness_score points in
    let trajectory_score := _evaluate_trajectory_fit cfg quad_fit in
    w_trajectory <- getattr cfg "trajectory_score_weight" ;;
    w_physics <- getattr cfg "physics_score_weight" ;;
    w_smoothness <- getattr cfg "smoothness_score_weight" ;;
    let physics_score :=
      w_trajectory * trajectory_score +
      w_physics * (velocity_score + gravity_score) / 2 +
      w_smoothness * smoothness_score in
    let is_valid :=
      Py.leb (min_physics_score cfg) physics_score &&
      match quad_fit with
      | Some fit => Py.leb (residual_error fit) (max_trajectory_error cfg)
      | None => false
      end in
    trajectory_length <- _calculate_trajectory_length points pixels_per_meter ;;
    Py.Ok {| is_valid := is_valid; physics_score := physics_score;
             trajectory_score := trajectory_score;
             velocity_score := velocity_score;
             gravity_score := gravity_score;
             smoothness_score := smoothness_score;
             quadratic_fit := quad_fit;
             max_velocity := _calculate_max_velocity points;
             gravity_consistency := gravity_score;
             trajectory_length := trajectory_length |}.

End Numerics.

End BallisticsGate.

(** ** rally_decider.py *)

Module RallyDecider.
Import Config.

Inductive RallyState : Type := IDLE | POTENTIAL | ACTIVE | ENDING.

Definition state_eqb (a b : RallyState) : bool :=
  match a, b with
  | IDLE, IDLE | POTENTIAL, POTENTIAL | ACTIVE, ACTIVE | ENDING, ENDING => true
  | _, _ => false
  end.

(** The text templates of [_get_transition_reason]; the number formatted
    into the text is the event's [ev_confidence]. *)
Inductive reason : Type :=
| ConfidenceRising
| RallyConfirmed
| RallyEnding
| ReturningToIdle
| StateChange.

Record RallyEvent : Type := mkEvent {
  ev_timestamp : Q;
  ev_old_state : RallyState;
  ev_new_state : RallyState;
  ev_confidence : Q;
  ev_reason : reason
}.

Record RallyPeriod : Type := mkPeriod {
  start_time : Q;
  end_time : Q;
  rp_duration : Q;
  max_confidence : Q;
  avg_confidence : Q;
  rp_estimated_contacts : Z;
  quality_score : Q
}.

Record RallyContext : Type := mkContext {
  current_time : Q;
  detection_confidence : Q;
  tracking_confidence : Q;
  physics_validation : option BallisticsGate.PhysicsValidation;
  velocity_magnitude : Q;
  time_since_last_detection : Q;
  consecutive_detections : Z
}.

(** The attributes of a [RallyDecider].  [last_contact_time] is created
    by the first counted contact; until then the object has no such
    attribute ([hasattr] is false), which is [None]. *)
Record t : Type := mkDecider {
  current_state : RallyState;
  state_start_time : Q;
  last_state_change_time : Q;
  rally_confidence_history : list (Q * Q);
  last_high_confidence_time : Q;
  last_detection_time : Q;
  current_rally_start : Q;
  current_rally_confidence_sum : Q;
  current_rally_confidence_count : Z;
  current_rally_max_confidence : Q;
  estimated_contacts : Z;
  completed_rallies : list RallyPeriod;
  state_change_events : list RallyEvent;
  last_velocity_magnitude : Q;
  velocity_history : list (Q * Q);
  last_contact_time : option Q
}.

(** [RallyDecider(config)]. *)
Definition init : t := {|
  current_state := IDLE;
  state_start_time := 0;
  last_state_change_time := 0;
  rally_confidence_history := [];
  last_high_confidence_time := 0;
  last_detection_time := 0;
  current_rally_start := 0;
  current_rally_confidence_sum := 0;
  current_rally_confidence_count := 0;
  current_rally_max_confidence := 0;
  estimated_contacts := 0;
  completed_rallies := [];
  state_change_events := [];
  last_velocity_magnitude := 0;
  velocity_history := [];
  last_contact_time := None
|}.

(** [reset()]: the six assignments of the source; every other attribute
    keeps its value. *)
Definition reset (d : t) : t := {|
  current_state := IDLE;
  state_start_time := 0;
  last_state_change_time := last_state_change_time d;
  rally_confidence_history := [];
  last_high_confidence_time := last_high_confidence_time d;
  last_detection_time := last_detection_time d;
  current_rally_start := current_rally_start d;
  current_rally_confidence_sum := current_rally_confidence_sum d;
  current_rally_confidence_count := current_rally_confidence_count d;
  current_rally_max_confidence := current_rally_max_confidence d;
  estimated_contacts := 0;
  completed_rallies := [];
  state_change_events := [];
  last_velocity_magnitude := last_velocity_magnitude d;
  velocity_history := velocity_history d;
  last_contact_time := last_contact_time d
|}.

(** [l.append(x)] followed by [l.pop(0)] when the list has grown past
    [bound]. *)
Definition append_bounded {A} (bound : nat) (l : list A) (x : A) : list A :=
  let l' := l ++ [x] in
  if (bound <? List.length l')%nat then tl l' else l'.

Definition _update_confidence_history (context : RallyContext) (d : t) : t := {|
  current_state := current_state d;
  state_start_time := state_start_time d;
  last_state_change_time := last_state_change_time d;
  rally_confidence_history :=
    append_bounded 100 (rally_confidence_history d)
      (current_time context, detection_confidence context);
  last_high_confidence_time :=
    if Py.ltb 0.7 (detection_confidence context)
    then current_time context else last_high_confidence_time d;
  last_detection_time :=
    if Py.ltb 0 (detection_confidence context)
    then current_time context else last_detection_time d;
  current_rally_start := current_rally_start d;
  current_rally_confidence_sum := current_rally_confidence_sum d;
  current_rally_confidence_count := current_rally_confidence_count d;
  current_rally_max_confidence := current_rally_max_confidence d;
  estimated_contacts := estimated_contacts d;
  completed_rallies := completed_rallies d;
  state_change_events := state_change_events d;
  last_velocity_magnitude := last_velocity_magnitude d;
  velocity_history := velocity_history d;
  last_contact_time := last_contact_time d
|}.

(** Whether [_update_velocity_tracking] counts a contact at this frame. *)
Definition contact_detected (cfg : ProcessorConfig) (context : RallyContext)
  (d : t) : bool :=
  let current_vel := velocity_magnitude context in
  Py.ltb 0 (last_velocity_magnitude d) &&
  Py.ltb (velocity_change_threshold cfg)
         (Py.abs (current_vel - last_velocity_magnitude d)) &&
  match last_contact_time d with
  | None => true
  | Some lc => Py.ltb (min_contact_separation cfg) (current_time context - lc)
  end.

Definition _update_velocity_tracking (cfg : ProcessorConfig)
  (context : RallyContext) (d : t) : t :=
  let contact := contact_detected cfg context d in {|
  current_state := current_state d;
  state_start_time := state_start_time d;
  last_state_change_time := last_state_change_time d;
  rally_confidence_history := rally_confidence_history d;
  last_high_confidence_time := last_high_confidence_time d;
  last_detection_time := last_detection_time d;
  current_rally_start := current_rally_start d;
  current_rally_confidence_sum := current_rally_confidence_sum d;
  current_rally_confidence_count := current_rally_confidence_count d;
  current_rally_max_confidence := current_rally_max_confidence d;
  estimated_contacts :=
    if contact then (estimated_contacts d + 1)%Z else estimated_contacts d;
  completed_rallies := completed_rallies d;
  state_change_events := state_change_events d;
  last_velocity_magnitude := velocity_magnitude context;
  velocity_history :=
    append_bounded 50 (velocity_history d)
      (current_time context, velocity_magnitude context);
  last_contact_time :=
    if contact then Some (current_time context) else last_contact_time d
|}.

Definition _calculate_temporal_confidence (current_time : Q) (d : t) : Q :=
  match rally_confidence_history d with
  | [] => 0
  | history =>
      let recent_window := 2 in
      let recent_confidences :=
        map snd (filter (fun tc => Py.leb (current_time - fst tc) recent_window)
                        history) in
      match recent_confidences with
      | [] => 0
      | _ =>
          let avg_recent_conf :=
            Py.sum recent_confidences / Py.len recent_confidences in
          let consistency_bonus :=
            if (5 <=? List.length recent_confidences)%nat then
              let high_conf_count :=
                List.length (filter (fun c => Py.ltb 0.6 c) recent_confidences) in
              (inject_Z (Z.of_nat high_conf_count) / Py.len recent_confidences)
              * 0.2
            else 0 in
          Py.min 1 (avg_recent_conf + consistency_bonus)
      end
  end.

Definition _calculate_motion_confidence (velocity_magnitude : Q) : Q :=
  let min_reasonable_vel := 10 in
  let max_reasonable_vel := 200 in
  if Qeq_bool velocity_magnitude 0 then 0
  else if Py.leb min_reasonable_vel velocity_magnitude &&
          Py.leb velocity_magnitude max_reasonable_vel then 1
  else if Py.ltb velocity_magnitude min_reasonable_vel
  then velocity_magnitude / min_reasonable_vel
  else Py.max 0 (1 - (velocity_magnitude - max_reasonable_vel) / max_reasonable_vel).

Definition _calculate_rally_confidence (context : RallyContext) (d : t) : Q :=
  let detection_conf :=
    if Py.ltb 0 (detection_confidence context)
    then detection_confidence context else 0 in
  let tracking_conf :=
    if Py.ltb 0 (tracking_confidence context)
    then tracking_confidence context else 0 in
  let physics_conf :=
    match physics_validation context with
    | Some pv => if BallisticsGate.is_valid pv
                 then BallisticsGate.physics_score pv else 0
    | None => 0
    end in
  let temporal_conf := _calculate_temporal_confidence (current_time context) d in
  let motion_conf := _calculate_motion_confidence (velocity_magnitude context) in
  let rally_confidence :=
    0.4 * detection_conf + 0.2 * tracking_conf + 0.2 * physics_conf +
    0.1 * temporal_conf + 0.1 * motion_conf in
  Py.max 0 (Py.min 1 rally_confidence).

Definition _determine_new_state (cfg : ProcessorConfig) (rally_confidence : Q)
  (context : RallyContext) (d : t) : RallyState :=
  let time_in_state := current_time context - state_start_time d in
  match current_state d with
  | IDLE =>
      if Py.ltb (rally_end_threshold cfg) rally_confidence
      then POTENTIAL else IDLE
  | POTENTIAL =>
      if Py.leb (rally_start_threshold cfg) rally_confidence then ACTIVE
      else if Py.leb rally_confidence (rally_end_threshold cfg) &&
              Py.ltb 1 time_in_state then IDLE
      else POTENTIAL
  | ACTIVE =>
      if Py.leb rally_confidence (rally_end_threshold cfg) &&
         Py.ltb (max_gap_in_rally cfg) (time_since_last_detection context)
      then ENDING else ACTIVE
  | ENDING =>
      if Py.leb (rally_start_threshold cfg) rally_confidence then ACTIVE
      else if Py.ltb (rally_cooldown_period cfg) time_in_state then IDLE
      else ENDING
  end.

Definition _get_transition_reason (old_state new_state : RallyState) : reason :=
  match old_state, new_state with
  | IDLE, POTENTIAL => ConfidenceRising
  | POTENTIAL, ACTIVE => RallyConfirmed
  | ACTIVE, ENDING => RallyEnding
  | _, IDLE => ReturningToIdle
  | _, _ => StateChange
  end.

Definition _calculate_rally_quality (duration avg_confidence : Q) (d : t) : Q :=
  let duration_score := Py.min 1 (duration / 10) in
  let confidence_score := avg_confidence in
  let contact_score := Py.min 1 (inject_Z (estimated_contacts d) / 10) in
  duration_score * 0.3 + confidence_score * 0.4 + contact_score * 0.3.

(** The rally that [_end_rally(timestamp)] appends, if it appends one. *)
Definition ended_rally (cfg : ProcessorConfig) (timestamp : Q) (d : t)
  : option RallyPeriod :=
  if (0 <? current_rally_confidence_count d)%Z then
    let duration := timestamp - current_rally_start d in
    let avg_conf := current_rally_confidence_sum d
                    / inject_Z (current_rally_confidence_count d) in
    if Py.leb (min_rally_duration cfg) duration then
      Some {| start_time := current_rally_start d;
              end_time := timestamp;
              rp_duration := duration;
              max_confidence := current_rally_max_confidence d;
              avg_confidence := avg_conf;
              rp_estimated_contacts := estimated_contacts d;
              quality_score := _calculate_rally_quality duration avg_conf d |}
    else None
  else None.

(** [_transition_to_state], with [_start_rally] and [_end_rally] inlined
    at the two branches that call them. *)
Definition _transition_to_state (cfg : ProcessorConfig) (new_state : RallyState)
  (confidence timestamp : Q) (d : t) : t :=
  let old_state := current_state d in
  let event := {| ev_timestamp := timestamp; ev_old_state := old_state;
                  ev_new_state := new_state; ev_confidence := confidence;
                  ev_reason := _get_transition_reason old_state new_state |} in
  let starting := state_eqb new_state ACTIVE && negb (state_eqb old_state ACTIVE) in
  let ending := negb starting &&
                state_eqb old_state ACTIVE && negb (state_eqb new_state ACTIVE) in
  {|
  current_state := new_state;
  state_start_time := timestamp;
  last_state_change_time := timestamp;
  rally_confidence_history := rally_confidence_history d;
  last_high_confidence_time := last_high_confidence_time d;
  last_detection_time := last_detection_time d;
  current_rally_start := if starting then timestamp else current_rally_start d;
  current_rally_confidence_sum :=
    if starting then 0 else current_rally_confidence_sum d;
  current_rally_confidence_count :=
    if starting then 0%Z else current_rally_confidence_count d;
  current_rally_max_confidence :=
    if starting then 0 else current_rally_max_confidence d;
  estimated_contacts := if starting then 0%Z else estimated_contacts d;
  completed_rallies :=
    if ending then
      match ended_rally cfg timestamp d with
      | Some rally => completed_rallies d ++ [rally]
      | None => completed_rallies d
      end
    else completed_rallies d;
  state_change_events := state_change_events d ++ [event];
  last_velocity_magnitude := last_velocity_magnitude d;
  velocity_history := velocity_history d;
  last_contact_time := last_contact_time d
|}.

Definition _update_rally_tracking (rally_confidence : Q) (d : t) : t :=
  let active := state_eqb (current_state d) ACTIVE in {|
  current_state := current_state d;
  state_start_time := state_start_time d;
  last_state_change_time := last_state_change_time d;
  rally_confidence_history := rally_confidence_history d;
  last_high_confidence_time := last_high_confidence_time d;
  last_detection_time := last_detection_time d;
  current_rally_start := current_rally_start d;
  current_rally_confidence_sum :=
    if active then current_rally_confidence_sum d + rally_confidence
    else current_rally_confidence_sum d;
  current_rally_confidence_count :=
    if active then (current_rally_confidence_count d + 1)%Z
    else current_rally_confidence_count d;
  current_rally_max_confidence :=
    if active then Py.max (current_rally_max_confidence d) rally_confidence
    else current_rally_max_confidence d;
  estimated_contacts := estimated_contacts d;
  completed_rallies := completed_rallies d;
  state_change_events := state_change_events d;
  last_velocity_magnitude := last_velocity_magnitude d;
  velocity_history := velocity_history d;
  last_contact_time := last_contact_time d
|}.

(** The state-machine part of [update]: everything [update] does once
    the frame's rally confidence is known. *)
Definition decide (cfg : ProcessorConfig) (rally_confidence : Q)
  (context : RallyContext) (d : t) : t :=
  let new_state := _determine_new_state cfg rally_confidence context d in
  let d1 := if state_eqb new_state (current_state d) then d
            else _transition_to_state cfg new_state rally_confidence
                   (current_time context) d in
  _update_rally_tracking rally_confidence d1.

(** [update(context)]: the decider after the call; the value returned is
    its [current_state]. *)
Definition update (cfg : ProcessorConfig) (context : RallyContext) (d : t) : t :=
  let d1 := _update_confidence_history context d in
  let d2 := _update_velocity_tracking cfg context d1 in
  let rally_confidence := _calculate_rally_confidence context d2 in
  decide cfg rally_confidence context d2.

(** A run of [update] calls: the decider at the end and the states
    returned, in order. *)
Fixpoint run (cfg : ProcessorConfig) (contexts : list RallyContext) (d : t)
  : t * list RallyState :=
  match contexts with
  | [] => (d, [])
  | c :: cs =>
      let d' := update cfg c d in
      let '(d'', states) := run cfg cs d' in
      (d'', current_state d' :: states)
  end.

(** A run of the state machine on given rally confidences: each frame is
    a confidence and the context it came with. *)
Fixpoint run_confidences (cfg : ProcessorConfig)
  (frames : list (Q * RallyContext)) (d : t) : list RallyState :=
  match frames with
  | [] => []
  | (rc, c) :: fs =>
      let d' := decide cfg rc c d in
      current_state d' :: run_confidences cfg fs d'
  end.

End RallyDecider.

(** ** kalman_ball_tracker.py *)

Module KalmanBallTracker.
Import Config.

(** *** Matrices

    A numpy array of shape [(n, m)] is a list of [n] rows of length [m];
    an array of shape [(n,)] is a list of [n] numbers.  Every entry that
    a matrix operation computes is put in lowest terms with [Qred], which
    does not change its value ([Qred q == q]) and keeps the numbers of a
    long run small. *)

Definition Matrix : Type := list (list Q).

Definition dot (u v : list Q) : Q :=
  Qred (fold_left (fun acc p => acc + fst p * snd p) (combine u v) 0).

(** [m.T]. *)
Fixpoint transpose (m : Matrix) : Matrix :=
  match m with
  | [] => []
  | [r] => map (fun x => [x]) r
  | r :: rs => map (fun p => fst p :: snd p) (combine r (transpose rs))
  end.

(** [a @ b] on two matrices. *)
Definition mmul (a b : Matrix) : Matrix :=
  map (fun row => map (fun col => dot row col) (transpose b)) a.

(** [a @ v] on a matrix and a vector. *)
Definition mat_vec (a : Matrix) (v : list Q) : list Q :=
  map (fun row => dot row v) a.

Definition zip_with (f : Q -> Q -> Q) (u v : list Q) : list Q :=
  map (fun p => Qred (f (fst p) (snd p))) (combine u v).

Definition madd (a b : Matrix) : Matrix :=
  map (fun p => zip_with Qplus (fst p) (snd p)) (combine a b).

Definition msub (a b : Matrix) : Matrix :=
  map (fun p => zip_with Qminus (fst p) (snd p)) (combine a b).

Definition mscale (k : Q) (a : Matrix) : Matrix :=
  map (map (fun x => Qred (x * k))) a.

(** [v.reshape(-1, 1)] and [m.flatten()]. *)
Definition column (v : list Q) : Matrix := map (fun x => [x]) v.
Definition flatten (m : Matrix) : list Q := List.concat m.

(** [np.eye(4)]. *)
Definition eye4 : Matrix :=
  [[1; 0; 0; 0]; [0; 1; 0; 0]; [0; 0; 1; 0]; [0; 0; 0; 1]].

(** [float(m)] of a 1x1 array. *)
Definition scalar (m : Matrix) : Q :=
  match m with
  | [[v]] => v
  | _ => 0
  end.

(** [np.linalg.inv] on the 2x2 innovation covariance; [None] is
    [LinAlgError] (singular matrix). *)
Definition inv (s : Matrix) : option Matrix :=
  match s with
  | [[a; b]; [c; d]] =>
      let det := a * d - b * c in
      if Qeq_bool det 0 then None
      else Some (map (map Qred) [[d / det; - b / det]; [- c / det; a / det]])
  | _ => None
  end.

(** [np.linalg.pinv] on a 2x2 matrix, the Moore-Penrose inverse: the
    inverse when there is one, the scaled transpose [s.T / |s|^2] for a
    matrix of rank one, zero for the zero matrix. *)
Definition pinv (s : Matrix) : Matrix :=
  match s with
  | [[a; b]; [c; d]] =>
      let det := a * d - b * c in
      if Qeq_bool det 0 then
        let n := a * a + b * b + c * c + d * d in
        if Qeq_bool n 0 then [[0; 0]; [0; 0]]
        else map (map Qred) [[a / n; c / n]; [b / n; d / n]]
      else map (map Qred) [[d / det; - b / det]; [- c / det; a / det]]
  | _ => s
  end.

(** A non-negative float known through its square: [Root q] stands for
    [math.sqrt(q)].  Comparing a root with a float and ordering roots
    among themselves are decided on the squares. *)
Record root : Type := Root { radicand : Q }.

(** [math.sqrt(q) < g]. *)
Definition root_ltb (r : root) (g : Q) : bool :=
  Py.ltb 0 g && Py.ltb (radicand r) (g * g).

(** [math.sqrt(q)]: a negative argument raises [ValueError]. *)
Definition py_sqrt (q : Q) : Py.result root :=
  if Py.ltb q 0 then Py.Raise Py.ValueError else Py.Ok (Root q).

(** *** The tracker *)

Record TrackingState : Type := mkTrack {
  state : list Q;
  covariance : Matrix;
  confidence : Q;
  last_detection_frame : Z;
  prediction_count : Z;
  track_id : Z;
  age : Z
}.

(** A detection [(x, y, confidence)]. *)
Definition Detection : Type := (Q * Q * Q)%type.

(** The mutable attributes of a [KalmanBallTracker].
    [_current_detections] is first assigned by [_create_new_tracks];
    before that the object has no such attribute, which is [None]. *)
Record t : Type := mkTracker {
  tracks : list (Z * TrackingState);
  next_track_id : Z;
  frame_count : Z;
  _current_detections : option (list Detection)
}.

(** [KalmanBallTracker(config)]. *)
Definition init : t :=
  {| tracks := []; next_track_id := 0; frame_count := 0;
     _current_detections := None |}.

Definition reset (k : t) : t :=
  {| tracks := []; next_track_id := 0; frame_count := 0;
     _current_detections := _current_detections k |}.

(** The filter matrices of [__init__], with [dt = 1]. *)
Definition F : Matrix :=
  [[1; 0; 1; 0]; [0; 1; 0; 1]; [0; 0; 1; 0]; [0; 0; 0; 1]].

Definition H : Matrix := [[1; 0; 0; 0]; [0; 1; 0; 0]].

Definition Qn (cfg : ProcessorConfig) : Matrix :=
  [[process_noise_position cfg; 0; 0; 0];
   [0; process_noise_position cfg; 0; 0];
   [0; 0; process_noise_velocity cfg; 0];
   [0; 0; 0; process_noise_velocity cfg]].

Definition R (cfg : ProcessorConfig) : Matrix :=
  [[measurement_noise cfg; 0]; [0; measurement_noise cfg]].

Definition predict_track (cfg : ProcessorConfig) (track : TrackingState)
  : TrackingState :=
  {| state := mat_vec F (state track);
     covariance := madd (mmul (mmul F (covariance track)) (transpose F)) (Qn cfg);
     confidence := confidence track;
     last_detection_frame := last_detection_frame track;
     prediction_count := (prediction_count track + 1)%Z;
     track_id := track_id track;
     age := (age track + 1)%Z |}.

Definition map_values {A B} (f : A -> B) (d : list (Z * A)) : list (Z * B) :=
  map (fun kv => (fst kv, f (snd kv))) d.

Definition with_tracks (tr : list (Z * TrackingState)) (k : t) : t :=
  {| tracks := tr; next_track_id := next_track_id k;
     frame_count := frame_count k;
     _current_detections := _current_detections k |}.

Definition _predict_tracks (cfg : ProcessorConfig) (k : t) : t :=
  with_tracks (map_values (predict_track cfg) (tracks k)) k.

(** The innovation [y = z - H x] and its covariance [S = H P H^T + R]. *)
Definition innovation (track : TrackingState) (x y : Q) : Matrix :=
  msub [[x]; [y]] (mmul H (column (state track))).

Definition innovation_covariance (cfg : ProcessorConfig)
  (track : TrackingState) : Matrix :=
  madd (mmul (mmul H (covariance track)) (transpose H)) (R cfg).

Definition _mahalanobis_distance (cfg : ProcessorConfig)
  (track : TrackingState) (detection : Q * Q) : Py.result root :=
  let y := innovation track (fst detection) (snd detection) in
  let S := innovation_covariance cfg track in
  match inv S with
  | Some S_inv => py_sqrt (scalar (mmul (mmul (transpose y) S_inv) y))
  | None => py_sqrt (scalar (mmul (transpose y) y))
  end.

Definition pair_eqb (a b : Z * nat) : bool :=
  (fst a =? fst b)%Z && (snd a =? snd b)%nat.

Definition mem_nat (i : nat) (l : list nat) : bool := existsb (Nat.eqb i) l.

(** The inner loop of the distance table, for one track. *)
Fixpoint gate_detections (cfg : ProcessorConfig) (track_id : Z)
  (track : TrackingState) (dets : list (nat * Detection))
  (used_detections : list nat) (distances : list (Z * nat * root))
  : Py.result (list (Z * nat * root)) :=
  match dets with
  | [] => Py.Ok distances
  | (det_idx, (det_x, det_y, conf)) :: dets' =>
      if mem_nat det_idx used_detections
      then gate_detections cfg track_id track dets' used_detections distances
      else
        distance <- _mahalanobis_distance cfg track (det_x, det_y) ;;
        let distances' :=
          if root_ltb distance (association_gate_threshold cfg)
          then Py.dict_set pair_eqb (track_id, det_idx) distance distances
          else distances in
        gate_detections cfg track_id track dets' used_detections distances'
  end.

(** The outer loop, over [self.tracks.items()]. *)
Fixpoint gate_tracks (cfg : ProcessorConfig) (trs : list (Z * TrackingState))
  (dets : list (nat * Detection)) (used_detections : list nat)
  (distances : list (Z * nat * root)) : Py.result (list (Z * nat * root)) :=
  match trs with
  | [] => Py.Ok distances
  | (track_id, track) :: trs' =>
      distances' <- gate_detections cfg track_id track dets used_detections
                      distances ;;
      gate_tracks cfg trs' dets used_detections distances'
  end.

(** The greedy loop over the sorted pairs: the state is
    [(associations, used_detections)]. *)
Fixpoint greedy (sorted_pairs : list (Z * nat * root))
  (associations : list (Z * nat)) (used_detections : list nat)
  : list (Z * nat) :=
  match sorted_pairs with
  | [] => associations
  | (track_id, det_idx, _) :: rest =>
      if negb (Py.dict_mem Z.eqb track_id associations) &&
         negb (mem_nat det_idx used_detections)
      then greedy rest (Py.dict_set Z.eqb track_id det_idx associations)
                  (det_idx :: used_detections)
      else greedy rest associations used_detections
  end.

(** [_associate_detections(detections)]: the dictionary
    [track_id -> detection_index]. *)
Definition _associate_detections (cfg : ProcessorConfig) (k : t)
  (detections : list Detection) : Py.result (list (Z * nat)) :=
  distances <- gate_tracks cfg (tracks k) (Py.enumerate detections) [] [] ;;
  let sorted_pairs := Py.sorted (fun p => radicand (snd p)) distances in
  Py.Ok (greedy sorted_pairs [] []).

(** The Kalman correction of a track by a measurement [(det_x, det_y)]:
    the new state vector and covariance. *)
Definition kalman_correct (cfg : ProcessorConfig) (track : TrackingState)
  (det_x det_y : Q) : list Q * Matrix :=
  let y := innovation track det_x det_y in
  let S := innovation_covariance cfg track in
  let K := mmul (mmul (covariance track) (transpose H)) (pinv S) in
  (flatten (madd (column (state track)) (mmul K y)),
   mmul (msub eye4 (mmul K H)) (covariance track)).

(** The body of the loop of [_update_tracks] for a track whose
    measurement is [det]. *)
Definition update_track (cfg : ProcessorConfig) (frame_count : Z)
  (track : TrackingState) (det : Detection) : TrackingState :=
  let '(det_x, det_y, _) := det in
  let '(st, cov) := kalman_correct cfg track det_x det_y in
  {| state := st;
     covariance := cov;
     confidence := confidence track;
     last_detection_frame := frame_count;
     prediction_count := 0;
     track_id := track_id track;
     age := age track |}.

(** [_update_tracks(associations)].  The measurement is read from
    [self._current_detections], at the associated index. *)
Fixpoint _update_tracks (cfg : ProcessorConfig)
  (associations : list (Z * nat)) (k : t) : Py.result t :=
  match associations with
  | [] => Py.Ok k
  | (track_id, det_idx) :: rest =>
      match Py.dict_get Z.eqb track_id (tracks k) with
      | None => Py.Raise Py.KeyError
      | Some track =>
          match _current_detections k with
          | None => _update_tracks cfg rest k
          | Some current =>
              match nth_error current det_idx with
              | None => Py.Raise Py.IndexError
              | Some det =>
                  _update_tracks cfg rest
                    (with_tracks
                       (Py.dict_set Z.eqb track_id
                          (update_track cfg (frame_count k) track det)
                          (tracks k)) k)
              end
          end
      end
  end.

(** The loop of [_create_new_tracks]. *)
Fixpoint spawn_tracks (cfg : ProcessorConfig) (associated : list nat)
  (dets : list (nat * Detection)) (k : t) : t :=
  match dets with
  | [] => k
  | (det_idx, (det_x, det_y, conf)) :: dets' =>
      if negb (mem_nat det_idx associated) &&
         Py.leb (min_tracking_confidence cfg) conf
      then
        let track_id := next_track_id k in
        let track :=
          {| state := [det_x; det_y; 0; 0];
             covariance := mscale 100 eye4;
             confidence := conf;
             last_detection_frame := frame_count k;
             prediction_count := 0;
             track_id := track_id;
             age := 0 |} in
        spawn_tracks cfg associated dets'
          {| tracks := Py.dict_set Z.eqb track_id track (tracks k);
             next_track_id := (next_track_id k + 1)%Z;
             frame_count := frame_count k;
             _current_detections := _current_detections k |}
      else spawn_tracks cfg associated dets' k
  end.

Definition _create_new_tracks (cfg : ProcessorConfig)
  (associations : list (Z * nat)) (detections : list Detection) (k : t) : t :=
  let k' := {| tracks := tracks k; next_track_id := next_track_id k;
               frame_count := frame_count k;
               _current_detections := Some detections |} in
  spawn_tracks cfg (map snd associations) (Py.enumerate detections) k'.

(** Whether [_cleanup_tracks] removes the track. *)
Definition stale (cfg : ProcessorConfig) (frame_count : Z)
  (track : TrackingState) : bool :=
  let frames_since_detection := (frame_count - last_detection_frame track)%Z in
  if (max_missed_frames cfg <? frames_since_detection)%Z then true
  else Py.ltb (confidence track) 0.1.

Definition _cleanup_tracks (cfg : ProcessorConfig) (k : t) : t :=
  with_tracks
    (filter (fun kv => negb (stale cfg (frame_count k) (snd kv))) (tracks k)) k.

Definition refresh_confidence (cfg : ProcessorConfig) (track : TrackingState)
  : TrackingState :=
  let c1 := confidence track * confidence_decay_rate cfg in
  let c2 := if (prediction_count track =? 0)%Z
            then Py.min 1 (c1 + confidence_boost_on_detection cfg)
            else c1 in
  {| state := state track;
     covariance := covariance track;
     confidence := Py.max 0 (Py.min 1 c2);
     last_detection_frame := last_detection_frame track;
     prediction_count := prediction_count track;
     track_id := track_id track;
     age := age track |}.

Definition _update_confidence (cfg : ProcessorConfig) (k : t) : t :=
  with_tracks (map_values (refresh_confidence cfg) (tracks k)) k.

(** The start of [update]: the frame counter is incremented and every
    track is predicted (step 1). *)
Definition begin_frame (cfg : ProcessorConfig) (k : t) : t :=
  _predict_tracks cfg
    {| tracks := tracks k; next_track_id := next_track_id k;
       frame_count := (frame_count k + 1)%Z;
       _current_detections := _current_detections k |}.

(** The associations computed by the [update] call made in state [k]. *)
Definition associations_of (cfg : ProcessorConfig) (k : t)
  (detections : list Detection) : Py.result (list (Z * nat)) :=
  _associate_detections cfg (begin_frame cfg k) detections.

(** [update] up to and including step 3: the tracker before any track is
    created, and the associations. *)
Definition update_matched (cfg : ProcessorConfig) (k : t)
  (detections : list Detection) : Py.result (t * list (Z * nat)) :=
  let k1 := begin_frame cfg k in
  associations <- _associate_detections cfg k1 detections ;;
  k3 <- _update_tracks cfg associations k1 ;;
  Py.Ok (k3, associations).

(** [update(detections, frame_time)]: the tracker after the call and the
    list of tracks returned.  [frame_time] is not read by the source. *)
Definition update (cfg : ProcessorConfig) (k : t) (detections : list Detection)
  : Py.result (t * list TrackingState) :=
  m <- update_matched cfg k detections ;;
  let '(k3, associations) := m in
  let k4 := _create_new_tracks cfg associations detections k3 in
  let k5 := _cleanup_tracks cfg k4 in
  let k6 := _update_confidence cfg k5 in
  Py.Ok (k6, map snd (tracks k6)).

(** The identifiers of the tracks that the [update] call made in state
    [k] creates: the keys that step 4 adds to the dictionary. *)
Definition spawned_ids (cfg : ProcessorConfig) (k : t)
  (detections : list Detection) : Py.result (list Z) :=
  m <- update_matched cfg k detections ;;
  let '(k3, associations) := m in
  let k4 := _create_new_tracks cfg associations detections k3 in
  Py.Ok (filter (fun id => negb (Py.dict_mem Z.eqb id (tracks k3)))
                (map fst (tracks k4))).

(** A run of [update] calls, none of which raises: the tracker at the
    end and the lists returned. *)
Fixpoint run (cfg : ProcessorConfig) (calls : list (list Detection)) (k : t)
  : Py.result (t * list (list TrackingState)) :=
  match calls with
  | [] => Py.Ok (k, [])
  | dets :: rest =>
      r <- update cfg k dets ;;
      r' <- run cfg rest (fst r) ;;
      Py.Ok (fst r', snd r :: snd r')
  end.


(** The loop of [_create_new_tracks] with a log: the statements of the
    source, and beside the tracker the [track_id] that each iteration
    which creates a track assigns - one entry per created track, in
    iteration order. *)
Fixpoint spawn_tracks_logged (cfg : ProcessorConfig) (associated : list nat)
  (dets : list (nat * Detection)) (k : t) : t * list Z :=
  match dets with
  | [] => (k, [])
  | (det_idx, (det_x, det_y, conf)) :: dets' =>
      if negb (mem_nat det_idx associated) &&
         Py.leb (min_tracking_confidence cfg) conf
      then
        let track_id := next_track_id k in
        let track :=
          {| state := [det_x; det_y; 0; 0];
             covariance := mscale 100 eye4;
             confidence := conf;
             last_detection_frame := frame_count k;
             prediction_count := 0;
             track_id := track_id;
             age := 0 |} in
        let '(k', ids) :=
          spawn_tracks_logged cfg associated dets'
            {| tracks := Py.dict_set Z.eqb track_id track (tracks k);
               next_track_id := (next_track_id k + 1)%Z;
               frame_count := frame_count k;
               _current_detections := _current_detections k |} in
        (k', track_id :: ids)
      else spawn_tracks_logged cfg associated dets' k
  end.




(** The trackers that a client can hold: a new one, and what [update]
    (when it returns) and [reset] make of one. *)
Inductive reachable (cfg : ProcessorConfig) : t -> Prop :=
| reach_init : reachable cfg init
| reach_update k dets k' out :
    reachable cfg k -> update cfg k dets = Py.Ok (k', out) ->
    reachable cfg k'
| reach_reset k : reachable cfg k -> reachable cfg (reset k).

(** What holds of every reachable tracker: each track is stored under
    its own identifier and was last detected at a frame already counted,
    every identifier in use is below [next_track_id], and the dictionary
    lists the tracks by increasing identifier. *)
Definition entry_ok (frame_count : Z) (kv : Z * TrackingState) : Prop :=
  track_id (snd kv) = fst kv /\
  (last_detection_frame (snd kv) <= frame_count)%Z.

Definition wf (k : t) : Prop :=
  Forall (entry_ok (frame_count k)) (tracks k) /\
  Forall (fun id => (id < next_track_id k)%Z) (map fst (tracks k)) /\
  StronglySorted Z.lt (map fst (tracks k)).

Definition unit_confidence (track : TrackingState) : Prop :=
  0 <= confidence track <= 1.

End KalmanBallTracker.

(** ** kalman_ball_tracker.py: queries *)

Module TrackerQueries.
Import Config KalmanBallTracker.

(** [max(l, key=key)] on a list that starts with [best]: the first
    element whose key no later element exceeds. *)
Fixpoint max_by {A} (key : A -> Q) (best : A) (l : list A) : A :=
  match l with
  | [] => best
  | x :: l' => max_by key (if Py.ltb (key best) (key x) then x else best) l'
  end.

Definition get_best_track (k : t) : option TrackingState :=
  match map snd (tracks k) with
  | [] => None
  | track :: rest => Some (max_by confidence track rest)
  end.

(** [track.state[i]]: out of range is [IndexError]. *)
Definition state_at (track : TrackingState) (i : nat) : Py.result Q :=
  match nth_error (state track) i with
  | Some v => Py.Ok v
  | None => Py.Raise Py.IndexError
  end.

(** [get_predicted_position(track_id, frames_ahead)]; the outer option is
    the [None] returned for an unknown track. *)
Definition get_predicted_position (k : t) (track_id : Z) (frames_ahead : Z)
  : option (Py.result (Q * Q)) :=
  match Py.dict_get Z.eqb track_id (tracks k) with
  | None => None
  | Some track =>
      let dt := inject_Z frames_ahead * 1 in
      Some (x <- state_at track 0 ;;
            vx <- state_at track 2 ;;
            y <- state_at track 1 ;;
            vy <- state_at track 3 ;;
            Py.Ok (x + vx * dt, y + vy * dt))
  end.

Definition get_track_velocity (k : t) (track_id : Z)
  : option (Py.result (Q * Q)) :=
  match Py.dict_get Z.eqb track_id (tracks k) with
  | None => None
  | Some track =>
      Some (vx <- state_at track 2 ;;
            vy <- state_at track 3 ;;
            Py.Ok (vx, vy))
  end.

(** The numbers of [get_track_statistics] for a tracker with tracks. *)
Record TrackStatistics : Type := mkTrackStatistics {
  active_tracks : nat;
  avg_confidence : Q;
  max_confidence : Q;
  avg_age : Q;
  max_predictions : Z;
  tracks_predicting : nat
}.

Definition get_track_statistics (k : t) : option TrackStatistics :=
  match map snd (tracks k) with
  | [] => None
  | track :: rest =>
      let all := track :: rest in
      let confidences := map confidence all in
      Some {| active_tracks := List.length all;
              avg_confidence := Py.sum confidences / Py.len confidences;
              max_confidence :=
                fold_left Py.max (map confidence rest) (confidence track);
              avg_age :=
                inject_Z (fold_left Z.add (map age all) 0%Z) / Py.len all;
              max_predictions :=
                fold_left (fun m p => if (m <? p)%Z then p else m)
                          (map prediction_count rest) (prediction_count track);
              tracks_predicting :=
                List.length (filter (fun p => (0 <? p)%Z)
                                    (map prediction_count all)) |}
  end.

(** The shape and the counters of a track that the invariant of the
    reachable trackers fixes, at frame [frame_count]. *)
Definition is_4x4 (m : Matrix) : Prop :=
  List.length m = 4%nat /\ Forall (fun row => List.length row = 4%nat) m.

Definition shaped (track : TrackingState) : Prop :=
  List.length (state track) = 4%nat /\ is_4x4 (covariance track).

Definition counted (frame_count : Z) (track : TrackingState) : Prop :=
  (prediction_count track = frame_count - last_detection_frame track)%Z /\
  (0 <= prediction_count track <= age track)%Z.

Definition good_entry (frame_count : Z) (kv : Z * TrackingState) : Prop :=
  shaped (snd kv) /\ counted frame_count (snd kv).

(** The boolean form of [is_4x4]. *)
Definition check_4x4 (m : Matrix) : bool :=
  (List.length m =? 4)%nat &&
  forallb (fun row => (List.length row =? 4)%nat) m.

(** The state vector after [n] prediction steps. *)
Fixpoint predict_state (n : nat) (st : list Q) : list Q :=
  match n with
  | O => st
  | S n' => predict_state n' (mat_vec F st)
  end.

End TrackerQueries.

(** ** segment_builder.py: merging and statistics of finished segments *)

Module SegmentTools.
Import Config SegmentBuilder.

(** One iteration of the loop of [merge_overlapping_segments]; [merged]
    is kept with its last element first. *)
Definition overlap_step (merged : list TimeRange) (current : TimeRange)
  : list TimeRange :=
  match merged with
  | last :: merged' =>
      if Py.leb (tr_start current) (tr_end last)
      then mkTimeRange (tr_start last) (Py.max (tr_end last) (tr_end current))
           :: merged'
      else current :: merged
  | [] => [current]
  end.

Definition merge_overlapping_segments (segments : list TimeRange)
  : list TimeRange :=
  match Py.sorted tr_start segments with
  | [] => []
  | first :: rest => rev (fold_left overlap_step rest [first])
  end.

(** [calculate_export_statistics]: the exported time and the share of
    the video it covers, in percent. *)
Definition export_duration (segments : list TimeRange) : Q :=
  Py.sum (map duration segments).

Definition coverage_percentage (segments : list TimeRange)
  (total_video_duration : Q) : Q :=
  match segments with
  | [] => 0
  | _ => if Py.ltb 0 total_video_duration
         then export_duration segments / total_video_duration * 100
         else 0
  end.

(** A range that does not end before it starts. *)
Definition valid (r : TimeRange) : Prop := tr_start r <= tr_end r.

(** [a] lies inside [b]. *)
Definition inside (a b : TimeRange) : Prop :=
  tr_start b <= tr_start a /\ tr_end a <= tr_end b.

(** A stored range cut to the video, as the first loop of [finalize]
    cuts it. *)
Definition clamp (video_duration : Q) (r : TimeRange) : TimeRange :=
  mkTimeRange (Py.max 0 (tr_start r)) (Py.min video_duration (tr_end r)).

End SegmentTools.

(** ** rally_decider.py: runs of the decider *)

Module RallyRuns.
Import Config RallyDecider.

(** The dictionary of [get_current_rally_info]. *)
Record RallyInfo : Type := mkRallyInfo {
  info_start_time : Q;
  info_duration : Q;
  info_estimated_contacts : Z;
  info_max_confidence : Q;
  info_avg_confidence : Q
}.

Definition get_current_rally_info (d : t) : option RallyInfo :=
  if negb (state_eqb (current_state d) ACTIVE) then None else
  Some {| info_start_time := current_rally_start d;
          info_duration := state_start_time d - current_rally_start d;
          info_estimated_contacts := estimated_contacts d;
          info_max_confidence := current_rally_max_confidence d;
          info_avg_confidence :=
            if (0 <? current_rally_confidence_count d)%Z
            then current_rally_confidence_sum d
                 / inject_Z (current_rally_confidence_count d)
            else 0 |}.

(** While a decider is ACTIVE, the state started when the rally did, and
    the rally has counted a frame. *)
Definition started (d : t) : Prop :=
  current_state d = ACTIVE ->
  state_start_time d = current_rally_start d /\
  (0 < current_rally_confidence_count d)%Z.

(** The two bookkeeping steps that [update] runs before the state
    machine. *)
Definition tracked (cfg : ProcessorConfig) (c : RallyContext) (d : t) : t :=
  _update_velocity_tracking cfg c (_update_confidence_history c d).

(** The deciders that a client can hold. *)
Inductive reachable (cfg : ProcessorConfig) : t -> Prop :=
| reach_init : reachable cfg init
| reach_update d c : reachable cfg d -> reachable cfg (update cfg c d)
| reach_reset d : reachable cfg d -> reachable cfg (reset d).

(** The arrows of the state diagram, a state to itself included. *)
Definition allowed (a b : RallyState) : bool :=
  match a, b with
  | IDLE, IDLE | IDLE, POTENTIAL
  | POTENTIAL, POTENTIAL | POTENTIAL, ACTIVE | POTENTIAL, IDLE
  | ACTIVE, ACTIVE | ACTIVE, ENDING
  | ENDING, ENDING | ENDING, ACTIVE | ENDING, IDLE => true
  | _, _ => false
  end.

(** The state that a log of events leads to from [s], when every event
    starts where the previous one ended and changes the state. *)
Fixpoint replay (s : RallyState) (events : list RallyEvent)
  : option RallyState :=
  match events with
  | [] => Some s
  | e :: es =>
      if state_eqb (ev_old_state e) s && negb (state_eqb (ev_new_state e) s)
         && allowed s (ev_new_state e)
      then replay (ev_new_state e) es
      else None
  end.

(** What holds of every recorded rally. *)
Definition rally_ok (cfg : ProcessorConfig) (r : RallyPeriod) : Prop :=
  rp_duration r = end_time r - start_time r /\
  min_rally_duration cfg <= rp_duration r /\
  0 <= avg_confidence r <= max_confidence r /\
  max_confidence r <= 1 /\
  (0 <= rp_estimated_contacts r)%Z.

(** The same with the range of the quality score. *)
Definition recorded_ok (cfg : ProcessorConfig) (r : RallyPeriod) : Prop :=
  rally_ok cfg r /\
  (0 <= min_rally_duration cfg -> 0 <= quality_score r <= 1).

(** What holds of the running tallies of the current rally. *)
Definition tallies_ok (d : t) : Prop :=
  (0 <= current_rally_confidence_count d)%Z /\
  0 <= current_rally_confidence_sum d /\
  current_rally_confidence_sum d
    <= inject_Z (current_rally_confidence_count d)
       * current_rally_max_confidence d /\
  0 <= current_rally_max_confidence d <= 1 /\
  (0 <= estimated_contacts d)%Z.

End RallyRuns.

(** ** advanced_processor.py: the context handed to the decider *)

Module Pipeline.
Import Config RallyDecider.

Section Numerics.

(** [np.sqrt], a parameter as in the ballistics gate. *)
Variable sqrt : Q -> Q.

(** [_build_rally_context]: the velocity is read from entries 2 and 3 of
    the best track's state. *)
Definition _build_rally_context (timestamp : Q)
  (detections : list KalmanBallTracker.Detection)
  (tracking_states : list KalmanBallTracker.TrackingState)
  (physics_validation : option BallisticsGate.PhysicsValidation)
  : Py.result RallyContext :=
  let detection_conf :=
    match map snd detections with
    | [] => 0
    | c :: cs => fold_left Py.max cs c
    end in
  tv <- match tracking_states with
        | [] => Py.Ok (0, 0)
        | tr :: rest =>
            let best_track :=
              TrackerQueries.max_by KalmanBallTracker.confidence tr rest in
            vx <- TrackerQueries.state_at best_track 2 ;;
            vy <- TrackerQueries.state_at best_track 3 ;;
            Py.Ok (KalmanBallTracker.confidence best_track,
                   sqrt (vx * vx + vy * vy))
        end ;;
  let time_since_last := match detections with [] => 0.5 | _ => 0 end in
  Py.Ok {| current_time := timestamp;
           detection_confidence := detection_conf;
           tracking_confidence := fst tv;
           physics_validation := physics_validation;
           velocity_magnitude := snd tv;
           time_since_last_detection := time_since_last;
           consecutive_detections := Z.of_nat (List.length detections) |}.

(** The contexts that [_process_frame] hands to the decider. *)
Definition built (c : RallyContext) : Prop :=
  exists timestamp detections tracking_states physics_validation,
    _build_rally_context timestamp detections tracking_states
      physics_validation = Py.Ok c.

End Numerics.

End Pipeline.

(** ** segment_builder.py: segments from recorded rallies *)

Module RallySegments.
Import Config SegmentBuilder.

Definition append_rally_period (cfg : ProcessorConfig)
  (rally : RallyDecider.RallyPeriod) (sb : t) : t :=
  append_raw cfg (RallyDecider.start_time rally) (RallyDecider.end_time rally)
    sb.

(** [create_segments_from_rallies(rallies)]: the builder after the call
    and the list it returns. *)
Definition create_segments_from_rallies (cfg : ProcessorConfig)
  (rallies : list RallyDecider.RallyPeriod) (sb : t) : t * list TimeRange :=
  let sb1 :=
    fold_left
      (fun b rally =>
         if Py.leb (segment_quality_threshold cfg)
                   (RallyDecider.quality_score rally)
         then append_rally_period cfg rally b else b)
      rallies (reset sb) in
  let video_duration :=
    match map RallyDecider.end_time rallies with
    | [] => 60
    | e :: es => fold_left Py.max es e + 10
    end in
  finalize cfg video_duration sb1.

(** The rallies of the self-test of [segment_builder.py]. *)
Definition mock_rallies : list RallyDecider.RallyPeriod :=
  [RallyDecider.mkPeriod 3 7 4 0.9 0.8 5 0.85;
   RallyDecider.mkPeriod 15 19 4 0.7 0.6 3 0.65;
   RallyDecider.mkPeriod 25 29 4 0.95 0.9 8 0.9].

End RallySegments.

(** ** Concrete inputs used by the examples of Part II *)

Module Scenarios.
Import Config.

Module Segments.
Import SegmentBuilder.

(** The self-test of [segment_builder.py]: three rallies observed at
    2-8 s, 15-20.5 s and 25-30 s in a 35 s video, default configuration. *)
Definition selftest_observations : list call :=
  [Observe false 0; Observe true 2; Observe true 5; Observe false 8;
   Observe false 10; Observe true 15; Observe true 18; Observe false 20.5;
   Observe true 25; Observe false 30].

(** A configuration that [validate] accepts and whose merge threshold is
    negative: the merge test [gap <= max_segment_gap] then never holds,
    because [_gap_between] is never negative. *)
Definition negative_gap_config : ProcessorConfig :=
  set_max_segment_gap (-1) default.

End Segments.

Module Rally.
Import RallyDecider.

(** A frame context without physics validation. *)
Definition ctx (time det trk vel gap : Q) : RallyContext :=
  {| current_time := time; detection_confidence := det;
     tracking_confidence := trk; physics_validation := None;
     velocity_magnitude := vel; time_since_last_detection := gap;
     consecutive_detections := 0 |}.

(** A first video: two frames at 100 s and 101 s whose velocity jumps
    from 20 to 50, so that a contact is counted at 101 s. *)
Definition first_video : list RallyContext :=
  [ctx 100 1 1 20 0; ctx 101 1 1 50 0].

(** A second video: confident detections at 0 s, 1 s and 2 s, a velocity
    jump at 2 s, and the ball lost at 3 s. *)
Definition second_video : list RallyContext :=
  [ctx 0 1 1 20 0; ctx 1 1 1 20 0; ctx 2 1 1 50 0; ctx 3 0 0 0 2].

(** The default configuration with a cooldown of 2 s, longer than its
    maximum gap of 1 s. *)
Definition long_cooldown_config : ProcessorConfig :=
  set_rally_cooldown_period 2 default.

(** The confidence sequence of the hysteresis property, one frame per
    second up to 6 s and a last frame at 7.5 s; the detection gap is 0
    up to the 0.25 sample, 1.5 s at the 0.1 sample and 3 s at the end. *)
Definition hysteresis_frames : list (Q * RallyContext) :=
  [(0, ctx 0 0 0 0 0); (0.5, ctx 1 0 0 0 0); (0.8, ctx 2 0 0 0 0);
   (0.9, ctx 3 0 0 0 0); (0.85, ctx 4 0 0 0 0); (0.25, ctx 5 0 0 0 0);
   (0.1, ctx 6 0 0 0 1.5); (0, ctx 7.5 0 0 0 3)].

End Rally.

Module Physics.
Import BallisticsGate.

(** Five samples of the arc used by the self-test of [ballistics_gate.py]:
    [x = 100 + 50 t], [y = 200 + 30 t - 5 t^2] at [t = 0, 0.1, ..., 0.4]. *)
Definition arc_point (t : Q) : TrajectoryPoint :=
  {| px := 100 + 50 * t; py := 200 + 30 * t - 5 * (t * t);
     ptime := t; pconfidence := 0.8 |}.

Definition arc : list TrajectoryPoint :=
  map arc_point [0; 0.1; 0.2; 0.3; 0.4].

End Physics.

Module Tracking.
Import KalmanBallTracker.

(** The tracker after a run of calls on a new tracker, and the lists the
    calls returned (a new tracker and no list if a call raises). *)
Definition after (calls : list (list Detection)) : t :=
  match run default calls init with
  | Py.Ok (k, _) => k
  | Py.Raise _ => init
  end.

Definition returned (calls : list (list Detection))
  : list (list TrackingState) :=
  match run default calls init with
  | Py.Ok (_, outs) => outs
  | Py.Raise _ => []
  end.

(** One ball seen at (100, 200), then at (110, 210). *)
Definition first_frame : list Detection := [(100, 200, 0.8)].
Definition second_frame : list Detection := [(110, 210, 0.9)].

(** The frames of the self-test of [kalman_ball_tracker.py]. *)
Definition selftest_frames : list (list Detection) :=
  [[(100, 200, 0.8); (150, 250, 0.7)];
   [(105, 205, 0.9)];
   [(110, 210, 0.8); (200, 300, 0.6)];
   [(115, 215, 0.7)];
   []].

(** Four frames with two balls, a weak detection and a late third ball. *)
Definition four_frames : list (list Detection) :=
  [[(100, 200, 0.8); (150, 250, 0.7)];
   [(105, 205, 0.9); (400, 400, 0.05)];
   [(110, 210, 0.8); (200, 300, 0.6)];
   [(600, 50, 0.7)]].

(** Detections whose confidences lie outside [[0, 1]]. *)
Definition wild_confidences : list (list Detection) :=
  [[(100, 200, 5)]; [(100, 200, 7); (900, 900, 9); (300, 300, -3)]].




End Tracking.

End Scenarios.

(* ===================================================================== *)
(** * Part II.  Properties                                                *)
(* ===================================================================== *)

Module PyFacts.

Lemma ltb_lt a b : Py.ltb a b = true <-> a < b.
Proof.
  unfold Py.ltb. rewrite negb_true_iff.
  destruct (Qle_bool b a) eqn:E.
  - apply Qle_bool_iff in E. split; [discriminate | intro; lra].
  - split; [intros _ | reflexivity].
    apply Qnot_le_lt. intro H. apply Qle_bool_iff in H. congruence.
Qed.

Lemma ltb_ge a b : Py.ltb a b = false <-> b <= a.
Proof.
  unfold Py.ltb. rewrite negb_false_iff. apply Qle_bool_iff.
Qed.

Lemma leb_le a b : Py.leb a b = true <-> a <= b.
Proof. apply Qle_bool_iff. Qed.

Lemma leb_gt a b : Py.leb a b = false <-> b < a.
Proof.
  unfold Py.leb. destruct (Qle_bool a b) eqn:E.
  - apply Qle_bool_iff in E. split; [discriminate | intro; lra].
  - split; [intros _ | reflexivity].
    apply Qnot_le_lt. intro H. apply Qle_bool_iff in H. congruence.
Qed.

Lemma max_cases a b :
  (a < b /\ Py.max a b = b) \/ (b <= a /\ Py.max a b = a).
Proof.
  unfold Py.max. destruct (Py.ltb a b) eqn:E.
  - left. split; [now apply ltb_lt | reflexivity].
  - right. split; [now apply ltb_ge | reflexivity].
Qed.

Lemma min_cases a b :
  (b < a /\ Py.min a b = b) \/ (a <= b /\ Py.min a b = a).
Proof.
  unfold Py.min. destruct (Py.ltb b a) eqn:E.
  - left. split; [now apply ltb_lt | reflexivity].
  - right. split; [now apply ltb_ge | reflexivity].
Qed.

End PyFacts.

(** ** Generic facts on sorted lists *)

Module ListFacts.

Lemma StronglySorted_app {A} (R : A -> A -> Prop) (l1 l2 : list A) :
  StronglySorted R l1 -> StronglySorted R l2 ->
  (forall a b, In a l1 -> In b l2 -> R a b) ->
  StronglySorted R (l1 ++ l2).
Proof.
  induction l1 as [|x l1 IH]; intros H1 H2 H12; simpl; [assumption|].
  inversion H1 as [|? ? Hs Hf]; subst.
  constructor.
  - apply IH; auto. intros a b Ha Hb. apply H12; simpl; auto.
  - apply Forall_app. split; [assumption|].
    apply Forall_forall. intros b Hb. apply H12; simpl; auto.
Qed.

Lemma StronglySorted_rev {A} (R : A -> A -> Prop) (l : list A) :
  StronglySorted (fun a b => R b a) l -> StronglySorted R (rev l).
Proof.
  induction 1 as [|x l Hs IH Hf]; simpl; [constructor|].
  apply StronglySorted_app; auto.
  - repeat constructor.
  - intros a b Ha [<-|[]]. apply in_rev in Ha.
    rewrite Forall_forall in Hf. auto.
Qed.

Lemma StronglySorted_filter {A} (R : A -> A -> Prop) (f : A -> bool) l :
  StronglySorted R l -> StronglySorted R (filter f l).
Proof.
  induction 1 as [|x l Hs IH Hf]; simpl; [constructor|].
  destruct (f x); [|assumption].
  constructor; [assumption|].
  rewrite Forall_forall in *. intros y Hy.
  apply filter_In in Hy. apply Hf, Hy.
Qed.

Lemma StronglySorted_impl {A} (R S : A -> A -> Prop) (P : A -> Prop) l :
  (forall a b, P a -> P b -> R a b -> S a b) ->
  Forall P l -> StronglySorted R l -> StronglySorted S l.
Proof.
  intros HRS HP. induction 1 as [|x l Hs IH Hf]; [constructor|].
  inversion HP as [|? ? Hx Hl]; subst.
  constructor; [auto|].
  rewrite Forall_forall in *. intros y Hy. apply HRS; auto.
Qed.

Lemma StronglySorted_ForallOrdPairs {A} (R : A -> A -> Prop) l :
  StronglySorted R l -> ForallOrdPairs R l.
Proof.
  induction 1 as [|x l Hs IH Hf]; constructor; assumption.
Qed.

End ListFacts.

(** ** segment_builder.py: the finalize pipeline *)

Module SegmentBuilderSpec.
Import Config SegmentBuilder PyFacts ListFacts Scenarios.Segments.

Lemma clamp_ranges_clamped vd rs : Forall (clamped vd) (clamp_ranges vd rs).
Proof.
  induction rs as [|r rs IH]; simpl; [constructor|].
  destruct (Py.ltb _ _) eqn:E; [|assumption].
  constructor; [|assumption].
  apply ltb_lt in E. unfold clamped; simpl.
  destruct (max_cases 0 (tr_start r)) as [[? Hx]|[? Hx]];
    destruct (min_cases vd (tr_end r)) as [[? Hm]|[? Hm]];
    rewrite Hx, Hm in *; repeat split; lra.
Qed.

Lemma insert_by_Forall {A} (P : A -> Prop) key x l :
  P x -> Forall P l -> Forall P (Py.insert_by key x l).
Proof.
  intros Hx. induction 1 as [|y l Hy Hl IH]; simpl.
  - repeat constructor; assumption.
  - destruct (Py.ltb _ _); repeat constructor; assumption.
Qed.

Lemma sorted_Forall {A} (P : A -> Prop) key l :
  Forall P l -> Forall P (Py.sorted key l).
Proof.
  unfold Py.sorted. intros H.
  assert (G : forall acc, Forall P acc ->
            Forall P (fold_left (fun acc x => Py.insert_by key x acc) l acc)).
  { induction H as [|x l Hx Hl IH]; intros acc Hacc; simpl; [assumption|].
    apply IH. now apply insert_by_Forall. }
  apply G. constructor.
Qed.

Lemma merge_step_inv cfg vd acc r :
  0 <= max_segment_gap cfg ->
  clamped vd r ->
  Forall (clamped vd) acc ->
  Sorted (fun above below => separated below above) acc ->
  Forall (clamped vd) (merge_step cfg acc r) /\
  Sorted (fun above below => separated below above) (merge_step cfg acc r).
Proof.
  intros Hgap Hr Hacc Hs.
  destruct acc as [|lst acc']; simpl.
  - split; [constructor; [assumption | constructor] | repeat constructor].
  - inversion Hacc as [|? ? Hlst Hacc']; subst.
    inversion Hs as [|? ? Hs' Hhd]; subst.
    destruct (Py.leb _ _) eqn:E.
    + unfold clamped in *. split.
      * constructor; [|assumption]. simpl.
        destruct (max_cases (tr_end lst) (tr_end r)) as [[? ->]|[? ->]];
          repeat split; lra.
      * constructor; [assumption|].
        inversion Hhd; subst; constructor. unfold separated in *.
        simpl. assumption.
    + apply leb_gt in E. unfold _gap_between in E.
      split; [constructor; assumption|].
      constructor; [assumption|]. constructor. unfold separated.
      destruct (max_cases 0 (tr_start r - tr_end lst)) as [[? Hm]|[? Hm]];
        rewrite Hm in E; lra.
Qed.

Lemma merge_fold_inv cfg vd rs : forall acc,
  0 <= max_segment_gap cfg ->
  Forall (clamped vd) rs ->
  Forall (clamped vd) acc ->
  Sorted (fun above below => separated below above) acc ->
  Forall (clamped vd) (fold_left (merge_step cfg) rs acc) /\
  Sorted (fun above below => separated below above)
         (fold_left (merge_step cfg) rs acc).
Proof.
  induction rs as [|r rs IH]; intros acc Hgap Hrs Hacc Hs; simpl.
  - split; assumption.
  - inversion Hrs as [|? ? Hr Hrs']; subst.
    destruct (@merge_step_inv cfg vd acc r) as [Hf' Hs']; auto.
Qed.

Lemma merge_ranges_chain cfg vd rs :
  0 <= max_segment_gap cfg ->
  Forall (clamped vd) rs ->
  Forall (clamped vd) (merge_ranges cfg rs) /\
  StronglySorted strictly_before (merge_ranges cfg rs).
Proof.
  intros Hgap Hrs. unfold merge_ranges.
  destruct (@merge_fold_inv cfg vd rs [] Hgap Hrs) as [Hf Hs];
    [constructor | constructor |].
  split; [now apply Forall_rev|].
  apply StronglySorted_rev.
  set (acc := fold_left (merge_step cfg) rs []) in *. clearbody acc.
  assert (Hs' : Sorted (fun above below => strictly_before below above) acc).
  { clear Hrs. induction Hs as [|x l Hs IH Hhd]; [constructor|].
    inversion Hf as [|? ? Hx Hl]; subst.
    constructor; [auto|].
    destruct Hhd as [|y l' Hxy]; constructor.
    inversion Hl as [|? ? Hy _]; subst.
    unfold strictly_before, separated, clamped in *. lra. }
  apply Sorted_StronglySorted; [|assumption].
  intros a b c Hab Hbc. unfold strictly_before in *. lra.
Qed.

Lemma finalize_invariants cfg vd sb :
  0 <= max_segment_gap cfg ->
  let out := snd (finalize cfg vd sb) in
  sorted_by_start out /\ non_overlapping out /\
  Forall (within vd) out /\
  Forall (fun r => min_segment_duration cfg <= duration r) out.
Proof.
  intros Hgap. unfold finalize. cbv zeta. cbn [snd].
  set (rs := ranges _).
  destruct (@merge_ranges_chain cfg vd
              (Py.sorted tr_start (clamp_ranges vd rs)) Hgap) as [Hf Hs].
  { apply sorted_Forall, clamp_ranges_clamped. }
  set (m := merge_ranges cfg _) in *. clearbody m.
  set (keep := fun r => Py.leb (min_segment_duration cfg) (duration r)).
  assert (Hs' : StronglySorted strictly_before (filter keep m))
    by now apply StronglySorted_filter.
  assert (Hf' : Forall (clamped vd) (filter keep m)).
  { rewrite Forall_forall in *. intros r Hr.
    apply filter_In in Hr. apply Hf, Hr. }
  repeat split.
  - eapply StronglySorted_impl with (P := fun _ => True); eauto.
    + intros a b _ _ H. unfold strictly_before in H. lra.
    + apply Forall_forall. auto.
  - apply StronglySorted_ForallOrdPairs.
    eapply StronglySorted_impl with (P := fun _ => True); eauto.
    + intros a b _ _ H [H1 H2]. unfold strictly_before in H. lra.
    + apply Forall_forall. auto.
  - eapply Forall_impl; [|exact Hf'].
    intros r Hr. unfold clamped, within in *. lra.
  - apply Forall_forall. intros r Hr. apply filter_In in Hr.
    destruct Hr as [_ Hk]. unfold keep in Hk. now apply leb_le in Hk.
Qed.

(** C5 (as amended).  When the configured [max_segment_gap] is not
    negative, then after every sequence of observe/append calls and for
    every [video_duration] the list returned by [finalize] is sorted by
    start time, pairwise non-overlapping, contained in
    [[0, video_duration]], and every range lasts at least
    [min_segment_duration]. *)
Theorem finalize_ranges_wellformed cfg calls vd :
  0 <= max_segment_gap cfg ->
  let out := snd (finalize cfg vd (run cfg calls init)) in
  sorted_by_start out /\ non_overlapping out /\
  Forall (within vd) out /\
  Forall (fun r => min_segment_duration cfg <= duration r) out.
Proof.
  intros Hgap. now apply finalize_invariants.
Qed.

Lemma finalize_ranges_wellformed_witness :
  0 <= max_segment_gap default /\
  let out := snd (finalize default 35 (run default selftest_observations init)) in
  sorted_by_start out /\ non_overlapping out /\
  Forall (within 35) out /\
  Forall (fun r => min_segment_duration default <= duration r) out.
Proof.
  split.
  - simpl. lra.
  - apply (@finalize_ranges_wellformed default selftest_observations 35).
    simpl. lra.
Defined.

(** C5 as stated fails: with [max_segment_gap = -1] the two appended
    ranges 0-5 s and 1-6 s are both returned, and they overlap. *)
Lemma finalize_overlap_with_negative_gap :
  validate negative_gap_config = true /\
  snd (finalize negative_gap_config 10
         (run negative_gap_config [AppendPadded 0 5; AppendPadded 1 6] init))
  = [mkTimeRange 0 5; mkTimeRange 1 6] /\
  ~ non_overlapping
      (snd (finalize negative_gap_config 10
         (run negative_gap_config [AppendPadded 0 5; AppendPadded 1 6] init))).
Proof.
  split; [reflexivity|]. split; [reflexivity|].
  intros H. inversion H as [|a l Ha _]; subst.
  inversion Ha as [|b l' Hab _]; subst.
  apply Hab. unfold overlap. simpl. split; reflexivity.
Qed.

(** C6.  [finalize] is idempotent: a second call with the same
    [video_duration] and no call in between returns the same list of
    time ranges (and leaves the builder as the first call left it). *)
Theorem finalize_idempotent cfg vd sb :
  snd (finalize cfg vd (fst (finalize cfg vd sb))) = snd (finalize cfg vd sb)
  /\ fst (finalize cfg vd (fst (finalize cfg vd sb))) = fst (finalize cfg vd sb).
Proof.
  unfold finalize. cbv zeta. cbn [fst snd].
  destruct (current_start sb) as [s|] eqn:E; cbn [current_start ranges].
  - split; reflexivity.
  - rewrite E. split; reflexivity.
Qed.

End SegmentBuilderSpec.

(** ** ballistics_gate.py: the composite score *)

Module BallisticsGateSpec.
Import Config BallisticsGate.

Section Numerics.

Variable sqrt : Q -> Q.
Variable polyfit2 : list Q -> list Q -> option (Q * Q * Q).

Lemma velocity_loop_ok cfg ppm l : forall st,
  ~ ppm == 0 ->
  exists st', velocity_loop sqrt cfg ppm st l = Py.Ok st'.
Proof.
  induction l as [|[p0 p1] l IH]; intros st Hppm; simpl.
  - eauto.
  - destruct st as [[mv valid] total]. unfold velocity_step.
    destruct (Py.leb _ 0); simpl; [now apply IH|].
    destruct (Qeq_bool ppm 0) eqn:E.
    + apply Qeq_bool_iff in E. contradiction.
    + destruct (_ && _); simpl; now apply IH.
Qed.

Lemma velocity_constraints_ok cfg points ppm :
  ~ ppm == 0 ->
  exists v, _validate_velocity_constraints sqrt cfg points ppm = Py.Ok v.
Proof.
  intros Hppm. unfold _validate_velocity_constraints.
  destruct (_ <? 2)%nat; [eauto|].
  destruct (@velocity_loop_ok cfg ppm (pairs points) (0, 0%Z, 0%Z) Hppm)
    as [[[mv valid] total] ->].
  simpl. eauto.
Qed.

(** C2 (what the code does).  With enhanced physics enabled and at least
    [min_points_for_fit] points, [validate_trajectory] never returns a
    [PhysicsValidation]: once the component scores are computed, the
    composite score reads [config.trajectory_score_weight], an attribute
    that [ProcessorConfig] does not have, and the call raises
    [AttributeError] (or [ZeroDivisionError] before that, when
    [pixels_per_meter] is zero). *)
Theorem validate_trajectory_raises cfg points ppm :
  enable_enhanced_physics cfg = true ->
  (min_points_for_fit cfg <= Z.of_nat (List.length points))%Z ->
  (forall v, validate_trajectory sqrt polyfit2 cfg points ppm <> Py.Ok v) /\
  (~ ppm == 0 ->
   validate_trajectory sqrt polyfit2 cfg points ppm
   = Py.Raise (Py.AttributeError "trajectory_score_weight")).
Proof.
  intros Hen Hlen. unfold validate_trajectory.
  rewrite Hen. cbn [negb].
  assert (Hlt : (Z.of_nat (List.length points) <? min_points_for_fit cfg)%Z = false)
    by (apply Z.ltb_ge; assumption).
  rewrite Hlt. split.
  - intros v. destruct (_validate_velocity_constraints _ _ _ _); simpl;
      discriminate.
  - intros Hppm.
    destruct (@velocity_constraints_ok cfg points ppm Hppm) as [vs ->].
    reflexivity.
Qed.

End Numerics.

Lemma validate_trajectory_raises_witness :
  enable_enhanced_physics default = true /\
  (min_points_for_fit default <= Z.of_nat (List.length Scenarios.Physics.arc))%Z /\
  validate_trajectory (fun q => q) (fun _ _ => None) default
    Scenarios.Physics.arc 100
  = Py.Raise (Py.AttributeError "trajectory_score_weight").
Proof.
  split; [reflexivity|]. split; [vm_compute; discriminate|].
  apply (@validate_trajectory_raises (fun q => q) (fun _ _ => None)
           default Scenarios.Physics.arc 100).
  - reflexivity.
  - vm_compute; discriminate.
  - vm_compute; discriminate.
Defined.

End BallisticsGateSpec.

(** ** rally_decider.py: hysteresis and reset *)

Module RallyDeciderSpec.
Import Config RallyDecider PyFacts Scenarios.Rally.

Lemma decide_current_state cfg rc c d :
  current_state (decide cfg rc c d) = _determine_new_state cfg rc c d.
Proof.
  unfold decide. cbn [_update_rally_tracking current_state].
  destruct (state_eqb _ _) eqn:E; [|reflexivity].
  destruct (_determine_new_state cfg rc c d), (current_state d);
    simpl in E; congruence.
Qed.

Lemma decide_state_start_time cfg rc c d :
  _determine_new_state cfg rc c d <> current_state d ->
  state_start_time (decide cfg rc c d) = current_time c.
Proof.
  intros H. unfold decide. cbn [_update_rally_tracking state_start_time].
  destruct (state_eqb _ _) eqn:E; [|reflexivity].
  destruct (_determine_new_state cfg rc c d), (current_state d);
    simpl in E; congruence.
Qed.

Ltac py_true := first [apply ltb_lt | apply leb_le]; simpl; lra.
Ltac py_false := first [apply ltb_ge | apply leb_gt]; simpl; lra.

Lemma idle_stays cfg rc c d :
  current_state d = IDLE -> rc <= rally_end_threshold cfg ->
  _determine_new_state cfg rc c d = IDLE.
Proof.
  intros Hs H. unfold _determine_new_state. rewrite Hs.
  replace (Py.ltb _ _) with false; [reflexivity|]. symmetry. py_false.
Qed.

Lemma idle_to_potential cfg rc c d :
  current_state d = IDLE -> rally_end_threshold cfg < rc ->
  _determine_new_state cfg rc c d = POTENTIAL.
Proof.
  intros Hs H. unfold _determine_new_state. rewrite Hs.
  replace (Py.ltb _ _) with true; [reflexivity|]. symmetry. py_true.
Qed.

Lemma potential_to_active cfg rc c d :
  current_state d = POTENTIAL -> rally_start_threshold cfg <= rc ->
  _determine_new_state cfg rc c d = ACTIVE.
Proof.
  intros Hs H. unfold _determine_new_state. rewrite Hs.
  replace (Py.leb _ _) with true; [reflexivity|]. symmetry. py_true.
Qed.

Lemma active_stays cfg rc c d :
  current_state d = ACTIVE ->
  rally_end_threshold cfg < rc \/
  time_since_last_detection c <= max_gap_in_rally cfg ->
  _determine_new_state cfg rc c d = ACTIVE.
Proof.
  intros Hs H. unfold _determine_new_state. rewrite Hs.
  replace (_ && _) with false; [reflexivity|]. symmetry.
  apply andb_false_iff. destruct H; [left | right]; py_false.
Qed.

Lemma active_to_ending cfg rc c d :
  current_state d = ACTIVE ->
  rc <= rally_end_threshold cfg ->
  max_gap_in_rally cfg < time_since_last_detection c ->
  _determine_new_state cfg rc c d = ENDING.
Proof.
  intros Hs H1 H2. unfold _determine_new_state. rewrite Hs.
  replace (_ && _) with true; [reflexivity|]. symmetry.
  apply andb_true_iff. split; py_true.
Qed.

Lemma ending_to_idle cfg rc c d :
  current_state d = ENDING ->
  rc < rally_start_threshold cfg ->
  rally_cooldown_period cfg < current_time c - state_start_time d ->
  _determine_new_state cfg rc c d = IDLE.
Proof.
  intros Hs H1 H2. unfold _determine_new_state. rewrite Hs.
  replace (Py.leb _ _) with false by (symmetry; py_false).
  replace (Py.ltb _ _) with true; [reflexivity|]. symmetry. py_true.
Qed.

Lemma ending_stays cfg rc c d :
  current_state d = ENDING ->
  rc < rally_start_threshold cfg ->
  current_time c - state_start_time d <= rally_cooldown_period cfg ->
  _determine_new_state cfg rc c d = ENDING.
Proof.
  intros Hs H1 H2. unfold _determine_new_state. rewrite Hs.
  replace (Py.leb _ _) with false by (symmetry; py_false).
  replace (Py.ltb _ _) with false; [reflexivity|]. symmetry. py_false.
Qed.

(** C4 (as amended).  With [rally_start_threshold = 0.7] and
    [rally_end_threshold = 0.3], a decider in [IDLE] that is fed the rally
    confidences 0, 0.5, 0.8, 0.9, 0.85, 0.25, 0.1, 0 answers
    [IDLE, POTENTIAL, ACTIVE, ACTIVE, ACTIVE, ACTIVE, ENDING, IDLE],
    provided the detection gap is within [max_gap_in_rally] at the 0.25
    sample and beyond it at the 0.1 sample, and the last sample comes more
    than [rally_cooldown_period] after the 0.1 sample. *)
Theorem hysteresis_sequence cfg d c0 c1 c2 c3 c4 c5 c6 c7 :
  rally_start_threshold cfg == 0.7 ->
  rally_end_threshold cfg == 0.3 ->
  current_state d = IDLE ->
  time_since_last_detection c5 <= max_gap_in_rally cfg ->
  max_gap_in_rally cfg < time_since_last_detection c6 ->
  rally_cooldown_period cfg < current_time c7 - current_time c6 ->
  run_confidences cfg
    [(0, c0); (0.5, c1); (0.8, c2); (0.9, c3); (0.85, c4); (0.25, c5);
     (0.1, c6); (0, c7)] d
  = [IDLE; POTENTIAL; ACTIVE; ACTIVE; ACTIVE; ACTIVE; ENDING; IDLE].
Proof.
  intros Hstart Hend Hd Hgap5 Hgap6 Hcool.
  cbn [run_confidences].
  set (d0 := decide cfg 0 c0 d).
  set (d1 := decide cfg 0.5 c1 d0).
  set (d2 := decide cfg 0.8 c2 d1).
  set (d3 := decide cfg 0.9 c3 d2).
  set (d4 := decide cfg 0.85 c4 d3).
  set (d5 := decide cfg 0.25 c5 d4).
  set (d6 := decide cfg 0.1 c6 d5).
  set (d7 := decide cfg 0 c7 d6).
  assert (S0 : current_state d0 = IDLE).
  { unfold d0. rewrite decide_current_state. apply idle_stays; [assumption|lra]. }
  assert (S1 : current_state d1 = POTENTIAL).
  { unfold d1. rewrite decide_current_state.
    apply idle_to_potential; [assumption|lra]. }
  assert (S2 : current_state d2 = ACTIVE).
  { unfold d2. rewrite decide_current_state.
    apply potential_to_active; [assumption|lra]. }
  assert (S3 : current_state d3 = ACTIVE).
  { unfold d3. rewrite decide_current_state.
    apply active_stays; [assumption|left; lra]. }
  assert (S4 : current_state d4 = ACTIVE).
  { unfold d4. rewrite decide_current_state.
    apply active_stays; [assumption|left; lra]. }
  assert (S5 : current_state d5 = ACTIVE).
  { unfold d5. rewrite decide_current_state.
    apply active_stays; [assumption|right; assumption]. }
  assert (N6 : _determine_new_state cfg 0.1 c6 d5 = ENDING).
  { apply active_to_ending; [assumption|lra|assumption]. }
  assert (S6 : current_state d6 = ENDING).
  { unfold d6. rewrite decide_current_state. exact N6. }
  assert (T6 : state_start_time d6 = current_time c6).
  { unfold d6. apply decide_state_start_time. rewrite N6, S5. discriminate. }
  assert (S7 : current_state d7 = IDLE).
  { unfold d7. rewrite decide_current_state.
    apply ending_to_idle; [assumption|lra|]. rewrite T6. assumption. }
  rewrite S0, S1, S2, S3, S4, S5, S6, S7. reflexivity.
Qed.

Lemma hysteresis_sequence_witness :
  run_confidences default hysteresis_frames init
  = [IDLE; POTENTIAL; ACTIVE; ACTIVE; ACTIVE; ACTIVE; ENDING; IDLE].
Proof.
  apply (@hysteresis_sequence default init
           (ctx 0 0 0 0 0) (ctx 1 0 0 0 0) (ctx 2 0 0 0 0) (ctx 3 0 0 0 0)
           (ctx 4 0 0 0 0) (ctx 5 0 0 0 0) (ctx 6 0 0 0 1.5) (ctx 7.5 0 0 0 3)).
  - reflexivity.
  - reflexivity.
  - reflexivity.
  - simpl. lra.
  - simpl. lra.
  - simpl. lra.
Defined.

(** C4 as stated fails: when the cooldown (2 s) is longer than the
    maximum gap (1 s), a final sample held 1.5 s - past the maximum gap -
    still finds the decider in [ENDING]. *)
Lemma hysteresis_sequence_long_cooldown :
  rally_start_threshold long_cooldown_config == 0.7 /\
  rally_end_threshold long_cooldown_config == 0.3 /\
  max_gap_in_rally long_cooldown_config < 7.5 - 6 /\
  run_confidences long_cooldown_config hysteresis_frames init
  = [IDLE; POTENTIAL; ACTIVE; ACTIVE; ACTIVE; ACTIVE; ENDING; ENDING] /\
  run_confidences long_cooldown_config hysteresis_frames init
  <> [IDLE; POTENTIAL; ACTIVE; ACTIVE; ACTIVE; ACTIVE; ENDING; IDLE].
Proof.
  split; [reflexivity|]. split; [reflexivity|]. split; [reflexivity|].
  split; [reflexivity|]. vm_compute. discriminate.
Qed.

(** C3 (what the code does).  [RallyDecider.reset] leaves
    [last_velocity_magnitude], [velocity_history] and [last_contact_time]
    (among others) untouched.  A decider that is reset after a first video
    answers the same states on the second video as a new decider, but the
    rally it records has 0 estimated contacts and quality 19/50, where the
    new decider records 2 contacts and quality 11/25: the contact time
    101 s of the first video suppresses the contacts at 2 s and 3 s. *)
Theorem reset_decider_differs_from_fresh :
  let reused := run default second_video
                  (reset (fst (run default first_video init))) in
  let fresh := run default second_video init in
  snd reused = snd fresh /\
  map rp_estimated_contacts (completed_rallies (fst fresh)) = [2%Z] /\
  map rp_estimated_contacts (completed_rallies (fst reused)) = [0%Z] /\
  map (fun r => Qred (quality_score r)) (completed_rallies (fst fresh))
    = [11 # 25] /\
  map (fun r => Qred (quality_score r)) (completed_rallies (fst reused))
    = [19 # 50] /\
  reset (fst (run default first_video init)) <> init.
Proof.
  cbv zeta. do 5 (split; [vm_compute; reflexivity|]).
  intros H. apply (f_equal last_contact_time) in H.
  vm_compute in H. discriminate.
Qed.

End RallyDeciderSpec.

(** ** Dictionaries in insertion order *)

Module DictFacts.

Lemma dict_mem_In {V} (k : Z) (d : list (Z * V)) :
  Py.dict_mem Z.eqb k d = true <-> In k (map fst d).
Proof.
  unfold Py.dict_mem. rewrite existsb_exists. split.
  - intros [[k' v] [Hin Heq]]. simpl in Heq. apply Z.eqb_eq in Heq. subst.
    apply in_map_iff. exists (k', v). auto.
  - intros Hin. apply in_map_iff in Hin. destruct Hin as [[k' v] [Hk Hin]].
    simpl in Hk. subst. exists (k, v). split; [assumption|].
    simpl. apply Z.eqb_refl.
Qed.

Lemma dict_mem_notin {V} (k : Z) (d : list (Z * V)) :
  Py.dict_mem Z.eqb k d = false <-> ~ In k (map fst d).
Proof.
  rewrite <- dict_mem_In. destruct (Py.dict_mem Z.eqb k d); split;
    congruence.
Qed.

Lemma dict_set_fresh {V} (k : Z) (v : V) (d : list (Z * V)) :
  ~ In k (map fst d) -> Py.dict_set Z.eqb k v d = d ++ [(k, v)].
Proof.
  induction d as [|[k' v'] d IH]; simpl; intros Hn; [reflexivity|].
  destruct (Z.eqb_spec k k') as [->|Hne].
  - exfalso. apply Hn. now left.
  - rewrite IH; [reflexivity|]. intros Hin. apply Hn. now right.
Qed.

Lemma dict_set_keys_present {V} (k : Z) (v : V) (d : list (Z * V)) :
  In k (map fst d) -> map fst (Py.dict_set Z.eqb k v d) = map fst d.
Proof.
  induction d as [|[k' v'] d IH]; simpl; intros Hin; [contradiction|].
  destruct (Z.eqb_spec k k') as [->|Hne]; simpl; [reflexivity|].
  f_equal. apply IH. destruct Hin as [Heq|Hin]; [congruence|assumption].
Qed.

Lemma dict_set_In {V} (k : Z) (v : V) (d : list (Z * V)) (x : Z * V) :
  In x (Py.dict_set Z.eqb k v d) -> x = (k, v) \/ In x d.
Proof.
  induction d as [|[k' v'] d IH]; simpl.
  - intros [<-|[]]. now left.
  - destruct (Z.eqb_spec k k') as [->|Hne]; simpl.
    + intros [<-|Hin]; auto.
    + intros [<-|Hin]; auto. destruct (IH Hin); auto.
Qed.

Lemma dict_set_Forall {V} (P : Z * V -> Prop) k v (d : list (Z * V)) :
  P (k, v) -> Forall P d -> Forall P (Py.dict_set Z.eqb k v d).
Proof.
  intros Hk Hd. apply Forall_forall. intros x Hx.
  destruct (dict_set_In _ _ _ _ Hx) as [->|Hin]; [assumption|].
  rewrite Forall_forall in Hd. auto.
Qed.

Lemma dict_get_In {V} (k : Z) (d : list (Z * V)) v :
  Py.dict_get Z.eqb k d = Some v -> In (k, v) d.
Proof.
  induction d as [|[k' v'] d IH]; simpl; [discriminate|].
  destruct (Z.eqb_spec k k') as [->|Hne].
  - intros [= ->]. now left.
  - intros H. right. auto.
Qed.

Lemma mem_nat_In i l : KalmanBallTracker.mem_nat i l = true <-> In i l.
Proof.
  unfold KalmanBallTracker.mem_nat. rewrite existsb_exists. split.
  - intros [j [Hin Heq]]. apply Nat.eqb_eq in Heq. now subst.
  - intros Hin. exists i. split; [assumption | apply Nat.eqb_refl].
Qed.

Lemma mem_nat_notin i l : KalmanBallTracker.mem_nat i l = false <-> ~ In i l.
Proof.
  rewrite <- mem_nat_In. destruct (KalmanBallTracker.mem_nat i l); split;
    congruence.
Qed.

Lemma insert_by_In {A} (key : A -> Q) x y (l : list A) :
  In y (Py.insert_by key x l) -> y = x \/ In y l.
Proof.
  induction l as [|z l IH]; simpl.
  - intros [<-|[]]. now left.
  - destruct (Py.ltb _ _); simpl.
    + intros [<-|[<-|Hin]]; auto.
    + intros [<-|Hin]; auto. destruct (IH Hin); auto.
Qed.

Lemma sorted_In {A} (key : A -> Q) y (l : list A) :
  In y (Py.sorted key l) -> In y l.
Proof.
  unfold Py.sorted.
  assert (G : forall acc,
            In y (fold_left (fun acc x => Py.insert_by key x acc) l acc) ->
            In y acc \/ In y l).
  { induction l as [|x l IH]; intros acc; simpl; [auto|].
    intros Hin. destruct (IH _ Hin) as [Hacc|Hl]; [|auto].
    destruct (insert_by_In _ _ _ _ Hacc) as [->|Hacc']; auto. }
  intros Hin. destruct (G [] Hin) as [[]|Hl]. assumption.
Qed.

Lemma enumerate_index {A} (l : list A) i x :
  In (i, x) (Py.enumerate l) -> nth_error l i = Some x.
Proof.
  unfold Py.enumerate.
  assert (G : forall n, In (i, x) (combine (seq n (List.length l)) l) ->
                        (n <= i)%nat /\ nth_error l (i - n) = Some x).
  { induction l as [|a l IH]; intros n; simpl; [contradiction|].
    intros [Heq|Hin].
    - inversion Heq; subst. rewrite Nat.sub_diag. auto.
    - destruct (IH _ Hin) as [Hle Hnth]. split; [lia|].
      replace (i - n)%nat with (S (i - S n)) by lia. assumption. }
  intros Hin. destruct (G 0%nat Hin) as [_ Hnth].
  now rewrite Nat.sub_0_r in Hnth.
Qed.

End DictFacts.

(** ** kalman_ball_tracker.py: association *)

Module AssociationSpec.
Import Config KalmanBallTracker DictFacts.

(** The greedy loop keeps the track identifiers and the detection indices
    of the associations free of repetitions. *)
Lemma greedy_one_to_one pairs : forall associations used,
  NoDup (map fst associations) -> NoDup (map snd associations) ->
  (forall i, In i (map snd associations) -> In i used) ->
  NoDup (map fst (greedy pairs associations used)) /\
  NoDup (map snd (greedy pairs associations used)).
Proof.
  induction pairs as [|[[id i] r] pairs IH]; intros assoc used Hk Hv Hu;
    simpl; [auto|].
  destruct (Py.dict_mem Z.eqb id assoc) eqn:Em; simpl; [now apply IH|].
  destruct (mem_nat i used) eqn:Eu; simpl; [now apply IH|].
  apply dict_mem_notin in Em. apply mem_nat_notin in Eu.
  rewrite (dict_set_fresh _ _ _ Em). apply IH.
  - rewrite map_app. simpl. apply NoDup_app; auto.
    + repeat constructor. intros [].
    + intros a Ha [<-|[]]. contradiction.
  - rewrite map_app. simpl. apply NoDup_app; auto.
    + repeat constructor. intros [].
    + intros a Ha [<-|[]]. auto.
  - intros j Hj. rewrite map_app in Hj. apply in_app_iff in Hj.
    destruct Hj as [Hj|[<-|[]]]; simpl; auto.
Qed.

Lemma greedy_In pairs : forall associations used id i,
  In (id, i) (greedy pairs associations used) ->
  In (id, i) associations \/ exists r, In (id, i, r) pairs.
Proof.
  induction pairs as [|[[id' i'] r'] pairs IH]; intros assoc used id i;
    simpl; [auto|].
  destruct (_ && _).
  - intros Hin. destruct (IH _ _ _ _ Hin) as [Ha|[r Hr]].
    + destruct (dict_set_In _ _ _ _ Ha) as [Heq|Ha']; [|auto].
      inversion Heq; subst. right. exists r'. now left.
    + right. exists r. now right.
  - intros Hin. destruct (IH _ _ _ _ Hin) as [Ha|[r Hr]]; [auto|].
    right. exists r. now right.
Qed.

Lemma pair_dict_set_In (k : Z * nat) (v : root) d x :
  In x (Py.dict_set pair_eqb k v d) -> x = (k, v) \/ In x d.
Proof.
  induction d as [|[k' v'] d IH]; simpl.
  - intros [<-|[]]. now left.
  - destruct (pair_eqb k k'); simpl.
    + intros [<-|Hin]; auto.
    + intros [<-|Hin]; auto. destruct (IH Hin); auto.
Qed.

Lemma gate_detections_In cfg id track dets used : forall distances distances' x,
  gate_detections cfg id track dets used distances = Py.Ok distances' ->
  In x distances' ->
  In x distances \/
  (fst (fst x) = id /\ exists det, In (snd (fst x), det) dets).
Proof.
  induction dets as [|[j [[dx dy] c]] dets IH]; intros ds ds' x; simpl.
  - intros [= <-]. auto.
  - destruct (mem_nat j used).
    + intros Hg Hin. destruct (IH _ _ _ Hg Hin) as [H|[H1 [det H2]]]; eauto.
    + destruct (_mahalanobis_distance cfg track (dx, dy)) as [r|e]; simpl;
        [|discriminate].
      intros Hg Hin. destruct (IH _ _ _ Hg Hin) as [H|[H1 [det H2]]]; eauto.
      destruct (root_ltb _ _); [|auto].
      destruct (pair_dict_set_In _ _ _ _ H) as [->|H']; [|auto].
      right. simpl. eauto.
Qed.

Lemma gate_tracks_In cfg trs dets used : forall distances distances' x,
  gate_tracks cfg trs dets used distances = Py.Ok distances' ->
  In x distances' ->
  In x distances \/
  (In (fst (fst x)) (map fst trs) /\ exists det, In (snd (fst x), det) dets).
Proof.
  induction trs as [|[id track] trs IH]; intros ds ds' x; simpl.
  - intros [= <-]. auto.
  - destruct (gate_detections cfg id track dets used ds) as [ds1|e] eqn:E;
      simpl; [|discriminate].
    intros Hg Hin. destruct (IH _ _ _ Hg Hin) as [H|[H1 H2]]; [|auto].
    destruct (gate_detections_In _ _ _ _ _ _ _ E H) as [H'|[H1 H2]]; auto.
Qed.

(** The encoding of square roots: for a non-negative [s] whose square is
    [q], the test on [Root q] is the test [s < g], and roots are ordered
    as their squares are. *)
Lemma root_ltb_spec q s g :
  0 <= s -> s * s == q -> (root_ltb (Root q) g = true <-> s < g).
Proof.
  intros Hs Hq. unfold root_ltb. cbn [radicand].
  rewrite andb_true_iff, !PyFacts.ltb_lt. rewrite <- Hq. split.
  - intros [Hg Hlt]. apply Qnot_le_lt. intros Hle. nra.
  - intros Hlt. split; [lra | nra].
Qed.

Lemma root_order_spec q1 s1 q2 s2 :
  0 <= s1 -> 0 <= s2 -> s1 * s1 == q1 -> s2 * s2 == q2 ->
  (radicand (Root q1) < radicand (Root q2) <-> s1 < s2).
Proof.
  intros H1 H2 E1 E2. cbn [radicand]. rewrite <- E1, <- E2. split.
  - intros Hlt. apply Qnot_le_lt. intros Hle. nra.
  - intros Hlt. nra.
Qed.

(** C8.  Whatever the tracker and the detections, the association that
    [_associate_detections] returns is a one-to-one partial matching: no
    track identifier occurs twice, no detection index occurs twice, and
    every pair joins a track of the tracker with a position of the
    detection list. *)
Theorem association_one_to_one cfg k detections associations :
  _associate_detections cfg k detections = Py.Ok associations ->
  NoDup (map fst associations) /\ NoDup (map snd associations) /\
  forall id i, In (id, i) associations ->
    In id (map fst (tracks k)) /\ (i < List.length detections)%nat.
Proof.
  unfold _associate_detections.
  destruct (gate_tracks _ _ _ _ _) as [distances|e] eqn:E; simpl;
    [|discriminate].
  intros [= <-].
  assert (Hg : NoDup (map fst (greedy
                  (Py.sorted (fun p => radicand (snd p)) distances) [] [])) /\
               NoDup (map snd (greedy
                  (Py.sorted (fun p => radicand (snd p)) distances) [] []))).
  { apply greedy_one_to_one; simpl; [constructor | constructor | intros i []]. }
  destruct Hg as [Hk Hv].
  split; [assumption|]. split; [assumption|].
  intros id i Hin.
  destruct (greedy_In _ _ _ _ _ Hin) as [[]|[r Hr]].
  apply sorted_In in Hr.
  destruct (gate_tracks_In _ _ _ _ _ _ E Hr) as [[]|[H1 [det H2]]].
  simpl in H1, H2. split; [assumption|].
  apply enumerate_index in H2. apply nth_error_Some. congruence.
Qed.

End AssociationSpec.

(** ** kalman_ball_tracker.py: one [update] call *)

Module TrackerSpec.
Import Config KalmanBallTracker DictFacts PyFacts ListFacts.

Lemma refresh_confidence_unit cfg track :
  unit_confidence (refresh_confidence cfg track).
Proof.
  unfold unit_confidence, refresh_confidence. cbn [confidence].
  set (c2 := if (prediction_count track =? 0)%Z then _ else _).
  destruct (min_cases 1 c2) as [[? Hm]|[? Hm]]; rewrite Hm;
    destruct (max_cases 0 c2) as [[? Hx]|[? Hx]];
    try (rewrite Hx; lra);
    destruct (max_cases 0 1) as [[? Hy]|[? Hy]]; rewrite Hy; lra.
Qed.

Lemma map_values_keys {A B} (f : A -> B) (d : list (Z * A)) :
  map fst (map_values f d) = map fst d.
Proof.
  unfold map_values. rewrite map_map. reflexivity.
Qed.

Lemma map_values_In {A B} (f : A -> B) (d : list (Z * A)) id b :
  In (id, b) (map_values f d) -> exists a, b = f a /\ In (id, a) d.
Proof.
  unfold map_values. intros Hin. apply in_map_iff in Hin.
  destruct Hin as [[id' a] [Heq Hin]]. inversion Heq; subst. eauto.
Qed.

(** The shape of a call that returns. *)
Lemma update_inv cfg k dets k' out :
  update cfg k dets = Py.Ok (k', out) ->
  exists k3 associations,
    associations_of cfg k dets = Py.Ok associations /\
    _update_tracks cfg associations (begin_frame cfg k) = Py.Ok k3 /\
    k' = _update_confidence cfg
           (_cleanup_tracks cfg (_create_new_tracks cfg associations dets k3)) /\
    out = map snd (tracks k').
Proof.
  unfold update, update_matched, associations_of.
  destruct (_associate_detections _ _ _) as [assoc|e] eqn:Ea; simpl;
    [|discriminate].
  destruct (_update_tracks _ _ _) as [k3|e] eqn:Eu; simpl; [|discriminate].
  intros [= <- <-]. exists k3, assoc. repeat split; auto.
Qed.

Lemma spawned_ids_inv cfg k dets k3 associations :
  associations_of cfg k dets = Py.Ok associations ->
  _update_tracks cfg associations (begin_frame cfg k) = Py.Ok k3 ->
  spawned_ids cfg k dets
  = Py.Ok (filter (fun id => negb (Py.dict_mem Z.eqb id (tracks k3)))
             (map fst (tracks (_create_new_tracks cfg associations dets k3)))).
Proof.
  unfold spawned_ids, update_matched, associations_of.
  intros Ha Hu. rewrite Ha. cbn [Py.bind]. rewrite Hu. reflexivity.
Qed.

Lemma update_confidence_unit cfg k dets k' out :
  update cfg k dets = Py.Ok (k', out) -> Forall unit_confidence out.
Proof.
  intros Hu. destruct (@update_inv _ _ _ _ _ Hu) as (k3 & assoc & _ & _ & -> & ->).
  apply Forall_forall. intros tr Hin. apply in_map_iff in Hin.
  destruct Hin as [[id tr'] [<- Hin]].
  cbn [_update_confidence with_tracks tracks] in Hin.
  apply map_values_In in Hin. destruct Hin as [a [-> _]].
  apply refresh_confidence_unit.
Qed.

(** C7.  Along every run of [update] calls, from any tracker and with any
    detections (their confidences are not restricted), every track of
    every returned list has its confidence in [[0, 1]]. *)
Theorem confidence_in_unit_interval cfg calls : forall k k' outs,
  run cfg calls k = Py.Ok (k', outs) ->
  Forall (Forall unit_confidence) outs.
Proof.
  induction calls as [|dets calls IH]; intros k k' outs; simpl.
  - intros [= <- <-]. constructor.
  - destruct (update cfg k dets) as [[k1 out]|e] eqn:E; simpl; [|discriminate].
    destruct (run cfg calls k1) as [[k2 outs']|e] eqn:E'; simpl;
      [|discriminate].
    intros [= <- <-]. constructor.
    + eapply update_confidence_unit; eassumption.
    + eapply IH; eassumption.
Qed.

(** *** The invariant *)

Lemma update_tracks_inv cfg associations : forall k k3,
  _update_tracks cfg associations k = Py.Ok k3 ->
  next_track_id k3 = next_track_id k /\
  frame_count k3 = frame_count k /\
  map fst (tracks k3) = map fst (tracks k) /\
  (Forall (entry_ok (frame_count k)) (tracks k) ->
   Forall (entry_ok (frame_count k)) (tracks k3)) /\
  (forall id tr, In (id, tr) (tracks k3) -> ~ In id (map fst associations) ->
                 In (id, tr) (tracks k)).
Proof.
  induction associations as [|[id i] rest IH]; intros k k3; simpl.
  - intros [= <-]. split; [|split; [|split; [|split]]]; auto.
  - destruct (Py.dict_get Z.eqb id (tracks k)) as [track|] eqn:Eg;
      [|discriminate].
    destruct (_current_detections k) as [cur|].
    + destruct (nth_error cur i) as [det|]; [|discriminate].
      intros Hu. apply IH in Hu.
      cbn [with_tracks next_track_id frame_count tracks] in Hu.
      destruct Hu as (Hn & Hf & Hk & Hok & Hin).
      apply dict_get_In in Eg.
      assert (Hid : In id (map fst (tracks k))).
      { apply in_map_iff. exists (id, track). auto. }
      split; [assumption|]. split; [assumption|].
      split; [|split].
      * rewrite Hk. now apply dict_set_keys_present.
      * intros Hall. apply Hok. apply dict_set_Forall; [|assumption].
        rewrite Forall_forall in Hall. specialize (Hall _ Eg).
        destruct Hall as [Ht _]. destruct det as [[dx dy] c].
        unfold update_track. destruct (kalman_correct cfg track dx dy).
        split; simpl; [assumption | lia].
      * intros id' tr Hin' Hnot.
        assert (Hin'' : In (id', tr)
                  (Py.dict_set Z.eqb id
                     (update_track cfg (frame_count k) track det) (tracks k))).
        { apply Hin; [assumption|]. intros H. apply Hnot. now right. }
        destruct (dict_set_In _ _ _ _ Hin'') as [Heq|]; [|assumption].
        inversion Heq; subst. exfalso. apply Hnot. now left.
    + intros Hu. apply IH in Hu. destruct Hu as (Hn & Hf & Hk & Hok & Hin).
      split; [assumption|]. split; [assumption|].
      split; [assumption|]. split; [assumption|].
      intros id' tr Hin' Hnot. apply Hin; [assumption|].
      intros H. apply Hnot. now right.
Qed.

(** What the creation loop adds to the dictionary: new entries at its
    end, under increasing identifiers from the old [next_track_id] on. *)
Lemma spawn_tracks_spec cfg associated dets : forall k,
  Forall (fun id => (id < next_track_id k)%Z) (map fst (tracks k)) ->
  exists fresh,
    tracks (spawn_tracks cfg associated dets k) = tracks k ++ fresh /\
    StronglySorted Z.lt (map fst fresh) /\
    Forall (fun id => (next_track_id k <= id <
                       next_track_id (spawn_tracks cfg associated dets k))%Z)
           (map fst fresh) /\
    (next_track_id k <= next_track_id (spawn_tracks cfg associated dets k))%Z /\
    frame_count (spawn_tracks cfg associated dets k) = frame_count k /\
    Forall (entry_ok (frame_count k)) fresh.
Proof.
  induction dets as [|[i [[dx dy] c]] dets IH]; intros k Hk; simpl.
  - exists []. rewrite app_nil_r. repeat split; try constructor. lia.
  - destruct (_ && _).
    + set (track := mkTrack _ _ _ _ _ _ _).
      set (k1 := mkTracker _ _ _ _).
      assert (Hfresh : ~ In (next_track_id k) (map fst (tracks k))).
      { intros Hin. rewrite Forall_forall in Hk. specialize (Hk _ Hin). lia. }
      assert (Ht1 : tracks k1 = tracks k ++ [(next_track_id k, track)]).
      { unfold k1. cbn [tracks]. now apply dict_set_fresh. }
      destruct (IH k1) as (fresh & Ht & Hs & Hb & Hn & Hf & Hok).
      { rewrite Ht1, map_app. apply Forall_app. split.
        - eapply Forall_impl; [|exact Hk]. unfold k1. simpl. intros; lia.
        - repeat constructor. unfold k1. simpl. lia. }
      exists ((next_track_id k, track) :: fresh).
      rewrite Ht, Ht1, <- app_assoc. simpl.
      assert (Hn1 : next_track_id k1 = (next_track_id k + 1)%Z) by reflexivity.
      assert (Hf1 : frame_count k1 = frame_count k) by reflexivity.
      repeat split.
      * constructor; [assumption|].
        eapply Forall_impl; [|exact Hb]. simpl. intros; lia.
      * constructor; [lia|].
        eapply Forall_impl; [|exact Hb]. simpl. intros; lia.
      * lia.
      * congruence.
      * constructor.
        -- split; simpl; [reflexivity | lia].
        -- now rewrite <- Hf1.
    + now apply IH.
Qed.

Lemma sorted_keys_filter {V} (f : Z * V -> bool) (d : list (Z * V)) :
  StronglySorted Z.lt (map fst d) ->
  StronglySorted Z.lt (map fst (filter f d)).
Proof.
  induction d as [|kv d IH]; simpl; intros Hs; [constructor|].
  inversion Hs as [|? ? Hs' Hall]; subst.
  destruct (f kv); simpl; [|auto].
  constructor; [auto|].
  rewrite Forall_forall in *. intros id Hin. apply Hall.
  apply in_map_iff in Hin. destruct Hin as [x [<- Hx]].
  apply filter_In in Hx. apply in_map. apply Hx.
Qed.

Lemma filter_known_keys {V} (d : list (Z * V)) (l : list Z) :
  (forall id, In id l -> In id (map fst d)) ->
  filter (fun id => negb (Py.dict_mem Z.eqb id d)) l = [].
Proof.
  induction l as [|id l IH]; intros H; simpl; [reflexivity|].
  replace (Py.dict_mem Z.eqb id d) with true.
  - simpl. apply IH. intros; apply H; now right.
  - symmetry. apply dict_mem_In. apply H. now left.
Qed.

Lemma filter_unknown_keys {V} (d : list (Z * V)) (l : list Z) :
  (forall id, In id l -> ~ In id (map fst d)) ->
  filter (fun id => negb (Py.dict_mem Z.eqb id d)) l = l.
Proof.
  induction l as [|id l IH]; intros H; simpl; [reflexivity|].
  replace (Py.dict_mem Z.eqb id d) with false.
  - simpl. f_equal. apply IH. intros; apply H; now right.
  - symmetry. apply dict_mem_notin. apply H. now left.
Qed.

Lemma refresh_entry_ok cfg fc id a :
  entry_ok fc (id, a) -> entry_ok fc (id, refresh_confidence cfg a).
Proof. intros [H1 H2]. split; assumption. Qed.

(** One call that returns, from a tracker that satisfies the invariant. *)
Lemma update_step cfg k dets k' out :
  wf k -> update cfg k dets = Py.Ok (k', out) ->
  exists fresh_ids,
    spawned_ids cfg k dets = Py.Ok fresh_ids /\
    StronglySorted Z.lt fresh_ids /\
    Forall (fun id => (next_track_id k <= id < next_track_id k')%Z) fresh_ids /\
    (forall id, In id (map fst (tracks k')) ->
                In id (map fst (tracks k)) \/ In id fresh_ids) /\
    (next_track_id k <= next_track_id k')%Z /\
    frame_count k' = (frame_count k + 1)%Z /\
    wf k'.
Proof.
  intros (Hok & Hlt & Hs) Hu.
  destruct (@update_inv _ _ _ _ _ Hu) as (k3 & assoc & Ha & Hu3 & -> & _).
  rewrite (@spawned_ids_inv _ _ _ _ _ Ha Hu3).
  destruct (@update_tracks_inv _ _ _ _ Hu3) as (Hn3 & Hf3 & Hk3 & Hok3 & _).
  cbn [begin_frame _predict_tracks with_tracks next_track_id frame_count tracks]
    in Hn3, Hf3, Hk3, Hok3.
  rewrite map_values_keys in Hk3.
  assert (Hok1 : Forall (entry_ok (frame_count k + 1))
                   (map_values (predict_track cfg) (tracks k))).
  { apply Forall_forall. intros [id tr] Hin.
    apply map_values_In in Hin. destruct Hin as [a [-> Hin]].
    rewrite Forall_forall in Hok. destruct (Hok _ Hin) as [H1 H2].
    split; simpl in *; [assumption | lia]. }
  specialize (Hok3 Hok1).
  unfold _create_new_tracks.
  set (k3' := mkTracker (tracks k3) _ _ _).
  destruct (@spawn_tracks_spec cfg (map snd assoc) (Py.enumerate dets) k3')
    as (fresh & Ht & Hsf & Hb & Hn & Hf & Hokf).
  { unfold k3'. cbn [tracks next_track_id]. rewrite Hk3, Hn3. assumption. }
  set (k4 := spawn_tracks _ _ _ k3') in *.
  unfold k3' in Ht, Hb, Hn, Hf, Hokf.
  cbn [tracks next_track_id frame_count] in Ht, Hb, Hn, Hf, Hokf.
  rewrite Hn3 in Hb, Hn. rewrite Hf3 in Hf, Hokf.
  assert (Hcross : forall id, In id (map fst fresh) ->
                              ~ In id (map fst (tracks k3))).
  { intros id Hin Hin'. rewrite Hk3 in Hin'.
    rewrite Forall_forall in Hb, Hlt.
    specialize (Hb _ Hin). specialize (Hlt _ Hin'). lia. }
  exists (map fst fresh).
  cbn [_update_confidence _cleanup_tracks with_tracks tracks next_track_id
       frame_count].
  split; [|split; [|split; [|split; [|split; [|split]]]]].
  - f_equal. rewrite Ht, map_app, filter_app.
    rewrite filter_known_keys by auto.
    now rewrite filter_unknown_keys.
  - assumption.
  - assumption.
  - intros id Hin. rewrite map_values_keys in Hin.
    apply in_map_iff in Hin. destruct Hin as [[id' a] [<- Hin]].
    apply filter_In in Hin. destruct Hin as [Hin _].
    rewrite Ht in Hin. apply in_app_iff in Hin. simpl.
    destruct Hin as [Hin|Hin].
    + left. rewrite <- Hk3. apply in_map_iff. exists (id', a). auto.
    + right. apply in_map_iff. exists (id', a). auto.
  - assumption.
  - assumption.
  - unfold wf.
    cbn [_update_confidence _cleanup_tracks with_tracks tracks next_track_id
         frame_count].
    rewrite Hf. split; [|split].
    + apply Forall_forall. intros [id tr] Hin.
      apply map_values_In in Hin. destruct Hin as [a [-> Hin]].
      apply refresh_entry_ok.
      apply filter_In in Hin. destruct Hin as [Hin _].
      rewrite Ht in Hin. apply in_app_iff in Hin.
      rewrite Forall_forall in Hok3, Hokf. destruct Hin; auto.
    + rewrite map_values_keys. apply Forall_forall. intros id Hin.
      apply in_map_iff in Hin. destruct Hin as [[id' a] [<- Hin]].
      apply filter_In in Hin. destruct Hin as [Hin _].
      rewrite Ht in Hin. apply in_app_iff in Hin. simpl.
      rewrite Forall_forall in Hb, Hlt. destruct Hin as [Hin|Hin].
      * assert (H : In id' (map fst (tracks k))).
        { rewrite <- Hk3. apply in_map_iff. exists (id', a). auto. }
        specialize (Hlt _ H). lia.
      * assert (H : In id' (map fst fresh)).
        { apply in_map_iff. exists (id', a). auto. }
        specialize (Hb _ H). lia.
    + rewrite map_values_keys. apply sorted_keys_filter.
      rewrite Ht, map_app. apply StronglySorted_app.
      * now rewrite Hk3.
      * assumption.
      * intros a b Ha' Hb'. rewrite Hk3 in Ha'.
        rewrite Forall_forall in Hb, Hlt.
        specialize (Hb _ Hb'). specialize (Hlt _ Ha'). lia.
Qed.

Lemma init_wf : wf init.
Proof. repeat split; constructor. Qed.

Lemma reset_wf k : wf (reset k).
Proof. repeat split; constructor. Qed.

Lemma reachable_wf cfg k : reachable cfg k -> wf k.
Proof.
  induction 1 as [|k dets k' out _ IH Hu|k _ _].
  - apply init_wf.
  - destruct (@update_step _ _ _ _ _ IH Hu) as (ids & _ & _ & _ & _ & _ & _ & Hwf).
    exact Hwf.
  - apply reset_wf.
Qed.

(** *** Track identifiers *)



(** The loop with the log is the loop: the log does not change what the
    loop does to the tracker. *)
Lemma spawn_tracks_logged_fst cfg associated dets : forall k,
  fst (spawn_tracks_logged cfg associated dets k)
  = spawn_tracks cfg associated dets k.
Proof.
  induction dets as [|[i [[dx dy] c]] dets IH]; intros k; simpl;
    [reflexivity|].
  destruct (_ && _); [|apply IH].
  match goal with
  | |- fst (let '(_, _) := spawn_tracks_logged cfg associated dets ?k1 in _)
       = _ =>
      rewrite <- (IH k1); destruct (spawn_tracks_logged cfg associated dets k1)
  end.
  reflexivity.
Qed.





(** *** Retirement *)

(** The dictionary after a call that returns, in terms of the tracker
    [k3] that step 3 leaves: the tracks of [k3] followed by the new ones,
    without the stale ones, with refreshed confidences. *)
Lemma update_shape cfg k dets k' out :
  wf k -> update cfg k dets = Py.Ok (k', out) ->
  exists k3 associations fresh,
    associations_of cfg k dets = Py.Ok associations /\
    _update_tracks cfg associations (begin_frame cfg k) = Py.Ok k3 /\
    tracks k' =
      map_values (refresh_confidence cfg)
        (filter (fun kv => negb (stale cfg (frame_count k + 1) (snd kv)))
                (tracks k3 ++ fresh)) /\
    Forall (fun id => (next_track_id k <= id)%Z) (map fst fresh) /\
    frame_count k' = (frame_count k + 1)%Z.
Proof.
  intros (Hok & Hlt & Hs) Hu.
  destruct (@update_inv _ _ _ _ _ Hu) as (k3 & assoc & Ha & Hu3 & -> & _).
  destruct (@update_tracks_inv _ _ _ _ Hu3) as (Hn3 & Hf3 & Hk3 & _ & _).
  cbn [begin_frame _predict_tracks with_tracks next_track_id frame_count tracks]
    in Hn3, Hf3, Hk3.
  rewrite map_values_keys in Hk3.
  unfold _create_new_tracks.
  set (k3' := mkTracker (tracks k3) _ _ _).
  destruct (@spawn_tracks_spec cfg (map snd assoc) (Py.enumerate dets) k3')
    as (fresh & Ht & _ & Hb & _ & Hf & _).
  { unfold k3'. cbn [tracks next_track_id]. rewrite Hk3, Hn3. assumption. }
  unfold k3' in *. clear k3'.
  cbn [tracks next_track_id frame_count] in Ht, Hb, Hf.
  rewrite Hn3 in Hb.
  exists k3, assoc, fresh.
  cbn [_update_confidence _cleanup_tracks with_tracks tracks frame_count].
  rewrite Ht, Hf, Hf3.
  split; [assumption|]. split; [assumption|]. split; [reflexivity|].
  split; [|reflexivity].
  eapply Forall_impl; [|exact Hb]. simpl. intros; lia.
Qed.

Lemma stale_false cfg fc track :
  stale cfg fc track = false ->
  (fc - last_detection_frame track <= max_missed_frames cfg)%Z.
Proof.
  unfold stale. destruct (Z.ltb_spec (max_missed_frames cfg)
                            (fc - last_detection_frame track)).
  - discriminate.
  - intros _. assumption.
Qed.

(** A track that a call returns was detected at most
    [max_missed_frames] frames ago. *)
Lemma update_survivor cfg k dets k' out id tr' :
  wf k -> update cfg k dets = Py.Ok (k', out) ->
  In (id, tr') (tracks k') ->
  (frame_count k' - last_detection_frame tr' <= max_missed_frames cfg)%Z.
Proof.
  intros Hwf Hu Hin.
  destruct (@update_shape _ _ _ _ _ Hwf Hu)
    as (k3 & assoc & fresh & _ & _ & Ht & _ & Hf).
  rewrite Ht in Hin. apply map_values_In in Hin.
  destruct Hin as [a [-> Hin]]. apply filter_In in Hin.
  destruct Hin as [_ Hst]. apply negb_true_iff in Hst. cbn [snd] in Hst.
  apply stale_false in Hst. rewrite Hf. exact Hst.
Qed.




End TrackerSpec.

(** ** kalman_ball_tracker.py: examples *)

Module TrackerExamples.
Import Config KalmanBallTracker Scenarios.Tracking TrackerSpec AssociationSpec.

Lemma confidence_in_unit_interval_witness :
  Forall (Forall unit_confidence) (returned wild_confidences).
Proof.
  apply (@confidence_in_unit_interval default wild_confidences init
           (after wild_confidences) (returned wild_confidences)).
  vm_compute. reflexivity.
Defined.

Lemma association_one_to_one_witness :
  NoDup (map fst [(0%Z, 0%nat); (1%Z, 1%nat)]) /\
  NoDup (map snd [(0%Z, 0%nat); (1%Z, 1%nat)]) /\
  forall id i, In (id, i) [(0%Z, 0%nat); (1%Z, 1%nat)] ->
    In id (map fst (tracks (begin_frame default (after (firstn 1 four_frames)))))
    /\ (i < 2)%nat.
Proof.
  apply (@association_one_to_one default
           (begin_frame default (after (firstn 1 four_frames)))
           [(105, 205, 0.9); (400, 400, 0.05)]
           [(0%Z, 0%nat); (1%Z, 1%nat)]).
  vm_compute. reflexivity.
Defined.



(** C1 (what the code does).  [update] runs [_update_tracks] before
    [_create_new_tracks] has stored the detections of the call, so the
    measurement of a matched track is read from the list of the previous
    call.  A ball seen at (100, 200) and then at (110, 210): in the second
    call the track is matched with the new detection, its prediction
    counter is reset, and its state is left at (100, 200) with zero
    velocity - the correction by the old detection - where the correction
    by the detection it was matched with gives (23110/211, 44210/211)
    with velocity (1000/211, 1000/211).  When the previous call had no
    detection at the matched position, the call raises [IndexError]: this
    happens with a frame without detections followed by a matched one,
    and at the third frame of the self-test of the module. *)
Theorem update_corrects_with_previous_detections :
  associations_of default (after [first_frame]) second_frame
    = Py.Ok [(0%Z, 0%nat)] /\
  map (map (fun tr => (track_id tr, state tr, prediction_count tr)))
      (returned [first_frame; second_frame])
    = [[(0%Z, [100; 200; 0; 0], 0%Z)]; [(0%Z, [100; 200; 0; 0], 0%Z)]] /\
  map (fun kv => fst (kalman_correct default (snd kv) 100 200))
      (tracks (begin_frame default (after [first_frame])))
    = [[100; 200; 0; 0]] /\
  map (fun kv => fst (kalman_correct default (snd kv) 110 210))
      (tracks (begin_frame default (after [first_frame])))
    = [[23110 # 211; 44210 # 211; 1000 # 211; 1000 # 211]] /\
  run default [first_frame; []; second_frame] init = Py.Raise Py.IndexError /\
  run default selftest_frames init = Py.Raise Py.IndexError.
Proof.
  repeat split; vm_compute; reflexivity.
Qed.

(** After [reset] the tracker answers every call as a new tracker does:
    the detections kept from before the reset are replaced before they
    can be read. *)
Lemma reset_tracker_like_fresh cfg k dets :
  update cfg (reset k) dets = update cfg init dets.
Proof. reflexivity. Qed.

Lemma reset_tracker_runs_like_fresh cfg k calls :
  calls <> [] ->
  run cfg calls (reset k) = run cfg calls init.
Proof.
  destruct calls as [|dets calls]; [congruence|]. intros _.
  cbn [run]. now rewrite reset_tracker_like_fresh.
Qed.

(** After [reset] the segment builder is a new segment builder. *)
Lemma reset_builder_is_fresh sb : SegmentBuilder.reset sb = SegmentBuilder.init.
Proof. reflexivity. Qed.

End TrackerExamples.

(** ** kalman_ball_tracker.py: what every reachable tracker satisfies *)

Module TrackerInvariants.
Import Config KalmanBallTracker TrackerQueries DictFacts PyFacts TrackerSpec.

Lemma update_tracks_Forall cfg (P : Z * TrackingState -> Prop) associations :
  forall k k3,
  (forall id tr det,
     P (id, tr) -> P (id, update_track cfg (frame_count k) tr det)) ->
  Forall P (tracks k) ->
  _update_tracks cfg associations k = Py.Ok k3 ->
  Forall P (tracks k3).
Proof.
  induction associations as [|[id i] rest IH]; intros k k3 Hstep Hall; simpl.
  - intros [= <-]. assumption.
  - destruct (Py.dict_get Z.eqb id (tracks k)) as [track|] eqn:Eg;
      [|discriminate].
    destruct (_current_detections k) as [cur|]; [|now apply IH].
    destruct (nth_error cur i) as [det|]; [|discriminate].
    apply IH.
    + exact Hstep.
    + cbn [with_tracks tracks]. apply dict_set_Forall; [|assumption].
      apply Hstep. apply dict_get_In in Eg.
      rewrite Forall_forall in Hall. now apply Hall.
Qed.

Lemma spawn_tracks_fields cfg associated dets : forall k,
  frame_count (spawn_tracks cfg associated dets k) = frame_count k /\
  _current_detections (spawn_tracks cfg associated dets k)
    = _current_detections k.
Proof.
  induction dets as [|[i [[dx dy] c]] dets IH]; intros k; simpl; [auto|].
  destruct (_ && _); [|apply IH].
  destruct (IH (mkTracker
                  (Py.dict_set Z.eqb (next_track_id k)
                     (mkTrack [dx; dy; 0; 0] (mscale 100 eye4) c
                        (frame_count k) 0 (next_track_id k) 0) (tracks k))
                  (next_track_id k + 1) (frame_count k)
                  (_current_detections k))) as [H1 H2].
  split; assumption.
Qed.

Lemma spawn_tracks_Forall cfg (P : Z * TrackingState -> Prop) associated dets :
  forall k,
  (forall id x y c,
     P (id, mkTrack [x; y; 0; 0] (mscale 100 eye4) c (frame_count k) 0 id 0)) ->
  Forall P (tracks k) ->
  Forall P (tracks (spawn_tracks cfg associated dets k)).
Proof.
  induction dets as [|[i [[dx dy] c]] dets IH]; intros k Hnew Hall; simpl;
    [assumption|].
  destruct (_ && _); [|now apply IH].
  apply IH.
  - exact Hnew.
  - cbn [tracks]. apply dict_set_Forall; [apply Hnew | assumption].
Qed.

(** After a call that returns, the tracker holds the detections of that
    call. *)
Lemma update_stores_detections cfg k dets k' out :
  update cfg k dets = Py.Ok (k', out) -> _current_detections k' = Some dets.
Proof.
  intros Hu. destruct (@update_inv _ _ _ _ _ Hu) as (k3 & assoc & _ & _ & -> & _).
  cbn [_update_confidence _cleanup_tracks with_tracks _current_detections].
  unfold _create_new_tracks.
  destruct (spawn_tracks_fields cfg (map snd assoc) (Py.enumerate dets)
              (mkTracker (tracks k3) (next_track_id k3) (frame_count k3)
                 (Some dets))) as [_ H].
  exact H.
Qed.

(** X3.  A reachable tracker that has a track has its
    [_current_detections] attribute: the [hasattr] test of
    [_update_tracks] never skips the correction of a matched track. *)
Theorem tracks_imply_stored_detections cfg k :
  reachable cfg k -> tracks k <> [] ->
  exists current, _current_detections k = Some current.
Proof.
  induction 1 as [|k dets k' out _ _ Hu|k _ _]; intros Hne.
  - exfalso. now apply Hne.
  - exists dets. eapply update_stores_detections; eassumption.
  - exfalso. now apply Hne.
Qed.

(** *** Shapes and counters *)

Lemma check_4x4_spec m : check_4x4 m = true -> is_4x4 m.
Proof.
  unfold check_4x4, is_4x4. rewrite andb_true_iff.
  intros [Hl Hr]. split; [now apply Nat.eqb_eq|].
  apply Forall_forall. intros row Hin.
  rewrite forallb_forall in Hr. apply Nat.eqb_eq. now apply Hr.
Qed.

Lemma length_4 {A} (l : list A) :
  List.length l = 4%nat -> exists a b c d, l = [a; b; c; d].
Proof.
  destruct l as [|a [|b [|c [|d [|e l]]]]]; try discriminate.
  intros _. eauto.
Qed.

Lemma is_4x4_inv m :
  is_4x4 m ->
  exists r1 r2 r3 r4, m = [r1; r2; r3; r4] /\
    List.length r1 = 4%nat /\ List.length r2 = 4%nat /\
    List.length r3 = 4%nat /\ List.length r4 = 4%nat.
Proof.
  intros [Hl Hr]. destruct (length_4 _ Hl) as (r1 & r2 & r3 & r4 & ->).
  inversion Hr as [|? ? H1 Hr1]; subst.
  inversion Hr1 as [|? ? H2 Hr2]; subst.
  inversion Hr2 as [|? ? H3 Hr3]; subst.
  inversion Hr3 as [|? ? H4 _]; subst.
  exists r1, r2, r3, r4. auto.
Qed.

Lemma predict_track_shaped cfg track : shaped (predict_track cfg track).
Proof.
  split.
  - reflexivity.
  - apply check_4x4_spec. reflexivity.
Qed.

Lemma update_track_shaped cfg fc track det :
  shaped track -> shaped (update_track cfg fc track det).
Proof.
  intros [Hs Hc]. destruct det as [[dx dy] c].
  destruct (length_4 _ Hs) as (x & y & vx & vy & Est).
  destruct (is_4x4_inv Hc) as (r1 & r2 & r3 & r4 & Ecov & H1 & H2 & H3 & H4).
  destruct (length_4 _ H1) as (a1 & a2 & a3 & a4 & ->).
  destruct (length_4 _ H2) as (b1 & b2 & b3 & b4 & ->).
  destruct (length_4 _ H3) as (c1 & c2 & c3 & c4 & ->).
  destruct (length_4 _ H4) as (d1 & d2 & d3 & d4 & ->).
  unfold update_track, kalman_correct, innovation, innovation_covariance.
  rewrite Est, Ecov. split.
  - reflexivity.
  - apply check_4x4_spec. reflexivity.
Qed.

Lemma predict_track_counted cfg fc track :
  counted fc track -> counted (fc + 1) (predict_track cfg track).
Proof.
  unfold counted. cbn [predict_track prediction_count last_detection_frame age].
  lia.
Qed.

Lemma update_track_counted cfg fc track det :
  (0 <= age track)%Z -> counted fc (update_track cfg fc track det).
Proof.
  intros Hage. destruct det as [[dx dy] c]. unfold update_track.
  destruct (kalman_correct cfg track dx dy). unfold counted.
  cbn [prediction_count last_detection_frame age]. lia.
Qed.

(** One returning call keeps the shapes and the counters. *)
Lemma update_good cfg k dets k' out :
  Forall (good_entry (frame_count k)) (tracks k) ->
  update cfg k dets = Py.Ok (k', out) ->
  frame_count k' = (frame_count k + 1)%Z /\
  Forall (good_entry (frame_count k')) (tracks k').
Proof.
  intros Hall Hu.
  destruct (@update_inv _ _ _ _ _ Hu) as (k3 & assoc & _ & Hu3 & -> & _).
  destruct (@update_tracks_inv _ _ _ _ Hu3) as (_ & Hf3 & _ & _ & _).
  cbn [begin_frame _predict_tracks with_tracks frame_count] in Hf3.
  unfold _create_new_tracks.
  set (k3' := mkTracker (tracks k3) (next_track_id k3) (frame_count k3)
                (Some dets)).
  destruct (spawn_tracks_fields cfg (map snd assoc) (Py.enumerate dets) k3')
    as [Hf4 _].
  cbn [_update_confidence _cleanup_tracks with_tracks frame_count tracks].
  rewrite Hf4. unfold k3' at 1 2. cbn [frame_count]. rewrite Hf3.
  split; [reflexivity|].
  assert (H1 : Forall (good_entry (frame_count k + 1))
                 (tracks (begin_frame cfg k))).
  { cbn [begin_frame _predict_tracks with_tracks tracks].
    apply Forall_forall. intros [id tr] Hin.
    apply map_values_In in Hin. destruct Hin as [a [-> Hin]].
    rewrite Forall_forall in Hall. destruct (Hall _ Hin) as [Hs Hc].
    split; [apply predict_track_shaped | now apply predict_track_counted]. }
  assert (H3 : Forall (good_entry (frame_count k + 1)) (tracks k3)).
  { apply (@update_tracks_Forall cfg _ assoc (begin_frame cfg k) k3);
      [|exact H1|exact Hu3].
    cbn [begin_frame _predict_tracks with_tracks frame_count].
    intros id tr det [Hs [Hc1 Hc2]]. cbn [snd] in *. split; cbn [snd].
    - now apply update_track_shaped.
    - apply update_track_counted. lia. }
  assert (H4 : Forall (good_entry (frame_count k + 1))
                 (tracks (spawn_tracks cfg (map snd assoc)
                            (Py.enumerate dets) k3'))).
  { apply spawn_tracks_Forall.
    - unfold k3'. cbn [frame_count]. rewrite Hf3.
      intros id x y c. split; cbn [snd].
      + split; [reflexivity|]. apply check_4x4_spec. reflexivity.
      + unfold counted. cbn [prediction_count last_detection_frame age]. lia.
    - exact H3. }
  apply Forall_forall. intros [id tr] Hin.
  apply map_values_In in Hin. destruct Hin as [a [-> Hin]].
  apply filter_In in Hin. destruct Hin as [Hin _].
  rewrite Forall_forall in H4. destruct (H4 _ Hin) as [Hs Hc].
  split; assumption.
Qed.

Lemma reachable_good cfg k :
  reachable cfg k -> Forall (good_entry (frame_count k)) (tracks k).
Proof.
  induction 1 as [|k dets k' out _ IH Hu|k _ _].
  - constructor.
  - now destruct (@update_good _ _ _ _ _ IH Hu).
  - constructor.
Qed.

End TrackerInvariants.

(** ** kalman_ball_tracker.py: calls that raise, calls that cannot *)

Module TrackerErrors.
Import Config KalmanBallTracker TrackerQueries DictFacts PyFacts TrackerSpec
       AssociationSpec TrackerInvariants.

Lemma gate_tracks_no_detections cfg trs used : forall distances,
  gate_tracks cfg trs [] used distances = Py.Ok distances.
Proof.
  induction trs as [|[id track] trs IH]; intros ds; simpl; [reflexivity|].
  apply IH.
Qed.

(** The tracks named by an association are tracks of the tracker. *)
Lemma association_keys cfg k dets associations id i :
  _associate_detections cfg k dets = Py.Ok associations ->
  In (id, i) associations -> In id (map fst (tracks k)).
Proof.
  unfold _associate_detections.
  destruct (gate_tracks _ _ _ _ _) as [distances|e] eqn:E; simpl;
    [|discriminate].
  intros [= <-] Hin.
  destruct (greedy_In _ _ _ _ _ Hin) as [[]|[r Hr]].
  apply sorted_In in Hr.
  destruct (gate_tracks_In _ _ _ _ _ _ E Hr) as [[]|[H1 _]].
  exact H1.
Qed.

Lemma dict_get_present {V} (id : Z) (d : list (Z * V)) :
  In id (map fst d) -> exists v, Py.dict_get Z.eqb id d = Some v.
Proof.
  induction d as [|[k v] d IH]; simpl; [contradiction|].
  destruct (Z.eqb_spec id k) as [->|Hne]; [eauto|].
  intros [Heq|Hin]; [congruence | auto].
Qed.

Lemma dict_get_absent {V} (id : Z) (d : list (Z * V)) :
  ~ In id (map fst d) -> Py.dict_get Z.eqb id d = None.
Proof.
  induction d as [|[k v] d IH]; simpl; [reflexivity|].
  destruct (Z.eqb_spec id k) as [->|Hne]; intros Hn.
  - exfalso. apply Hn. now left.
  - apply IH. intros Hin. apply Hn. now right.
Qed.

Lemma update_tracks_index_error cfg current associations : forall k,
  _current_detections k = Some current ->
  (forall id i, In (id, i) associations -> In id (map fst (tracks k))) ->
  Exists (fun p => (List.length current <= snd p)%nat) associations ->
  _update_tracks cfg associations k = Py.Raise Py.IndexError.
Proof.
  induction associations as [|[id i] rest IH]; intros k Hc Hkeys Hbad.
  - inversion Hbad.
  - simpl. destruct (@dict_get_present _ id (tracks k)) as [track ->].
    { apply (Hkeys id i). now left. }
    rewrite Hc. destruct (nth_error current i) as [det|] eqn:En;
      [|reflexivity].
    apply IH.
    + exact Hc.
    + intros id' i' Hin. cbn [with_tracks tracks].
      rewrite dict_set_keys_present.
      * apply (Hkeys id' i'). now right.
      * apply (Hkeys id i). now left.
    + inversion Hbad as [? ? Hhd|? ? Htl]; subst; [|assumption].
      exfalso. simpl in Hhd.
      assert (i < List.length current)%nat
        by (apply nth_error_Some; congruence).
      lia.
Qed.

Lemma update_tracks_returns cfg current associations : forall k,
  _current_detections k = Some current ->
  (forall id i, In (id, i) associations -> In id (map fst (tracks k))) ->
  Forall (fun p => (snd p < List.length current)%nat) associations ->
  exists k3, _update_tracks cfg associations k = Py.Ok k3.
Proof.
  induction associations as [|[id i] rest IH]; intros k Hc Hkeys Hok.
  - simpl. eauto.
  - simpl. destruct (@dict_get_present _ id (tracks k)) as [track ->].
    { apply (Hkeys id i). now left. }
    rewrite Hc. inversion Hok as [|? ? Hhd Htl]; subst. simpl in Hhd.
    destruct (nth_error current i) as [det|] eqn:En.
    + apply IH.
      * exact Hc.
      * intros id' i' Hin. cbn [with_tracks tracks].
        rewrite dict_set_keys_present.
        -- apply (Hkeys id' i'). now right.
        -- apply (Hkeys id i). now left.
      * exact Htl.
    + exfalso. apply nth_error_None in En. lia.
Qed.

(** X1.  When the tracker holds the detections [current] of the previous
    call and the new call associates its tracks as [associations]: if
    some associated index is not a position of [current], [update] raises
    [IndexError]; if every associated index is one, [update] returns. *)
Theorem update_raises_on_stale_index cfg k dets current associations :
  _current_detections k = Some current ->
  associations_of cfg k dets = Py.Ok associations ->
  (Exists (fun p => (List.length current <= snd p)%nat) associations ->
   update cfg k dets = Py.Raise Py.IndexError) /\
  (Forall (fun p => (snd p < List.length current)%nat) associations ->
   exists r, update cfg k dets = Py.Ok r).
Proof.
  intros Hc Ha.
  assert (Hkeys : forall id i, In (id, i) associations ->
                  In id (map fst (tracks (begin_frame cfg k)))).
  { intros id i Hin. exact (@association_keys _ _ _ _ _ _ Ha Hin). }
  unfold update, update_matched. unfold associations_of in Ha.
  rewrite Ha. cbn [Py.bind]. split.
  - intros Hbad.
    rewrite (@update_tracks_index_error cfg current associations
               (begin_frame cfg k) Hc Hkeys Hbad).
    reflexivity.
  - intros Hok.
    destruct (@update_tracks_returns cfg current associations
                (begin_frame cfg k) Hc Hkeys Hok) as [k3 ->].
    cbn [Py.bind]. eauto.
Qed.

(** X2.  A call without detections never raises, whatever the tracker:
    it associates nothing, creates no track ([next_track_id] is
    unchanged), counts the frame, stores the empty list, and returns
    only tracks that the tracker already had. *)
Theorem update_without_detections cfg k :
  associations_of cfg k [] = Py.Ok [] /\
  exists k' out,
    update cfg k [] = Py.Ok (k', out) /\
    next_track_id k' = next_track_id k /\
    frame_count k' = (frame_count k + 1)%Z /\
    _current_detections k' = Some [] /\
    incl (map fst (tracks k')) (map fst (tracks k)).
Proof.
  assert (Ha : associations_of cfg k [] = Py.Ok []).
  { unfold associations_of, _associate_detections.
    change (Py.enumerate (@nil Detection)) with (@nil (nat * Detection)).
    rewrite gate_tracks_no_detections. reflexivity. }
  split; [exact Ha|].
  unfold update, update_matched. unfold associations_of in Ha. rewrite Ha.
  cbn [Py.bind _update_tracks].
  eexists. eexists. split; [reflexivity|].
  unfold _create_new_tracks.
  change (Py.enumerate (@nil Detection)) with (@nil (nat * Detection)).
  cbn [spawn_tracks _update_confidence _cleanup_tracks with_tracks tracks
       next_track_id frame_count _current_detections begin_frame
       _predict_tracks].
  split; [reflexivity|]. split; [reflexivity|]. split; [reflexivity|].
  intros id Hin. rewrite map_values_keys in Hin.
  apply in_map_iff in Hin. destruct Hin as [[id' a] [<- Hin]].
  apply filter_In in Hin. destruct Hin as [Hin _].
  apply map_values_In in Hin. destruct Hin as [tr [_ Hin]].
  apply in_map_iff. exists (id', tr). auto.
Qed.

End TrackerErrors.

(** ** kalman_ball_tracker.py: counters, shapes and queries *)

Module TrackerQueriesSpec.
Import Config KalmanBallTracker TrackerQueries DictFacts PyFacts TrackerSpec
       TrackerInvariants TrackerErrors Scenarios.Tracking.

(** X4.  Every track that a call on a reachable tracker returns has
    [prediction_count] equal to the number of frames since its last
    detection, between 0 and its age, and at most [max_missed_frames]. *)
Theorem returned_tracks_counters cfg k dets k' out :
  reachable cfg k -> update cfg k dets = Py.Ok (k', out) ->
  Forall (fun tr =>
            (prediction_count tr = frame_count k' - last_detection_frame tr /\
             0 <= prediction_count tr <= age tr /\
             prediction_count tr <= max_missed_frames cfg)%Z) out.
Proof.
  intros Hr Hu.
  pose proof (reachable_wf Hr) as Hwf.
  destruct (@update_good _ _ _ _ _ (reachable_good Hr) Hu) as [_ Hgood].
  destruct (@update_inv _ _ _ _ _ Hu) as (k3 & assoc & _ & _ & _ & ->).
  apply Forall_forall. intros tr Hin. apply in_map_iff in Hin.
  destruct Hin as [[id a] [<- Hin]]. cbn [snd].
  rewrite Forall_forall in Hgood. destruct (Hgood _ Hin) as [_ [Hc1 Hc2]].
  cbn [snd] in Hc1, Hc2.
  pose proof (@update_survivor _ _ _ _ _ _ _ Hwf Hu Hin) as Hs.
  repeat split; lia.
Qed.

Lemma returned_tracks_counters_witness :
  Forall (fun tr =>
            (prediction_count tr
               = frame_count (after [first_frame; []]) - last_detection_frame tr /\
             0 <= prediction_count tr <= age tr /\
             prediction_count tr <= max_missed_frames default)%Z)
         (map snd (tracks (after [first_frame; []]))).
Proof.
  apply (@returned_tracks_counters default (after [first_frame]) []
           (after [first_frame; []])
           (map snd (tracks (after [first_frame; []])))).
  - apply (@reach_update default init first_frame (after [first_frame])
             (map snd (tracks (after [first_frame]))) (reach_init default)).
    vm_compute. reflexivity.
  - vm_compute. reflexivity.
Defined.

Lemma tracks_imply_stored_detections_witness :
  exists current, _current_detections (after [first_frame]) = Some current.
Proof.
  apply (@tracks_imply_stored_detections default (after [first_frame])).
  - apply (@reach_update default init first_frame (after [first_frame])
             (map snd (tracks (after [first_frame]))) (reach_init default)).
    vm_compute. reflexivity.
  - vm_compute. discriminate.
Defined.

Lemma update_raises_on_stale_index_witness :
  update default (after [first_frame; []]) second_frame
  = Py.Raise Py.IndexError.
Proof.
  apply (proj1 (@update_raises_on_stale_index default
                  (after [first_frame; []]) second_frame []
                  [(0%Z, 0%nat)] ltac:(vm_compute; reflexivity)
                  ltac:(vm_compute; reflexivity))).
  constructor. simpl. lia.
Defined.

(** X5.  On a reachable tracker the position and velocity queries never
    raise: an unknown identifier gives [None], a known one the position
    [(x + vx * n, y + vy * n)] and the velocity [(vx, vy)] read from the
    four entries of the track's state vector. *)
Theorem queries_defined cfg k id n :
  reachable cfg k ->
  (~ In id (map fst (tracks k)) ->
   get_predicted_position k id n = None /\ get_track_velocity k id = None) /\
  (In id (map fst (tracks k)) ->
   exists track x y vx vy,
     In (id, track) (tracks k) /\ state track = [x; y; vx; vy] /\
     get_predicted_position k id n
       = Some (Py.Ok (x + vx * (inject_Z n * 1), y + vy * (inject_Z n * 1))) /\
     get_track_velocity k id = Some (Py.Ok (vx, vy))).
Proof.
  intros Hr. split.
  - intros Hn. unfold get_predicted_position, get_track_velocity.
    rewrite (dict_get_absent _ _ Hn). auto.
  - intros Hin. destruct (dict_get_present _ _ Hin) as [track Hg].
    pose proof (dict_get_In _ _ Hg) as Hin'.
    pose proof (reachable_good Hr) as Hgood. rewrite Forall_forall in Hgood.
    destruct (Hgood _ Hin') as [[Hlen _] _]. cbn [snd] in Hlen.
    destruct (length_4 _ Hlen) as (x & y & vx & vy & Est).
    exists track, x, y, vx, vy.
    unfold get_predicted_position, get_track_velocity, state_at.
    rewrite Hg, Est. auto.
Qed.

Lemma queries_defined_witness :
  get_predicted_position (after [first_frame]) 0 3
    = Some (Py.Ok (100 + 0 * (inject_Z 3 * 1), 200 + 0 * (inject_Z 3 * 1))) /\
  get_predicted_position (after [first_frame]) 7 3 = None.
Proof.
  assert (Hr : reachable default (after [first_frame])).
  { apply (@reach_update default init first_frame (after [first_frame])
             (map snd (tracks (after [first_frame]))) (reach_init default)).
    vm_compute. reflexivity. }
  split.
  - destruct (proj2 (@queries_defined default (after [first_frame]) 0 3 Hr))
      as (track & x & y & vx & vy & _ & _ & _ & _).
    + vm_compute. left. reflexivity.
    + vm_compute. reflexivity.
  - apply (proj1 (@queries_defined default (after [first_frame]) 7 3 Hr)).
    vm_compute. intros [H|[]]. discriminate.
Defined.

End TrackerQueriesSpec.

(** ** kalman_ball_tracker.py: best track and prediction *)

Module TrackerBestSpec.
Import Config KalmanBallTracker TrackerQueries PyFacts.

Lemma max_by_spec {A} (key : A -> Q) l : forall best,
  In (max_by key best l) (best :: l) /\
  forall x, In x (best :: l) -> key x <= key (max_by key best l).
Proof.
  induction l as [|y l IH]; intros best; simpl.
  - split; [now left|]. intros x [<-|[]]. lra.
  - destruct (IH (if Py.ltb (key best) (key y) then y else best)) as [Hin Hmax].
    split.
    + destruct Hin as [Heq|Hin]; [|auto].
      rewrite <- Heq. destruct (Py.ltb _ _); auto.
    + intros x Hx.
      assert (Hb : key best <= key (max_by key
                     (if Py.ltb (key best) (key y) then y else best) l) /\
                   key y <= key (max_by key
                     (if Py.ltb (key best) (key y) then y else best) l)).
      { pose proof (Hmax _ (or_introl eq_refl)) as H0.
        destruct (Py.ltb (key best) (key y)) eqn:E.
        - apply ltb_lt in E. split; lra.
        - apply ltb_ge in E. split; lra. }
      destruct Hx as [<-|[<-|Hx]]; [apply Hb | apply Hb |].
      apply Hmax. now right.
Qed.

(** X6.  [get_best_track] returns [None] exactly on a tracker without
    tracks; otherwise it returns one of the tracks, and no track has a
    greater confidence. *)
Theorem best_track_is_maximal k :
  (get_best_track k = None <-> tracks k = []) /\
  forall best, get_best_track k = Some best ->
    In best (map snd (tracks k)) /\
    forall track, In track (map snd (tracks k)) ->
                  confidence track <= confidence best.
Proof.
  unfold get_best_track. destruct (tracks k) as [|[id tr] rest]; simpl.
  - split; [tauto|]. discriminate.
  - split; [split; discriminate|].
    intros best [= <-].
    destruct (max_by_spec confidence (map snd rest) tr) as [Hin Hmax].
    split; [exact Hin | exact Hmax].
Qed.

Lemma best_track_is_maximal_witness :
  let k := Scenarios.Tracking.after Scenarios.Tracking.four_frames in
  exists best,
    get_best_track k = Some best /\
    Forall (fun track => confidence track <= confidence best)
           (map snd (tracks k)).
Proof.
  cbv zeta.
  pose proof (proj2 (best_track_is_maximal
                       (Scenarios.Tracking.after
                          Scenarios.Tracking.four_frames))) as H.
  destruct (get_best_track
              (Scenarios.Tracking.after Scenarios.Tracking.four_frames))
    as [best|] eqn:E.
  - exists best. split; [reflexivity|].
    apply Forall_forall. apply (H best eq_refl).
  - vm_compute in E. discriminate.
Defined.

Lemma fold_max_is_max_by {A} (key : A -> Q) l : forall best,
  fold_left Py.max (map key l) (key best) = key (max_by key best l).
Proof.
  induction l as [|y l IH]; intros best; simpl; [reflexivity|].
  rewrite <- IH. f_equal. unfold Py.max. destruct (Py.ltb _ _); reflexivity.
Qed.

Lemma sum_bound m l : forall a,
  Forall (fun v => v <= m) l ->
  fold_left Qplus l a <= a + inject_Z (Z.of_nat (List.length l)) * m.
Proof.
  induction l as [|v l IH]; intros a Hall.
  - cbn [fold_left List.length Z.of_nat]. change (inject_Z 0) with 0. lra.
  - inversion Hall as [|? ? Hv Hl]; subst.
    cbn [fold_left List.length]. specialize (IH (a + v) Hl).
    rewrite Nat2Z.inj_succ. unfold Z.succ. rewrite inject_Z_plus.
    change (inject_Z 1) with 1.
    set (n := inject_Z (Z.of_nat (List.length l))) in *.
    assert (E : a + (n + 1) * m == a + v + n * m + (m - v)) by ring.
    rewrite E. lra.
Qed.

(** X7.  The statistics of a tracker with tracks: [max_confidence] is the
    confidence of the best track, the average confidence does not exceed
    it, and [tracks_predicting] does not exceed [active_tracks], which is
    the number of tracks. *)
Theorem track_statistics_consistent k stats :
  get_track_statistics k = Some stats ->
  active_tracks stats = List.length (tracks k) /\
  (tracks_predicting stats <= active_tracks stats)%nat /\
  avg_confidence stats <= max_confidence stats /\
  exists best, get_best_track k = Some best /\
               max_confidence stats = confidence best.
Proof.
  unfold get_track_statistics, get_best_track.
  destruct (tracks k) as [|[id tr] rest]; [discriminate|].
  change (map snd ((id, tr) :: rest)) with (tr :: map snd rest).
  intros H.
  pose proof (f_equal (fun o => match o with Some s => s | None => stats end) H)
    as E.
  cbv beta iota in E. subst stats. clear H.
  cbn [active_tracks tracks_predicting avg_confidence max_confidence].
  split; [cbn [List.length]; now rewrite length_map|].
  split.
  { etransitivity; [apply filter_length_le|]. now rewrite length_map. }
  rewrite (fold_max_is_max_by confidence (map snd rest) tr).
  split; [|eauto].
  destruct (max_by_spec confidence (map snd rest) tr) as [_ Hmax].
  set (b := max_by confidence tr (map snd rest)) in *.
  set (l := tr :: map snd rest) in *.
  assert (Hall : Forall (fun v => v <= confidence b) (map confidence l)).
  { apply Forall_forall. intros v Hv. apply in_map_iff in Hv.
    destruct Hv as [x [<- Hx]]. now apply Hmax. }
  pose proof (sum_bound 0 Hall) as Hs.
  unfold Py.sum, Py.len.
  assert (Hpos : 0 < inject_Z (Z.of_nat (List.length (map confidence l)))).
  { unfold l. simpl List.length. rewrite Nat2Z.inj_succ.
    replace 0 with (inject_Z 0) by reflexivity. rewrite <- Zlt_Qlt. lia. }
  apply Qle_shift_div_r; [exact Hpos|]. lra.
Qed.

Lemma mat_vec_F x y vx vy :
  exists x' y' vx' vy',
    mat_vec F [x; y; vx; vy] = [x'; y'; vx'; vy'] /\
    x' == x + vx /\ y' == y + vy /\ vx' == vx /\ vy' == vy.
Proof.
  eexists. eexists. eexists. eexists. split; [reflexivity|].
  unfold dot. cbn [combine fold_left fst snd].
  repeat split; rewrite Qred_correct; ring.
Qed.

Lemma predict_state_spec n : forall x y vx vy,
  exists x' y' vx' vy',
    predict_state n [x; y; vx; vy] = [x'; y'; vx'; vy'] /\
    x' == x + vx * inject_Z (Z.of_nat n) /\
    y' == y + vy * inject_Z (Z.of_nat n) /\
    vx' == vx /\ vy' == vy.
Proof.
  induction n as [|n IH]; intros x y vx vy.
  - exists x, y, vx, vy. split; [reflexivity|].
    simpl. repeat split; ring.
  - cbn [predict_state].
    destruct (mat_vec_F x y vx vy) as (x1 & y1 & vx1 & vy1 & -> & Hx & Hy & Hvx & Hvy).
    destruct (IH x1 y1 vx1 vy1) as (x' & y' & vx' & vy' & E & Hx' & Hy' & Hvx' & Hvy').
    exists x', y', vx', vy'. split; [exact E|].
    rewrite Nat2Z.inj_succ. unfold Z.succ. rewrite inject_Z_plus.
    rewrite Hx', Hy', Hvx', Hvy', Hx, Hy, Hvx, Hvy.
    repeat split; simpl inject_Z; ring.
Qed.

(** X8.  The position that [get_predicted_position] gives for [n] frames
    ahead is the position that [n] prediction steps of the filter (the
    state transition [F] of [_predict_tracks]) lead to, for a track with
    a four-entry state. *)
Theorem predicted_position_is_iterated_prediction k id n track p :
  Py.dict_get Z.eqb id (tracks k) = Some track ->
  List.length (state track) = 4%nat ->
  get_predicted_position k id (Z.of_nat n) = Some (Py.Ok p) ->
  exists x y vx vy,
    predict_state n (state track) = [x; y; vx; vy] /\
    x == fst p /\ y == snd p.
Proof.
  intros Hg Hlen. unfold get_predicted_position, state_at. rewrite Hg.
  destruct (TrackerInvariants.length_4 _ Hlen) as (x & y & vx & vy & ->).
  cbn [nth_error Py.bind]. intros [= <-].
  destruct (predict_state_spec n x y vx vy)
    as (x' & y' & vx' & vy' & E & Hx & Hy & _ & _).
  exists x', y', vx', vy'. split; [exact E|].
  cbn [fst snd]. rewrite Hx, Hy. split; ring.
Qed.

Lemma predicted_position_is_iterated_prediction_witness :
  exists x y vx vy,
    predict_state 3 [100; 200; 5; -2] = [x; y; vx; vy] /\
    x == 115 /\ y == 194.
Proof.
  destruct (@predicted_position_is_iterated_prediction
              (mkTracker [(0%Z, mkTrack [100; 200; 5; -2] eye4 1 0 0 0 0)]
                 1 0 None)
              0%Z 3%nat (mkTrack [100; 200; 5; -2] eye4 1 0 0 0 0)
              (100 + 5 * (inject_Z 3 * 1), 200 + -2 * (inject_Z 3 * 1))
              eq_refl eq_refl eq_refl)
    as (x & y & vx & vy & E & Hx & Hy).
  exists x, y, vx, vy. split; [exact E|].
  split; [rewrite Hx | rewrite Hy]; reflexivity.
Defined.

Lemma track_statistics_consistent_witness :
  exists best,
    get_best_track (Scenarios.Tracking.after Scenarios.Tracking.four_frames)
      = Some best /\ track_id best = 0%Z.
Proof.
  destruct (get_track_statistics
              (Scenarios.Tracking.after Scenarios.Tracking.four_frames))
    as [stats|] eqn:E; [|vm_compute in E; discriminate].
  destruct (@track_statistics_consistent _ stats E)
    as (_ & _ & _ & best & Hb & _).
  exists best. split; [exact Hb|].
  vm_compute in Hb. injection Hb as <-. reflexivity.
Defined.

End TrackerBestSpec.

(** ** The stable sort *)

Module SortFacts.
Import PyFacts.

Lemma insert_by_In_iff {A} (key : A -> Q) x y (l : list A) :
  In y (Py.insert_by key x l) <-> y = x \/ In y l.
Proof.
  induction l as [|z l IH]; simpl.
  - split; [intros [<-|[]]; now left | intros [->|[]]; now left].
  - destruct (Py.ltb _ _); simpl; [intuition congruence|].
    rewrite IH. intuition congruence.
Qed.

Lemma sorted_In_iff {A} (key : A -> Q) y (l : list A) :
  In y (Py.sorted key l) <-> In y l.
Proof.
  unfold Py.sorted.
  assert (G : forall acc,
            In y (fold_left (fun acc x => Py.insert_by key x acc) l acc) <->
            In y acc \/ In y l).
  { induction l as [|x l IH]; intros acc; simpl; [tauto|].
    rewrite IH, insert_by_In_iff. intuition congruence. }
  rewrite G. simpl. tauto.
Qed.

Lemma insert_by_sorted {A} (key : A -> Q) x (l : list A) :
  StronglySorted (fun a b => key a <= key b) l ->
  StronglySorted (fun a b => key a <= key b) (Py.insert_by key x l).
Proof.
  induction 1 as [|z l Hs IH Hall]; simpl.
  - repeat constructor.
  - destruct (Py.ltb (key x) (key z)) eqn:E.
    + apply ltb_lt in E. constructor; [now constructor|].
      constructor; [lra|].
      eapply Forall_impl; [|exact Hall]. simpl. intros; lra.
    + apply ltb_ge in E. constructor; [assumption|].
      apply Forall_forall. intros y Hy. apply insert_by_In_iff in Hy.
      destruct Hy as [->|Hy]; [assumption|].
      rewrite Forall_forall in Hall. auto.
Qed.

Lemma sorted_sorted {A} (key : A -> Q) (l : list A) :
  StronglySorted (fun a b => key a <= key b) (Py.sorted key l).
Proof.
  unfold Py.sorted.
  assert (G : forall acc,
            StronglySorted (fun a b => key a <= key b) acc ->
            StronglySorted (fun a b => key a <= key b)
              (fold_left (fun acc x => Py.insert_by key x acc) l acc)).
  { induction l as [|x l IH]; intros acc Hacc; simpl; [assumption|].
    apply IH. now apply insert_by_sorted. }
  apply G. constructor.
Qed.

End SortFacts.

(** ** segment_builder.py: what [finalize] keeps and how much it exports *)

Module FinalizeSpec.
Import Config SegmentBuilder SegmentTools PyFacts ListFacts SortFacts
       SegmentBuilderSpec Scenarios.Segments.

Lemma inside_refl r : inside r r.
Proof. unfold inside. lra. Qed.

Lemma clamp_ranges_In vd r rs :
  In r rs -> tr_start (clamp vd r) < tr_end (clamp vd r) ->
  In (clamp vd r) (clamp_ranges vd rs).
Proof.
  induction rs as [|x rs IH]; simpl; [contradiction|].
  intros [->|Hin] Hlt.
  - unfold clamp in Hlt. cbn [tr_start tr_end] in Hlt.
    apply ltb_lt in Hlt. rewrite Hlt. now left.
  - destruct (Py.ltb _ _); [right|]; auto.
Qed.

Lemma merge_step_cover cfg acc r x :
  (forall m, In m acc -> tr_start m <= tr_start r) ->
  (x = r \/ exists m, In m acc /\ inside x m) ->
  exists m, In m (merge_step cfg acc r) /\ inside x m.
Proof.
  intros Hle Hx. destruct acc as [|lst acc']; simpl.
  - destruct Hx as [->|[m [[] _]]]. exists r. split; [now left|].
    apply inside_refl.
  - destruct (Py.leb _ _).
    + set (new := mkTimeRange (tr_start lst) (Py.max (tr_end lst) (tr_end r))).
      assert (Hend : tr_end lst <= tr_end new /\ tr_end r <= tr_end new).
      { unfold new. cbn [tr_end].
        destruct (max_cases (tr_end lst) (tr_end r)) as [[? ->]|[? ->]]; lra. }
      destruct Hx as [->|[m [[<-|Hin] Hm]]].
      * exists new. split; [now left|]. unfold inside. cbn [tr_start new].
        split; [apply Hle; now left | apply Hend].
      * exists new. split; [now left|]. unfold inside in *.
        cbn [tr_start new]. split; [apply Hm | lra].
      * exists m. split; [now right | assumption].
    + destruct Hx as [->|[m [Hin Hm]]].
      * exists r. split; [now left | apply inside_refl].
      * exists m. split; [now right | assumption].
Qed.

Lemma merge_step_starts cfg acc r r' :
  (forall m, In m acc -> tr_start m <= tr_start r') ->
  tr_start r <= tr_start r' ->
  forall m, In m (merge_step cfg acc r) -> tr_start m <= tr_start r'.
Proof.
  intros Hacc Hr m. destruct acc as [|lst acc']; simpl.
  - intros [<-|[]]. assumption.
  - destruct (Py.leb _ _).
    + intros [<-|Hin]; [cbn [tr_start]; apply (Hacc lst); now left
                       | apply Hacc; now right].
    + intros [<-|Hin]; [assumption | now apply Hacc].
Qed.

Lemma merge_fold_cover cfg rs : forall acc x,
  StronglySorted (fun a b => tr_start a <= tr_start b) rs ->
  (forall m r, In m acc -> In r rs -> tr_start m <= tr_start r) ->
  (In x rs \/ exists m, In m acc /\ inside x m) ->
  exists m, In m (fold_left (merge_step cfg) rs acc) /\ inside x m.
Proof.
  induction rs as [|r rs IH]; intros acc x Hs Hle Hx; simpl.
  - destruct Hx as [[]|Hx]. exact Hx.
  - inversion Hs as [|? ? Hs' Hall]; subst. rewrite Forall_forall in Hall.
    apply IH; [assumption| |].
    + intros m r' Hm Hr'. eapply merge_step_starts; [| |exact Hm].
      * intros m' Hm'. apply Hle; [assumption | now right].
      * now apply Hall.
    + destruct Hx as [[<-|Hin]|Hx]; [right|left; assumption|right].
      * apply merge_step_cover; [|now left].
        intros m Hm. apply Hle; [assumption | now left].
      * apply merge_step_cover; [|now right].
        intros m Hm. apply Hle; [assumption | now left].
Qed.

(** The sorting, merging and filtering steps of [finalize] lose no range
    that is long enough. *)
Lemma merged_cover cfg (clamped_ranges : list TimeRange) x :
  In x clamped_ranges ->
  min_segment_duration cfg <= duration x ->
  exists out,
    In out (filter (fun r => Py.leb (min_segment_duration cfg) (duration r))
                   (merge_ranges cfg (Py.sorted tr_start clamped_ranges))) /\
    inside x out.
Proof.
  intros Hc Hlong.
  apply (sorted_In_iff tr_start) in Hc.
  destruct (@merge_fold_cover cfg (Py.sorted tr_start clamped_ranges)
              [] x (sorted_sorted tr_start _))
    as [m [Hm Hins]]; [intros m r' [] | now left |].
  exists m. split; [|assumption].
  apply filter_In. split.
  - unfold merge_ranges. now apply -> in_rev.
  - apply leb_le. unfold inside in Hins. unfold duration in *. lra.
Qed.

(** X9.  Nothing long enough is lost by [finalize]: every range that the
    builder holds after the call (the open segment included), once cut to
    [[0, video_duration]], if it is not empty and lasts at least
    [min_segment_duration], lies inside one of the returned ranges. *)
Theorem finalize_keeps_long_ranges cfg vd sb r :
  In r (ranges (fst (finalize cfg vd sb))) ->
  tr_start (clamp vd r) < tr_end (clamp vd r) ->
  min_segment_duration cfg <= duration (clamp vd r) ->
  exists out, In out (snd (finalize cfg vd sb)) /\ inside (clamp vd r) out.
Proof.
  unfold finalize. cbv zeta. cbn [fst snd].
  set (rs := ranges _). intros Hin Hne Hlong.
  apply merged_cover; [|exact Hlong].
  apply clamp_ranges_In; assumption.
Qed.

Lemma finalize_keeps_long_ranges_witness :
  exists out,
    In out (snd (finalize default 35 (run default selftest_observations init)))
    /\ inside (clamp 35 (mkTimeRange 1.5 8.3)) out.
Proof.
  apply (@finalize_keeps_long_ranges default 35
           (run default selftest_observations init) (mkTimeRange 1.5 8.3)).
  - vm_compute. left. reflexivity.
  - vm_compute. reflexivity.
  - vm_compute. discriminate.
Defined.

Lemma chain_duration vd l : forall a lo,
  StronglySorted strictly_before l ->
  Forall (fun r => lo <= tr_start r /\ tr_start r <= tr_end r /\
                   tr_end r <= vd) l ->
  l <> [] ->
  fold_left Qplus (map duration l) a <= a + (vd - lo).
Proof.
  induction l as [|r l IH]; intros a lo Hs Hall Hne; [congruence|].
  inversion Hs as [|? ? Hs' Hbefore]; subst.
  inversion Hall as [|? ? Hr Hl]; subst.
  cbn [map fold_left]. destruct l as [|r' l'].
  - simpl. unfold duration. lra.
  - assert (H : fold_left Qplus (map duration (r' :: l')) (a + duration r)
                <= a + duration r + (vd - tr_end r)).
    { apply IH; [assumption| |discriminate].
      rewrite Forall_forall in *. intros x Hx.
      destruct (Hl _ Hx) as (_ & H2 & H3). specialize (Hbefore _ Hx).
      unfold strictly_before in Hbefore. repeat split; lra. }
    unfold duration in *. lra.
Qed.

(** X10.  When [max_segment_gap] is not negative, the ranges that
    [finalize] returns never add up to more than the video: their total
    duration is at most [video_duration] (when any is returned), and the
    coverage that [calculate_export_statistics] reports for them lies
    between 0 and 100 percent. *)
Theorem finalize_coverage_bounded cfg vd sb :
  0 <= max_segment_gap cfg ->
  let out := snd (finalize cfg vd sb) in
  (out <> [] -> export_duration out <= vd) /\
  0 <= coverage_percentage out vd <= 100.
Proof.
  intros Hgap. unfold finalize. cbv zeta. cbn [snd].
  set (rs := ranges _).
  destruct (@merge_ranges_chain cfg vd
              (Py.sorted tr_start (clamp_ranges vd rs)) Hgap) as [Hf Hs].
  { apply sorted_Forall, clamp_ranges_clamped. }
  set (m := merge_ranges cfg _) in *. clearbody m.
  set (keep := fun r => Py.leb (min_segment_duration cfg) (duration r)).
  assert (Hs' : StronglySorted strictly_before (filter keep m))
    by now apply StronglySorted_filter.
  assert (Hf' : Forall (clamped vd) (filter keep m)).
  { rewrite Forall_forall in *. intros r Hr.
    apply filter_In in Hr. apply Hf, Hr. }
  set (out := filter keep m) in *. clearbody out.
  assert (Hsum : out <> [] -> 0 <= export_duration out <= vd).
  { intros Hne. unfold export_duration, Py.sum. split.
    - clear -Hf'. assert (G : forall a, 0 <= a ->
                              0 <= fold_left Qplus (map duration out) a).
      { induction Hf' as [|r l Hr Hl IH]; intros a Ha; simpl; [assumption|].
        apply IH. unfold clamped, duration in *. lra. }
      apply G. lra.
    - pose proof (@chain_duration vd out 0 0 Hs') as H.
      assert (H0 : fold_left Qplus (map duration out) 0 <= 0 + (vd - 0)).
      { apply H; [|assumption].
        eapply Forall_impl; [|exact Hf']. unfold clamped. intros; lra. }
      lra. }
  split; [intros Hne; now apply Hsum|].
  unfold coverage_percentage. destruct out as [|r out']; [lra|].
  destruct (Py.ltb 0 vd) eqn:E; [|lra].
  apply ltb_lt in E.
  destruct Hsum as [H1 H2]; [discriminate|].
  set (s := export_duration (r :: out')) in *.
  assert (H3 : 0 <= s / vd) by (apply Qle_shift_div_l; lra).
  assert (H4 : s / vd <= 1) by (apply Qle_shift_div_r; lra).
  lra.
Qed.

Lemma finalize_coverage_bounded_witness :
  0 <= coverage_percentage
         (snd (finalize default 35 (run default selftest_observations init)))
         35 <= 100.
Proof.
  apply (@finalize_coverage_bounded default 35
           (run default selftest_observations init)).
  vm_compute. discriminate.
Defined.

End FinalizeSpec.

(** ** segment_builder.py: observations, padding and the overlap merge *)

Module SegmentToolsSpec.
Import Config SegmentBuilder SegmentTools PyFacts ListFacts SortFacts
       FinalizeSpec.

(** X11.  [observe] is edge triggered: on a builder without an open
    segment, a first active observation at [t1], any number of further
    active observations and then an inactive one at [te] add exactly one
    range, the padded segment from [t1] to [te], and leave no segment
    open. *)
Theorem observe_run_adds_one_segment cfg sb t1 ts te :
  current_start sb = None ->
  run cfg (Observe true t1 :: map (Observe true) ts ++ [Observe false te]) sb
  = {| current_start := None;
       ranges := ranges (_close_segment cfg t1 te sb) |}.
Proof.
  intros Hc. unfold run. cbn [fold_left].
  set (sb1 := {| current_start := Some t1; ranges := ranges sb |}).
  assert (E1 : do_call cfg sb (Observe true t1) = sb1).
  { cbn [do_call]. unfold observe. rewrite Hc. reflexivity. }
  assert (G : forall l, fold_left (do_call cfg) (map (Observe true) l) sb1
                        = sb1).
  { induction l as [|x l IH]; [reflexivity|]. simpl. exact IH. }
  rewrite E1, fold_left_app, G. reflexivity.
Qed.

Lemma observe_run_adds_one_segment_witness :
  run default [Observe true 2; Observe true 5; Observe false 8] init
  = {| current_start := None;
       ranges := ranges (_close_segment default 2 8 init) |}.
Proof.
  apply (@observe_run_adds_one_segment default init 2 [5] 8).
  reflexivity.
Defined.

(** X12.  With non-negative paddings, [_close_segment] appends one range
    that starts at or after 0 and at most [rally_start_padding] before
    the raw start (at most 0.5 s before it when the raw segment is
    shorter than 2.5 s), and ends [rally_end_padding] after the raw end. *)
Theorem close_segment_padding cfg s e sb :
  0 <= rally_start_padding cfg -> 0 <= rally_end_padding cfg ->
  exists r,
    ranges (_close_segment cfg s e sb) = ranges sb ++ [r] /\
    0 <= tr_start r /\
    (0 <= s -> tr_start r <= s) /\
    s - tr_start r <= rally_start_padding cfg /\
    (e - s < 2.5 -> s - tr_start r <= 0.5) /\
    tr_end r == e + rally_end_padding cfg /\ e <= tr_end r.
Proof.
  intros Hs He. unfold _close_segment. eexists. split; [reflexivity|].
  cbn [tr_start tr_end].
  unfold short_segment_threshold, max_preroll_for_short.
  set (pre := if Py.ltb (e - s) 2.5 then _ else _).
  assert (Hpre : 0 <= pre <= rally_start_padding cfg /\
                 (e - s < 2.5 -> pre <= 0.5)).
  { unfold pre. destruct (Py.ltb (e - s) 2.5) eqn:E.
    - destruct (min_cases (rally_start_padding cfg) 0.5) as [[? ->]|[? ->]];
        split; try lra; intros _; lra.
    - apply ltb_ge in E. split; [lra|]. intros; lra. }
  destruct Hpre as [Hp1 Hp2].
  destruct (max_cases 0 (s - pre)) as [[? ->]|[? ->]].
  - repeat split; intros; try lra; specialize (Hp2 ltac:(assumption)); lra.
  - repeat split; intros; try lra; specialize (Hp2 ltac:(assumption)); lra.
Qed.

Lemma close_segment_padding_witness :
  exists r,
    ranges (_close_segment default 2 8 init) = ranges init ++ [r] /\
    0 <= tr_start r /\
    (0 <= 2 -> tr_start r <= 2) /\
    2 - tr_start r <= rally_start_padding default /\
    (8 - 2 < 2.5 -> 2 - tr_start r <= 0.5) /\
    tr_end r == 8 + rally_end_padding default /\ 8 <= tr_end r.
Proof.
  apply (@close_segment_padding default 2 8 init); vm_compute; discriminate.
Defined.

(** *** [merge_overlapping_segments] *)

Lemma overlap_step_inv acc r :
  valid r -> Forall valid acc ->
  Sorted (fun above below => separated below above) acc ->
  Forall valid (overlap_step acc r) /\
  Sorted (fun above below => separated below above) (overlap_step acc r).
Proof.
  intros Hr Hacc Hs. destruct acc as [|lst acc']; simpl.
  - split; repeat constructor. exact Hr.
  - inversion Hacc as [|? ? Hlst Hacc']; subst.
    inversion Hs as [|? ? Hs' Hhd]; subst.
    destruct (Py.leb _ _) eqn:E.
    + split.
      * constructor; [|assumption]. unfold valid in *. cbn [tr_start tr_end].
        destruct (max_cases (tr_end lst) (tr_end r)) as [[? ->]|[? ->]]; lra.
      * constructor; [assumption|].
        inversion Hhd; subst; constructor. unfold separated in *.
        cbn [tr_start]. assumption.
    + apply leb_gt in E. split; [constructor; assumption|].
      constructor; [assumption|]. constructor. exact E.
Qed.

Lemma overlap_fold_inv rs : forall acc,
  Forall valid rs -> Forall valid acc ->
  Sorted (fun above below => separated below above) acc ->
  Forall valid (fold_left overlap_step rs acc) /\
  Sorted (fun above below => separated below above)
         (fold_left overlap_step rs acc).
Proof.
  induction rs as [|r rs IH]; intros acc Hrs Hacc Hs; simpl; [auto|].
  inversion Hrs as [|? ? Hr Hrs']; subst.
  destruct (@overlap_step_inv acc r Hr Hacc Hs) as [H1 H2]. now apply IH.
Qed.

Lemma overlap_step_cover acc r x :
  acc <> [] ->
  (forall m, In m acc -> tr_start m <= tr_start r) ->
  (x = r \/ exists m, In m acc /\ inside x m) ->
  overlap_step acc r <> [] /\
  exists m, In m (overlap_step acc r) /\ inside x m.
Proof.
  intros Hne Hle Hx. destruct acc as [|lst acc']; [congruence|]. simpl.
  destruct (Py.leb _ _).
  - split; [discriminate|].
    set (new := mkTimeRange (tr_start lst) (Py.max (tr_end lst) (tr_end r))).
    assert (Hend : tr_end lst <= tr_end new /\ tr_end r <= tr_end new).
    { unfold new. cbn [tr_end].
      destruct (max_cases (tr_end lst) (tr_end r)) as [[? ->]|[? ->]]; lra. }
    destruct Hx as [->|[m [[<-|Hin] Hm]]].
    + exists new. split; [now left|]. unfold inside. cbn [tr_start new].
      split; [apply Hle; now left | apply Hend].
    + exists new. split; [now left|]. unfold inside in *.
      cbn [tr_start new]. split; [apply Hm | lra].
    + exists m. split; [now right | assumption].
  - split; [discriminate|]. destruct Hx as [->|[m [Hin Hm]]].
    + exists r. split; [now left | apply inside_refl].
    + exists m. split; [now right | assumption].
Qed.

Lemma overlap_step_starts acc r r' :
  (forall m, In m acc -> tr_start m <= tr_start r') ->
  tr_start r <= tr_start r' ->
  forall m, In m (overlap_step acc r) -> tr_start m <= tr_start r'.
Proof.
  intros Hacc Hr m. destruct acc as [|lst acc']; simpl.
  - intros [<-|[]]. assumption.
  - destruct (Py.leb _ _).
    + intros [<-|Hin]; [cbn [tr_start]; apply (Hacc lst); now left
                       | apply Hacc; now right].
    + intros [<-|Hin]; [assumption | now apply Hacc].
Qed.

Lemma overlap_fold_cover rs : forall acc x,
  acc <> [] ->
  StronglySorted (fun a b => tr_start a <= tr_start b) rs ->
  (forall m r, In m acc -> In r rs -> tr_start m <= tr_start r) ->
  (In x rs \/ exists m, In m acc /\ inside x m) ->
  exists m, In m (fold_left overlap_step rs acc) /\ inside x m.
Proof.
  induction rs as [|r rs IH]; intros acc x Hne Hs Hle Hx; simpl.
  - destruct Hx as [[]|Hx]. exact Hx.
  - inversion Hs as [|? ? Hs' Hall]; subst. rewrite Forall_forall in Hall.
    assert (Hacc : forall m, In m acc -> tr_start m <= tr_start r).
    { intros m Hm. apply Hle; [assumption | now left]. }
    apply IH; [| assumption | |].
    + now destruct (@overlap_step_cover acc r r Hne Hacc (or_introl eq_refl)).
    + intros m r' Hm Hr'. eapply overlap_step_starts; [| |exact Hm].
      * intros m' Hm'. apply Hle; [assumption | now right].
      * now apply Hall.
    + destruct Hx as [[<-|Hin]|Hx]; [right|left; assumption|right].
      * now destruct (@overlap_step_cover acc r r Hne Hacc
                        (or_introl eq_refl)).
      * now destruct (@overlap_step_cover acc r x Hne Hacc (or_intror Hx)).
Qed.

(** X13.  [merge_overlapping_segments], on ranges with [start <= end]:
    the result is strictly increasing - each range ends before the next
    one starts - its ranges have [start <= end], every given range lies
    inside one of them, and it is empty only for the empty list. *)
Theorem merge_overlapping_segments_spec segments :
  Forall valid segments ->
  let out := merge_overlapping_segments segments in
  StronglySorted (fun a b => tr_end a < tr_start b) out /\
  Forall valid out /\
  (forall r, In r segments -> exists m, In m out /\ inside r m) /\
  (out = [] -> segments = []).
Proof.
  intros Hv. unfold merge_overlapping_segments.
  pose proof (sorted_sorted tr_start segments) as Hs.
  assert (Hv' : Forall valid (Py.sorted tr_start segments)).
  { apply Forall_forall. intros r Hr. apply sorted_In_iff in Hr.
    rewrite Forall_forall in Hv. auto. }
  assert (Hin : forall r, In r segments <-> In r (Py.sorted tr_start segments))
    by (intros r; symmetry; apply sorted_In_iff).
  destruct (Py.sorted tr_start segments) as [|first rest].
  - cbv zeta. split; [constructor|]. split; [constructor|]. split.
    + intros r Hr. apply Hin in Hr. destruct Hr.
    + intros _. destruct segments as [|x l]; [reflexivity|].
      exfalso. apply (proj1 (Hin x)). now left.
  - cbv zeta. inversion Hv' as [|? ? Hf Hrest]; subst.
    inversion Hs as [|? ? Hs' Hall]; subst.
    destruct (@overlap_fold_inv rest [first] Hrest) as [Hval Hsort].
    { now constructor. }
    { repeat constructor. }
    set (acc := fold_left overlap_step rest [first]) in *.
    split; [|split; [|split]].
    + apply StronglySorted_rev.
      assert (Hs2 : Sorted (fun above below =>
                      tr_end below < tr_start above /\ valid above) acc).
      { clear -Hval Hsort. induction Hsort as [|x l Hl IH Hhd]; [constructor|].
        inversion Hval as [|? ? Hx Hl']; subst.
        constructor; [auto|].
        destruct Hhd; constructor. unfold separated in *. auto. }
      apply Sorted_StronglySorted in Hs2.
      * eapply StronglySorted_impl with (P := fun _ => True);
          [|apply Forall_forall; auto|exact Hs2].
        intros a b _ _ [H _]. exact H.
      * intros a b c [Hab Ha] [Hbc Hb]. unfold valid in *. split; lra.
    + now apply Forall_rev.
    + intros r Hr. apply Hin in Hr.
      destruct (@overlap_fold_cover rest [first] r) as [m [Hm Hi]].
      * discriminate.
      * assumption.
      * intros m r' [<-|[]] Hr'. rewrite Forall_forall in Hall. auto.
      * destruct Hr as [<-|Hr]; [right|left; assumption].
        exists first. split; [now left | apply inside_refl].
      * exists m. split; [now apply -> in_rev | assumption].
    + intros Hnil. exfalso.
      destruct (@overlap_fold_cover rest [first] first) as [m [Hm _]].
      * discriminate.
      * assumption.
      * intros m r' [<-|[]] Hr'. rewrite Forall_forall in Hall. auto.
      * right. exists first. split; [now left | apply inside_refl].
      * fold acc in Hm. apply in_rev in Hm. rewrite Hnil in Hm. destruct Hm.
Qed.

Lemma merge_overlapping_segments_spec_witness :
  StronglySorted (fun a b => tr_end a < tr_start b)
    (merge_overlapping_segments
       [mkTimeRange 5 9; mkTimeRange 0 3; mkTimeRange 2 6; mkTimeRange 12 13]).
Proof.
  apply (@merge_overlapping_segments_spec
           [mkTimeRange 5 9; mkTimeRange 0 3; mkTimeRange 2 6; mkTimeRange 12 13]).
  repeat constructor; unfold valid; simpl; lra.
Defined.

End SegmentToolsSpec.


(** * rally_decider.py: the state diagram, the event log and the rallies *)

Module RallyRunsSpec.
Import Config RallyDecider RallyRuns PyFacts Scenarios.Rally.

Lemma state_eqb_eq a b : state_eqb a b = true <-> a = b.
Proof. destruct a, b; simpl; split; congruence. Qed.

Lemma determine_allowed cfg rc c d :
  allowed (current_state d) (_determine_new_state cfg rc c d) = true.
Proof.
  unfold _determine_new_state. destruct (current_state d);
    repeat match goal with
           | |- context [if ?b then _ else _] => destruct b
           end; reflexivity.
Qed.

Lemma rally_confidence_unit c d : 0 <= _calculate_rally_confidence c d <= 1.
Proof.
  unfold _calculate_rally_confidence. cbv zeta.
  match goal with |- context [Py.min 1 ?x] => generalize x; intro v end.
  destruct (min_cases 1 v) as [[H1 E1]|[H1 E1]]; rewrite E1;
    match goal with |- context [Py.max 0 ?y] =>
      destruct (max_cases 0 y) as [[H2 E2]|[H2 E2]]; rewrite E2
    end; lra.
Qed.

Lemma update_decide cfg c d :
  update cfg c d
  = decide cfg (_calculate_rally_confidence c (tracked cfg c d)) c
      (tracked cfg c d).
Proof. reflexivity. Qed.

Lemma decide_completed cfg rc c d :
  completed_rallies (decide cfg rc c d) = completed_rallies d \/
  current_state d = ACTIVE /\
  _determine_new_state cfg rc c d = ENDING /\
  exists r, ended_rally cfg (current_time c) d = Some r /\
            completed_rallies (decide cfg rc c d) = completed_rallies d ++ [r].
Proof.
  unfold decide. cbn [_update_rally_tracking completed_rallies].
  pose proof (determine_allowed cfg rc c d) as Ha.
  destruct (state_eqb _ _) eqn:E; [left; reflexivity|].
  cbn [_transition_to_state completed_rallies].
  destruct (current_state d) eqn:Hs;
    destruct (_determine_new_state cfg rc c d) eqn:Hn;
    simpl in Ha, E; try discriminate; simpl; try (left; reflexivity).
  destruct (ended_rally cfg (current_time c) d) as [r|] eqn:Hr.
  - right. split; [reflexivity|]. split; [reflexivity|].
    exists r. split; reflexivity.
  - left. reflexivity.
Qed.

(** X14.  One call of [update] moves the decider along an arrow of the
    state diagram (IDLE to POTENTIAL; POTENTIAL to ACTIVE or IDLE; ACTIVE
    to ENDING; ENDING to ACTIVE or IDLE) or leaves the state as it is -
    never from IDLE to ACTIVE - and the list of completed rallies either
    stays as it is or gets one rally appended, the latter only on the
    step from ACTIVE to ENDING. *)
Theorem update_follows_diagram cfg c d :
  allowed (current_state d) (current_state (update cfg c d)) = true /\
  (completed_rallies (update cfg c d) = completed_rallies d \/
   current_state d = ACTIVE /\
   current_state (update cfg c d) = ENDING /\
   exists r, completed_rallies (update cfg c d) = completed_rallies d ++ [r]).
Proof.
  rewrite update_decide. rewrite RallyDeciderSpec.decide_current_state.
  split.
  - apply (determine_allowed cfg _ c (tracked cfg c d)).
  - destruct (decide_completed cfg
                (_calculate_rally_confidence c (tracked cfg c d)) c
                (tracked cfg c d)) as [H|(Hs & Hn & r & _ & Hr)].
    + left. exact H.
    + right. split; [exact Hs|]. split; [exact Hn|]. exists r. exact Hr.
Qed.

(** X15.  Hysteresis: while the time since the last detection is within
    [max_gap_in_rally], an ACTIVE decider stays ACTIVE whatever the
    confidence of the frame; the call logs no event, completes no rally
    and counts the frame in the tally of the current rally. *)
Theorem active_holds_within_gap cfg c d :
  current_state d = ACTIVE ->
  time_since_last_detection c <= max_gap_in_rally cfg ->
  current_state (update cfg c d) = ACTIVE /\
  state_change_events (update cfg c d) = state_change_events d /\
  completed_rallies (update cfg c d) = completed_rallies d /\
  current_rally_confidence_count (update cfg c d)
  = (current_rally_confidence_count d + 1)%Z.
Proof.
  intros Hs Hgap. rewrite update_decide.
  set (d2 := tracked cfg c d). set (rc := _calculate_rally_confidence c d2).
  assert (Hn : _determine_new_state cfg rc c d2 = ACTIVE).
  { apply RallyDeciderSpec.active_stays; [exact Hs | right; exact Hgap]. }
  split; [rewrite RallyDeciderSpec.decide_current_state; exact Hn|].
  unfold decide. rewrite Hn.
  change (current_state d2) with (current_state d). rewrite Hs.
  cbn [state_eqb _update_rally_tracking state_change_events completed_rallies
       current_rally_confidence_count].
  change (current_state d2) with (current_state d). rewrite Hs.
  split; [reflexivity|]. split; reflexivity.
Qed.

Lemma active_holds_within_gap_witness :
  let d := fst (run default [ctx 0 1 1 20 0; ctx 1 1 1 20 0] init) in
  let c := ctx 2 0 0 0 1 in
  current_state (update default c d) = ACTIVE /\
  state_change_events (update default c d) = state_change_events d /\
  completed_rallies (update default c d) = completed_rallies d /\
  current_rally_confidence_count (update default c d)
  = (current_rally_confidence_count d + 1)%Z.
Proof.
  cbv zeta.
  apply (@active_holds_within_gap default (ctx 2 0 0 0 1)
           (fst (run default [ctx 0 1 1 20 0; ctx 1 1 1 20 0] init))).
  - vm_compute. reflexivity.
  - vm_compute. discriminate.
Defined.

End RallyRunsSpec.


(** * rally_decider.py: what holds of every decider a client can hold *)

Module RallyInvariants.
Import Config RallyDecider RallyRuns PyFacts Scenarios.Rally.

Lemma run_reachable cfg cs : forall d,
  reachable cfg d -> reachable cfg (fst (run cfg cs d)).
Proof.
  induction cs as [|c cs IH]; intros d Hd; [exact Hd|].
  cbn [run]. specialize (IH (update cfg c d) (reach_update c Hd)).
  destruct (run cfg cs (update cfg c d)) as [d' states]. exact IH.
Qed.

(** *** The event log *)

Lemma replay_app es : forall s s' e,
  replay s es = Some s' ->
  replay s (es ++ [e])
  = if state_eqb (ev_old_state e) s' && negb (state_eqb (ev_new_state e) s')
       && allowed s' (ev_new_state e)
    then Some (ev_new_state e) else None.
Proof.
  induction es as [|x es IH]; intros s s' e H.
  - simpl in H. injection H as <-. simpl.
    destruct (_ && _); reflexivity.
  - cbn [app replay] in *.
    destruct (state_eqb (ev_old_state x) s && _ && _); [|discriminate].
    apply IH. exact H.
Qed.

Lemma state_eqb_refl s : state_eqb s s = true.
Proof. destruct s; reflexivity. Qed.

Lemma decide_replay cfg rc c d :
  replay IDLE (state_change_events d) = Some (current_state d) ->
  replay IDLE (state_change_events (decide cfg rc c d))
  = Some (current_state (decide cfg rc c d)).
Proof.
  intros H. rewrite RallyDeciderSpec.decide_current_state.
  pose proof (RallyRunsSpec.determine_allowed cfg rc c d) as Ha.
  unfold decide. cbn [_update_rally_tracking state_change_events].
  destruct (state_eqb _ _) eqn:E.
  - apply RallyRunsSpec.state_eqb_eq in E. rewrite E. exact H.
  - cbn [_transition_to_state state_change_events].
    rewrite replay_app with (s' := current_state d) by exact H. cbn [ev_old_state ev_new_state].
    rewrite state_eqb_refl, E, Ha. reflexivity.
Qed.

(** X16.  The event log of a decider replays to its current state: read
    from IDLE, every logged event starts in the state the previous one
    ended in, changes the state along an arrow of the state diagram, and
    the last one ends in [current_state]. *)
Theorem event_log_replays cfg d :
  reachable cfg d ->
  replay IDLE (state_change_events d) = Some (current_state d).
Proof.
  induction 1 as [|d c Hd IH|d Hd IH].
  - reflexivity.
  - rewrite RallyRunsSpec.update_decide. apply decide_replay. exact IH.
  - reflexivity.
Qed.

Lemma event_log_replays_witness :
  let d := fst (run default second_video init) in
  replay IDLE (state_change_events d) = Some (current_state d).
Proof.
  cbv zeta.
  apply (@event_log_replays default (fst (run default second_video init))).
  apply run_reachable. apply reach_init.
Defined.

(** *** The tallies of the current rally and the recorded rallies *)

Lemma tracking_tallies rc d :
  0 <= rc <= 1 -> tallies_ok d -> tallies_ok (_update_rally_tracking rc d).
Proof.
  intros Hrc (Hc & Hs & Hsm & Hm & Hk).
  unfold tallies_ok.
  cbn [_update_rally_tracking current_rally_confidence_count
       current_rally_confidence_sum current_rally_max_confidence
       estimated_contacts].
  destruct (state_eqb (current_state d) ACTIVE).
  - assert (Hi : 0 <= inject_Z (current_rally_confidence_count d)).
    { change 0 with (inject_Z 0). rewrite <- Zle_Qle. exact Hc. }
    rewrite inject_Z_plus. change (inject_Z 1) with 1.
    set (n := inject_Z (current_rally_confidence_count d)) in *.
    set (s := current_rally_confidence_sum d) in *.
    set (m := current_rally_max_confidence d) in *.
    destruct (max_cases m rc) as [[Hlt E]|[Hge E]]; rewrite E.
    + split; [lia|]. split; [lra|]. split; [nra|]. split; [lra|exact Hk].
    + split; [lia|]. split; [lra|]. split; [nra|]. split; [lra|exact Hk].
  - split; [exact Hc|]. split; [exact Hs|]. split; [exact Hsm|].
    split; [exact Hm|exact Hk].
Qed.

Lemma transition_tallies cfg s rc ts d :
  tallies_ok d -> tallies_ok (_transition_to_state cfg s rc ts d).
Proof.
  intros (Hc & Hs & Hsm & Hm & Hk). unfold tallies_ok.
  cbn [_transition_to_state current_rally_confidence_count
       current_rally_confidence_sum current_rally_max_confidence
       estimated_contacts].
  destruct (state_eqb s ACTIVE && negb (state_eqb (current_state d) ACTIVE)).
  - split; [lia|]. split; [lra|]. split; [simpl; lra|].
    split; [lra|lia].
  - split; [exact Hc|]. split; [exact Hs|]. split; [exact Hsm|].
    split; [exact Hm|exact Hk].
Qed.

Lemma tracked_tallies cfg c d : tallies_ok d -> tallies_ok (tracked cfg c d).
Proof.
  intros (Hc & Hs & Hsm & Hm & Hk). unfold tallies_ok, tracked.
  cbn [_update_velocity_tracking _update_confidence_history
       current_rally_confidence_count current_rally_confidence_sum
       current_rally_max_confidence estimated_contacts].
  split; [exact Hc|]. split; [exact Hs|]. split; [exact Hsm|].
  split; [exact Hm|]. destruct (contact_detected _ _ _); lia.
Qed.

Lemma decide_tallies cfg rc c d :
  0 <= rc <= 1 -> tallies_ok d -> tallies_ok (decide cfg rc c d).
Proof.
  intros Hrc Hd. unfold decide. apply tracking_tallies; [exact Hrc|].
  destruct (state_eqb _ _); [exact Hd|]. apply transition_tallies. exact Hd.
Qed.

Lemma update_tallies cfg c d : tallies_ok d -> tallies_ok (update cfg c d).
Proof.
  intros Hd. rewrite RallyRunsSpec.update_decide.
  apply decide_tallies; [apply RallyRunsSpec.rally_confidence_unit|].
  apply tracked_tallies. exact Hd.
Qed.

Lemma reset_tallies d : tallies_ok d -> tallies_ok (reset d).
Proof.
  intros (Hc & Hs & Hsm & Hm & Hk). unfold tallies_ok.
  cbn [reset current_rally_confidence_count current_rally_confidence_sum
       current_rally_max_confidence estimated_contacts].
  split; [exact Hc|]. split; [exact Hs|]. split; [exact Hsm|].
  split; [exact Hm|lia].
Qed.

Lemma reachable_tallies cfg d : reachable cfg d -> tallies_ok d.
Proof.
  induction 1 as [|d c Hd IH|d Hd IH].
  - unfold tallies_ok. simpl. split; [lia|]. split; [lra|]. split; [lra|].
    split; [lra|lia].
  - apply update_tallies. exact IH.
  - apply reset_tallies. exact IH.
Qed.

(** What the theorem on recorded rallies says of one rally. *)
Lemma ended_rally_ok cfg ts d r :
  tallies_ok d -> ended_rally cfg ts d = Some r ->
  rally_ok cfg r /\
  (0 <= min_rally_duration cfg -> 0 <= quality_score r <= 1).
Proof.
  intros (Hc & Hs & Hsm & Hm & Hk) H. unfold ended_rally in H.
  destruct (0 <? current_rally_confidence_count d)%Z eqn:Hpos; [|discriminate].
  destruct (Py.leb _ _) eqn:Hdur; [|discriminate].
  apply Z.ltb_lt in Hpos. apply leb_le in Hdur.
  assert (Hi : 0 < inject_Z (current_rally_confidence_count d)).
  { change 0 with (inject_Z 0). rewrite <- Zlt_Qlt. exact Hpos. }
  assert (Hk' : 0 <= inject_Z (estimated_contacts d)).
  { change 0 with (inject_Z 0). rewrite <- Zle_Qle. exact Hk. }
  assert (Havg0 : 0 <= current_rally_confidence_sum d
                       / inject_Z (current_rally_confidence_count d)).
  { apply Qle_shift_div_l; [exact Hi|]. lra. }
  assert (Havg1 : current_rally_confidence_sum d
                  / inject_Z (current_rally_confidence_count d)
                  <= current_rally_max_confidence d).
  { apply Qle_shift_div_r; [exact Hi|]. lra. }
  injection H as <-. unfold rally_ok.
  cbn [rp_duration end_time start_time avg_confidence max_confidence
       rp_estimated_contacts quality_score].
  split.
  - split; [reflexivity|]. split; [exact Hdur|]. split; [split; assumption|].
    split; [lra|exact Hk].
  - intros Hmin. unfold _calculate_rally_quality. cbv zeta.
    set (avg := current_rally_confidence_sum d
                / inject_Z (current_rally_confidence_count d)) in *.
    set (dur := ts - current_rally_start d) in *.
    set (k := inject_Z (estimated_contacts d)) in *.
    assert (Hd10 : 0 <= dur / 10).
    { apply Qle_shift_div_l; [reflexivity|]. lra. }
    assert (Hk10 : 0 <= k / 10).
    { apply Qle_shift_div_l; [reflexivity|]. lra. }
    destruct (min_cases 1 (dur / 10)) as [[H1 E1]|[H1 E1]]; rewrite E1;
      destruct (min_cases 1 (k / 10)) as [[H2 E2]|[H2 E2]]; rewrite E2;
      revert Hd10 Hk10 H1 H2; generalize (dur / 10) (k / 10); intros; lra.
Qed.

Lemma decide_recorded cfg rc c d :
  tallies_ok d ->
  Forall (recorded_ok cfg) (completed_rallies d) ->
  Forall (recorded_ok cfg) (completed_rallies (decide cfg rc c d)).
Proof.
  intros Ht Hd.
  destruct (RallyRunsSpec.decide_completed cfg rc c d)
    as [H|(_ & _ & r & Hr & H)]; rewrite H; [exact Hd|].
  apply Forall_app. split; [exact Hd|].
  constructor; [|constructor]. exact (@ended_rally_ok cfg _ _ _ Ht Hr).
Qed.

Lemma reachable_recorded cfg d :
  reachable cfg d -> Forall (recorded_ok cfg) (completed_rallies d).
Proof.
  induction 1 as [|d c Hd IH|d Hd IH].
  - constructor.
  - rewrite RallyRunsSpec.update_decide. apply decide_recorded.
    + apply tracked_tallies. apply (@reachable_tallies cfg). exact Hd.
    + exact IH.
  - constructor.
Qed.

(** X17.  Every rally that a decider has recorded lasted at least
    [min_rally_duration]; its duration is its end minus its start; its
    average confidence lies between 0 and its maximum confidence, which
    is at most 1; its contact estimate is not negative; and, when
    [min_rally_duration] is not negative, its quality score lies in
    [[0, 1]]. *)
Theorem recorded_rallies_wellformed cfg d r :
  reachable cfg d -> In r (completed_rallies d) ->
  rally_ok cfg r /\
  (0 <= min_rally_duration cfg -> 0 <= quality_score r <= 1).
Proof.
  intros Hd Hr.
  pose proof (@reachable_recorded cfg d Hd) as H.
  rewrite Forall_forall in H. exact (H r Hr).
Qed.

(** *** The two bounded histories *)

Lemma append_bounded_length {A} (b : nat) (l : list A) (x : A) :
  (List.length l <= b)%nat ->
  (List.length (append_bounded b l x) <= b)%nat.
Proof.
  intros H. unfold append_bounded.
  assert (E : List.length (l ++ [x]) = S (List.length l)).
  { rewrite length_app. simpl. lia. }
  destruct (b <? List.length (l ++ [x]))%nat eqn:Hb.
  - destruct (l ++ [x]); simpl in *; lia.
  - apply Nat.ltb_ge in Hb. exact Hb.
Qed.

(** X18.  The confidence history of a decider never holds more than 100
    samples and its velocity history never more than 50. *)
Theorem histories_bounded cfg d :
  reachable cfg d ->
  (List.length (rally_confidence_history d) <= 100)%nat /\
  (List.length (velocity_history d) <= 50)%nat.
Proof.
  induction 1 as [|d c Hd [IH1 IH2]|d Hd [IH1 IH2]].
  - simpl. split; lia.
  - rewrite RallyRunsSpec.update_decide. unfold decide.
    cbn [_update_rally_tracking rally_confidence_history velocity_history].
    assert (H1 : (List.length (rally_confidence_history (tracked cfg c d))
                  <= 100)%nat).
    { unfold tracked.
      cbn [_update_velocity_tracking _update_confidence_history
           rally_confidence_history].
      apply append_bounded_length. exact IH1. }
    assert (H2 : (List.length (velocity_history (tracked cfg c d))
                  <= 50)%nat).
    { unfold tracked.
      cbn [_update_velocity_tracking _update_confidence_history
           velocity_history].
      apply append_bounded_length. exact IH2. }
    destruct (state_eqb _ _); [split; assumption|].
    cbn [_transition_to_state rally_confidence_history velocity_history].
    split; assumption.
  - cbn [reset rally_confidence_history velocity_history].
    split; [simpl; lia | exact IH2].
Qed.

Lemma recorded_rallies_wellformed_witness :
  let d := fst (run default second_video init) in
  let r := nth 0 (completed_rallies d) (mkPeriod 0 0 0 0 0 0 0) in
  rally_ok default r /\
  (0 <= min_rally_duration default -> 0 <= quality_score r <= 1).
Proof.
  cbv zeta.
  apply (@recorded_rallies_wellformed default
           (fst (run default second_video init))).
  - apply run_reachable. apply reach_init.
  - vm_compute. left. reflexivity.
Defined.

Lemma histories_bounded_witness :
  let d := fst (run default second_video init) in
  (List.length (rally_confidence_history d) <= 100)%nat /\
  (List.length (velocity_history d) <= 50)%nat.
Proof.
  cbv zeta.
  apply (@histories_bounded default (fst (run default second_video init))).
  apply run_reachable. apply reach_init.
Defined.

End RallyInvariants.


(** * advanced_processor.py: the decider inside the pipeline *)

Module PipelineSpec.
Import Config RallyDecider RallyRuns Pipeline PyFacts Scenarios.Rally.

Lemma build_context_gap sqrt ts dets trs pv c :
  _build_rally_context sqrt ts dets trs pv = Py.Ok c ->
  current_time c = ts /\
  (time_since_last_detection c = 0 \/ time_since_last_detection c = 0.5) /\
  (time_since_last_detection c = 0 <-> dets <> []).
Proof.
  unfold _build_rally_context, Py.bind.
  destruct trs as [|tr rest].
  - intros [= <-]. cbn. split; [reflexivity|].
    destruct dets; (split; [auto|]); split; congruence.
  - destruct (TrackerQueries.state_at _ 2); [|discriminate].
    destruct (TrackerQueries.state_at _ 3); [|discriminate].
    intros [= <-]. cbn. split; [reflexivity|].
    destruct dets; (split; [auto|]); split; congruence.
Qed.

Lemma active_step_quiet cfg c d :
  current_state d = ACTIVE ->
  time_since_last_detection c <= max_gap_in_rally cfg ->
  current_state (update cfg c d) = ACTIVE /\
  completed_rallies (update cfg c d) = completed_rallies d.
Proof.
  intros Hs Hgap. rewrite RallyRunsSpec.update_decide.
  set (d2 := tracked cfg c d). set (rc := _calculate_rally_confidence c d2).
  assert (Hn : _determine_new_state cfg rc c d2 = ACTIVE).
  { apply RallyDeciderSpec.active_stays; [exact Hs | right; exact Hgap]. }
  split; [rewrite RallyDeciderSpec.decide_current_state; exact Hn|].
  destruct (RallyRunsSpec.decide_completed cfg rc c d2)
    as [H|(_ & Hn' & _)]; [exact H | congruence].
Qed.

(** X19.  In the pipeline the time since the last detection is 0 on a
    frame with a detection and 0.5 s on a frame without one.  So with
    [max_gap_in_rally] of 0.5 s or more - the default is 1 s - a decider
    that is ACTIVE answers ACTIVE on every later frame of the video,
    whatever the frames hold, and records no rally. *)
Theorem pipeline_rally_never_ends sqrt cfg contexts : forall d,
  0.5 <= max_gap_in_rally cfg ->
  current_state d = ACTIVE ->
  Forall (built sqrt) contexts ->
  Forall (eq ACTIVE) (snd (run cfg contexts d)) /\
  current_state (fst (run cfg contexts d)) = ACTIVE /\
  completed_rallies (fst (run cfg contexts d)) = completed_rallies d.
Proof.
  induction contexts as [|c cs IH]; intros d Hgap Hs Hb.
  - cbn. split; [constructor|]. split; [exact Hs|reflexivity].
  - inversion Hb as [|? ? (ts & dets & trs & pv & Hc) Hcs]; subst.
    destruct (build_context_gap _ _ _ _ _ Hc) as (_ & Hg & _).
    assert (Hle : time_since_last_detection c <= max_gap_in_rally cfg).
    { destruct Hg as [-> | ->]; lra. }
    destruct (active_step_quiet cfg c d Hs Hle) as [Hs' Hr'].
    destruct (IH (update cfg c d) Hgap Hs' Hcs) as (H1 & H2 & H3).
    cbn [run]. destruct (run cfg cs (update cfg c d)) as [d' states].
    cbn [fst snd] in *. split; [|split].
    + constructor; [symmetry; exact Hs'|exact H1].
    + exact H2.
    + rewrite H3. exact Hr'.
Qed.

Lemma pipeline_rally_never_ends_witness :
  let d := fst (run default [ctx 0 1 1 20 0; ctx 1 1 1 20 0] init) in
  let silent := {| current_time := 2; detection_confidence := 0;
                   tracking_confidence := 0; physics_validation := None;
                   velocity_magnitude := 0; time_since_last_detection := 0.5;
                   consecutive_detections := 0 |} in
  let cs := [silent; silent; silent] in
  Forall (eq ACTIVE) (snd (run default cs d)) /\
  current_state (fst (run default cs d)) = ACTIVE /\
  completed_rallies (fst (run default cs d)) = completed_rallies d.
Proof.
  cbv zeta.
  apply (@pipeline_rally_never_ends (fun x => x) default).
  - vm_compute. discriminate.
  - vm_compute. reflexivity.
  - repeat constructor; exists 2, [], [], None; reflexivity.
Defined.

End PipelineSpec.


(** * ballistics_gate.py: the component scores *)

Module BallisticsScores.
Import Config BallisticsGate PyFacts.

Lemma clamp_unit v : 0 <= Py.max 0 (Py.min 1 v) <= 1.
Proof.
  destruct (min_cases 1 v) as [[H1 E1]|[H1 E1]]; rewrite E1;
    match goal with |- context [Py.max 0 ?y] =>
      destruct (max_cases 0 y) as [[H2 E2]|[H2 E2]]; rewrite E2
    end; lra.
Qed.

Lemma ratio_unit (a b : Z) :
  (0 <= a <= b)%Z -> (0 < b)%Z -> 0 <= inject_Z a / inject_Z b <= 1.
Proof.
  intros [Ha Hab] Hb.
  assert (Hb' : 0 < inject_Z b).
  { change 0 with (inject_Z 0). rewrite <- Zlt_Qlt. exact Hb. }
  assert (Ha' : 0 <= inject_Z a).
  { change 0 with (inject_Z 0). rewrite <- Zle_Qle. exact Ha. }
  assert (Hab' : inject_Z a <= inject_Z b) by (rewrite <- Zle_Qle; exact Hab).
  split.
  - apply Qle_shift_div_l; [exact Hb'|]. lra.
  - apply Qle_shift_div_r; [exact Hb'|]. lra.
Qed.

Section Numerics.

Variable sqrt : Q -> Q.

Lemma velocity_step_counts cfg ppm m v t pq m' v' t' :
  velocity_step sqrt cfg ppm (m, v, t) pq = Py.Ok (m', v', t') ->
  (0 <= v <= t)%Z -> (0 <= v' <= t')%Z.
Proof.
  destruct pq as [p0 p1]. unfold velocity_step.
  destruct (Py.leb _ 0); [intros [= <- <- <-]; auto|].
  destruct (Qeq_bool ppm 0); [discriminate|].
  destruct (_ && _); intros [= <- <- <-]; lia.
Qed.

Lemma velocity_loop_counts cfg ppm l : forall m v t m' v' t',
  velocity_loop sqrt cfg ppm (m, v, t) l = Py.Ok (m', v', t') ->
  (0 <= v <= t)%Z -> (0 <= v' <= t')%Z.
Proof.
  induction l as [|pq l IH]; intros m v t m' v' t' H Hv.
  - simpl in H. injection H as <- <- <-. exact Hv.
  - cbn [velocity_loop] in H. unfold Py.bind in H.
    destruct (velocity_step sqrt cfg ppm (m, v, t) pq) as [[[m1 v1] t1]|] eqn:E;
      [|discriminate].
    apply (IH _ _ _ _ _ _ H). eapply velocity_step_counts; [exact E|exact Hv].
Qed.

Lemma velocity_score_unit cfg points ppm s :
  _validate_velocity_constraints sqrt cfg points ppm = Py.Ok s ->
  0 <= s <= 1.
Proof.
  unfold _validate_velocity_constraints.
  destruct (_ <? 2)%nat; [intros [= <-]; lra|].
  unfold Py.bind.
  destruct (velocity_loop _ _ _ _ _) as [[[m v] t]|] eqn:E; [|discriminate].
  intros [= <-].
  destruct (0 <? t)%Z eqn:Ht; [|lra].
  apply Z.ltb_lt in Ht. apply ratio_unit; [|exact Ht].
  eapply velocity_loop_counts; [exact E|lia].
Qed.

Lemma gravity_score_unit cfg points quad_fit ppm :
  0 <= _validate_gravity_consistency cfg points quad_fit ppm <= 1.
Proof.
  unfold _validate_gravity_consistency.
  destruct quad_fit as [fit|]; [|lra].
  destruct (_ <? 3)%nat; [lra|]. cbv zeta.
  match goal with |- 0 <= (?d + ?m) / 2 <= 1 =>
    assert (Hd : 0 <= d <= 1) by (destruct (Py.ltb (fit_a fit) 0); lra);
    assert (Hm : 0 <= m <= 1)
      by (destruct (_ && _); [lra | apply clamp_unit]);
    generalize dependent d; generalize dependent m
  end.
  intros m Hm d Hd. split.
  - apply Qle_shift_div_l; [reflexivity|]. lra.
  - apply Qle_shift_div_r; [reflexivity|]. lra.
Qed.

Lemma smoothness_score_unit points :
  0 <= _calculate_smoothness_score sqrt points <= 1.
Proof.
  unfold _calculate_smoothness_score.
  destruct (_ <? 3)%nat; [lra|].
  destruct (filter_some _) as [|a l]; [lra|]. cbv zeta.
  generalize (var (a :: l) / 10000). intros v.
  destruct (max_cases 0 (1 - v)) as [[H1 E1]|[H1 E1]]; rewrite E1;
    match goal with |- context [Py.min 1 ?y] =>
      destruct (min_cases 1 y) as [[H2 E2]|[H2 E2]]; rewrite E2
    end; lra.
Qed.

Lemma trajectory_score_unit cfg quad_fit :
  0 <= _evaluate_trajectory_fit cfg quad_fit <= 1.
Proof.
  unfold _evaluate_trajectory_fit.
  destruct quad_fit as [fit|]; [|lra]. cbv zeta. apply clamp_unit.
Qed.

(** X20.  Each of the four component scores of the gate lies in
    [[0, 1]]: the velocity score (when the call returns), the gravity
    score, the smoothness score and the trajectory-fit score, for any
    points, any fit and any configuration. *)
Theorem component_scores_unit cfg points quad_fit ppm :
  (forall s, _validate_velocity_constraints sqrt cfg points ppm = Py.Ok s ->
             0 <= s <= 1) /\
  0 <= _validate_gravity_consistency cfg points quad_fit ppm <= 1 /\
  0 <= _calculate_smoothness_score sqrt points <= 1 /\
  0 <= _evaluate_trajectory_fit cfg quad_fit <= 1.
Proof.
  split; [intros s; apply velocity_score_unit|].
  split; [apply gravity_score_unit|].
  split; [apply smoothness_score_unit | apply trajectory_score_unit].
Qed.

Lemma velocity_loop_still cfg ppm l : forall st,
  Forall (fun pq => ptime (snd pq) <= ptime (fst pq)) l ->
  velocity_loop sqrt cfg ppm st l = Py.Ok st.
Proof.
  induction l as [|[p0 p1] l IH]; intros st Hall; [reflexivity|].
  inversion Hall as [|? ? Hpq Hl]; subst. cbn [fst snd] in Hpq.
  cbn [velocity_loop]. destruct st as [[m v] t]. unfold velocity_step.
  replace (Py.leb (ptime p1 - ptime p0) 0) with true
    by (symmetry; apply leb_le; lra).
  cbn [Py.bind]. apply IH. exact Hl.
Qed.

Lemma velocity_loop_raises cfg l : forall st,
  Exists (fun pq => ptime (fst pq) < ptime (snd pq)) l ->
  velocity_loop sqrt cfg 0 st l = Py.Raise Py.ZeroDivisionError.
Proof.
  induction l as [|[p0 p1] l IH]; intros st Hex;
    inversion Hex as [? ? Hpq|? ? Hl]; subst.
  - cbn [fst snd] in Hpq. cbn [velocity_loop].
    destruct st as [[m v] t]. unfold velocity_step.
    replace (Py.leb (ptime p1 - ptime p0) 0) with false
      by (symmetry; apply leb_gt; lra).
    reflexivity.
  - cbn [velocity_loop]. destruct st as [[m v] t]. unfold velocity_step.
    destruct (Py.leb _ 0); cbn [Py.bind]; [apply IH; exact Hl|].
    reflexivity.
Qed.

(** X21.  [_validate_velocity_constraints] with [pixels_per_meter = 0]:
    the call raises [ZeroDivisionError] when the time increases between
    some two consecutive points, and returns the score 1 when it
    increases between none (fewer than two points included).  With any
    other [pixels_per_meter] the call returns. *)
Theorem velocity_constraints_zero_scale cfg points :
  (Exists (fun pq => ptime (fst pq) < ptime (snd pq)) (pairs points) ->
   _validate_velocity_constraints sqrt cfg points 0
   = Py.Raise Py.ZeroDivisionError) /\
  (Forall (fun pq => ptime (snd pq) <= ptime (fst pq)) (pairs points) ->
   _validate_velocity_constraints sqrt cfg points 0 = Py.Ok 1) /\
  (forall ppm, ~ ppm == 0 ->
     exists s, _validate_velocity_constraints sqrt cfg points ppm = Py.Ok s).
Proof.
  split; [|split].
  - intros Hex. unfold _validate_velocity_constraints.
    destruct (List.length points <? 2)%nat eqn:Hlen.
    + apply Nat.ltb_lt in Hlen.
      destruct points as [|p [|q l]]; simpl in Hlen; try lia;
        inversion Hex.
    + rewrite velocity_loop_raises by exact Hex. reflexivity.
  - intros Hall. unfold _validate_velocity_constraints.
    destruct (_ <? 2)%nat; [reflexivity|].
    rewrite velocity_loop_still by exact Hall. reflexivity.
  - intros ppm Hppm.
    apply BallisticsGateSpec.velocity_constraints_ok. exact Hppm.
Qed.

End Numerics.

Lemma component_scores_unit_witness :
  let s := match _validate_velocity_constraints (fun q => q) default
                   Scenarios.Physics.arc 100 with
           | Py.Ok s => s
           | Py.Raise _ => 0
           end in
  0 <= s <= 1.
Proof.
  cbv zeta.
  apply (proj1 (@component_scores_unit (fun q => q) default
                  Scenarios.Physics.arc None 100)).
  vm_compute. reflexivity.
Defined.

Lemma velocity_constraints_zero_scale_witness :
  _validate_velocity_constraints (fun q => q) default Scenarios.Physics.arc 0
  = Py.Raise Py.ZeroDivisionError.
Proof.
  apply (proj1 (@velocity_constraints_zero_scale (fun q => q) default
                  Scenarios.Physics.arc)).
  apply Exists_cons_hd. vm_compute. reflexivity.
Defined.

End BallisticsScores.


(** * segment_builder.py: segments from recorded rallies *)

Module RallySegmentsSpec.
Import Config SegmentBuilder SegmentTools RallySegments PyFacts.

Lemma fold_max_ge es : forall e x,
  In x (e :: es) -> x <= fold_left Py.max es e.
Proof.
  induction es as [|y es IH]; intros e x Hx; cbn [fold_left].
  - destruct Hx as [<-|[]]. lra.
  - destruct (max_cases e y) as [[Hlt E]|[Hge E]].
    + destruct Hx as [<-|Hx].
      * apply Qle_trans with y; [lra|]. apply IH. rewrite E. now left.
      * apply IH. rewrite E. exact Hx.
    + destruct Hx as [<-|[<-|Hx]].
      * apply IH. rewrite E. now left.
      * apply Qle_trans with e; [lra|]. apply IH. rewrite E. now left.
      * apply IH. rewrite E. now right.
Qed.

(** The range that [_close_segment] appends. *)
Lemma close_segment_range cfg s e sb :
  0 <= rally_start_padding cfg -> 0 <= rally_end_padding cfg -> 0 <= s ->
  exists r, ranges (_close_segment cfg s e sb) = ranges sb ++ [r] /\
            0 <= tr_start r /\ tr_start r <= s /\ e <= tr_end r.
Proof.
  intros Hpre Hpost Hs. unfold _close_segment. cbv zeta.
  eexists. split; [reflexivity|]. cbn [tr_start tr_end].
  match goal with |- context [Py.max 0 (s - ?p)] => set (q := p) end.
  assert (Hq : 0 <= q).
  { unfold q. destruct (Py.ltb _ _); [|exact Hpre].
    destruct (min_cases (rally_start_padding cfg) max_preroll_for_short)
      as [[H1 E1]|[H1 E1]]; rewrite E1; [|exact Hpre].
    unfold max_preroll_for_short. lra. }
  clearbody q.
  destruct (max_cases 0 (s - q)) as [[H1 E1]|[H1 E1]]; rewrite E1;
    repeat split; lra.
Qed.

Lemma appended_rallies cfg rally rallies : forall sb,
  0 <= rally_start_padding cfg -> 0 <= rally_end_padding cfg ->
  0 <= RallyDecider.start_time rally ->
  segment_quality_threshold cfg <= RallyDecider.quality_score rally ->
  In rally rallies \/
  (exists r, In r (ranges sb) /\ 0 <= tr_start r /\
             tr_start r <= RallyDecider.start_time rally /\
             RallyDecider.end_time rally <= tr_end r) ->
  let sb1 :=
    fold_left
      (fun b rally =>
         if Py.leb (segment_quality_threshold cfg)
                   (RallyDecider.quality_score rally)
         then append_rally_period cfg rally b else b)
      rallies sb in
  current_start sb1 = current_start sb /\
  exists r, In r (ranges sb1) /\ 0 <= tr_start r /\
            tr_start r <= RallyDecider.start_time rally /\
            RallyDecider.end_time rally <= tr_end r.
Proof.
  induction rallies as [|x rallies IH]; intros sb Hpre Hpost Hs Hq Hin;
    cbv zeta; cbn [fold_left].
  - destruct Hin as [[]|Hr]. split; [reflexivity|exact Hr].
  - set (sb' := if Py.leb _ _ then _ else _).
    assert (Hcs : current_start sb' = current_start sb).
    { unfold sb'. destruct (Py.leb _ _); reflexivity. }
    assert (Hold : forall r, In r (ranges sb) -> In r (ranges sb')).
    { intros r Hr. unfold sb'. destruct (Py.leb _ _); [|exact Hr].
      unfold append_rally_period, append_raw, _close_segment. cbv zeta.
      cbn [ranges]. apply in_or_app. now left. }
    destruct (IH sb' Hpre Hpost Hs Hq) as [Hc Hr].
    + destruct Hin as [[<-|Hin]|(r & Hr & Hb)].
      * right. unfold sb'.
        replace (Py.leb _ _) with true by (symmetry; apply leb_le; exact Hq).
        unfold append_rally_period, append_raw.
        destruct (@close_segment_range cfg (RallyDecider.start_time x)
                    (RallyDecider.end_time x) sb Hpre Hpost Hs)
          as (r & -> & Hb).
        exists r. split; [apply in_or_app; right; now left|exact Hb].
      * left. exact Hin.
      * right. exists r. split; [apply Hold; exact Hr|exact Hb].
    + split; [rewrite <- Hcs; exact Hc|exact Hr].
Qed.

(** X22.  [create_segments_from_rallies] exports every good rally whole:
    with non-negative paddings, a rally of the list whose quality score
    reaches [segment_quality_threshold], that starts at or after 0 and
    lasts at least [min_segment_duration] (and is not empty), lies inside
    one of the returned segments. *)
Theorem create_segments_keeps_rallies cfg rallies sb rally :
  0 <= rally_start_padding cfg -> 0 <= rally_end_padding cfg ->
  In rally rallies ->
  segment_quality_threshold cfg <= RallyDecider.quality_score rally ->
  0 <= RallyDecider.start_time rally ->
  RallyDecider.start_time rally < RallyDecider.end_time rally ->
  min_segment_duration cfg
    <= RallyDecider.end_time rally - RallyDecider.start_time rally ->
  exists out,
    In out (snd (create_segments_from_rallies cfg rallies sb)) /\
    tr_start out <= RallyDecider.start_time rally /\
    RallyDecider.end_time rally <= tr_end out.
Proof.
  intros Hpre Hpost Hin Hq Hs Hne Hlong.
  unfold create_segments_from_rallies. cbv zeta.
  destruct (@appended_rallies cfg rally rallies (reset sb) Hpre Hpost Hs Hq
              (or_introl Hin)) as [Hc (r & Hr & Hr0 & Hrs & Hre)].
  set (sb1 := fold_left _ rallies (reset sb)) in *.
  set (vd := match map RallyDecider.end_time rallies with
             | [] => 60 | e :: es => fold_left Py.max es e + 10 end).
  assert (Hvd : RallyDecider.end_time rally <= vd).
  { unfold vd.
    assert (Hm : In (RallyDecider.end_time rally)
                    (map RallyDecider.end_time rallies))
      by (apply in_map; exact Hin).
    destruct (map RallyDecider.end_time rallies) as [|e es]; [destruct Hm|].
    pose proof (@fold_max_ge es e _ Hm). lra. }
  unfold finalize. cbv zeta. cbn [snd].
  change (current_start (reset sb)) with (@None Q) in Hc. rewrite Hc.
  assert (Hcl : tr_start (clamp vd r) <= RallyDecider.start_time rally /\
                RallyDecider.end_time rally <= tr_end (clamp vd r)).
  { unfold clamp. cbn [tr_start tr_end].
    destruct (max_cases 0 (tr_start r)) as [[H1 E1]|[H1 E1]]; rewrite E1;
      destruct (min_cases vd (tr_end r)) as [[H2 E2]|[H2 E2]]; rewrite E2;
      split; lra. }
  destruct (@FinalizeSpec.merged_cover cfg (clamp_ranges vd (ranges sb1))
              (clamp vd r)) as (out & Hout & Hins).
  - apply FinalizeSpec.clamp_ranges_In; [exact Hr|]. lra.
  - unfold duration. lra.
  - exists out. split; [exact Hout|]. unfold inside in Hins. lra.
Qed.

Lemma create_segments_keeps_rallies_witness :
  exists out,
    In out (snd (create_segments_from_rallies default mock_rallies init)) /\
    tr_start out <= 15 /\ 19 <= tr_end out.
Proof.
  apply (@create_segments_keeps_rallies default mock_rallies init
           (RallyDecider.mkPeriod 15 19 4 0.7 0.6 3 0.65)).
  - vm_compute. discriminate.
  - vm_compute. discriminate.
  - right. left. reflexivity.
  - vm_compute. discriminate.
  - vm_compute. discriminate.
  - vm_compute. reflexivity.
  - vm_compute. discriminate.
Defined.

End RallySegmentsSpec.


(** * rally_decider.py: the information on the current rally *)

Module RallyInfoSpec.
Import Config RallyDecider RallyRuns PyFacts Scenarios.Rally.

Lemma decide_started cfg rc c d :
  started d -> started (decide cfg rc c d).
Proof.
  intros Hd Hact.
  rewrite RallyDeciderSpec.decide_current_state in Hact.
  unfold decide. rewrite Hact.
  destruct (state_eqb ACTIVE (current_state d)) eqn:E.
  - apply RallyRunsSpec.state_eqb_eq in E. symmetry in E.
    destruct (Hd E) as [Ht Hc].
    cbn [_update_rally_tracking state_start_time current_rally_start
         current_rally_confidence_count].
    rewrite E. cbn [state_eqb]. split; [exact Ht|lia].
  - cbn [_update_rally_tracking _transition_to_state state_start_time
         current_rally_start current_rally_confidence_count current_state].
    destruct (current_state d); simpl in E; try discriminate;
      cbn [state_eqb andb negb]; split; (reflexivity || lia).
Qed.

Lemma reachable_started cfg d : reachable cfg d -> started d.
Proof.
  induction 1 as [|d c Hd IH|d Hd IH].
  - intros H. discriminate.
  - rewrite RallyRunsSpec.update_decide. apply decide_started. exact IH.
  - intros H. discriminate.
Qed.

(** X23.  [get_current_rally_info] returns [None] exactly when the
    decider is not ACTIVE.  When it is, the reported ["duration"] -
    [state_start_time - current_rally_start] - is always 0, because the
    ACTIVE state starts when the rally does; the reported start is that
    time, the average confidence lies between 0 and the maximum
    confidence, which is at most 1, and the contact estimate is not
    negative. *)
Theorem current_rally_info_spec cfg d :
  reachable cfg d ->
  (get_current_rally_info d = None <-> current_state d <> ACTIVE) /\
  forall info, get_current_rally_info d = Some info ->
    info_duration info == 0 /\
    info_start_time info = state_start_time d /\
    0 <= info_avg_confidence info <= info_max_confidence info /\
    info_max_confidence info <= 1 /\
    (0 <= info_estimated_contacts info)%Z.
Proof.
  intros Hr.
  pose proof (@reachable_started cfg d Hr) as Hst.
  destruct (@RallyInvariants.reachable_tallies cfg d Hr)
    as (Hc & Hs & Hsm & Hm & Hk).
  unfold get_current_rally_info.
  destruct (current_state d) eqn:Hcur; cbn [state_eqb negb];
    try (split; [split; [discriminate|reflexivity]|discriminate]).
  split; [split; [discriminate|congruence]|].
  destruct (Hst Hcur) as [Ht Hpos].
  intros info [= <-].
  cbn [info_duration info_start_time info_avg_confidence info_max_confidence
       info_estimated_contacts].
  split; [rewrite Ht; ring|]. split; [symmetry; exact Ht|].
  replace (0 <? current_rally_confidence_count d)%Z with true
    by (symmetry; apply Z.ltb_lt; exact Hpos).
  assert (Hi : 0 < inject_Z (current_rally_confidence_count d)).
  { change 0 with (inject_Z 0). rewrite <- Zlt_Qlt. exact Hpos. }
  split; [split|split; [lra|exact Hk]].
  - apply Qle_shift_div_l; [exact Hi|]. lra.
  - apply Qle_shift_div_r; [exact Hi|]. lra.
Qed.

Lemma current_rally_info_spec_witness :
  let d := fst (run default [ctx 0 1 1 20 0; ctx 1 1 1 20 0; ctx 5 1 1 20 0]
                    init) in
  exists info,
    get_current_rally_info d = Some info /\ info_duration info == 0.
Proof.
  cbv zeta.
  pose proof (proj2 (@current_rally_info_spec default
                       (fst (run default
                               [ctx 0 1 1 20 0; ctx 1 1 1 20 0; ctx 5 1 1 20 0]
                               init))
                       (RallyInvariants.run_reachable _ (reach_init default))))
    as H.
  destruct (get_current_rally_info _) as [info|] eqn:E.
  - exists info. split; [reflexivity|]. apply (H info eq_refl).
  - vm_compute in E. discriminate.
Defined.

End RallyInfoSpec.
